(** * Knowledge-base retrieval engine and concept graph: a shallow embedding

    This development embeds the core of the repository
    ([backend/services/search_engine.py], [backend/services/concept_analyzer.py],
    [backend/api/concepts.py], [backend/api/search.py] and the tables of
    [backend/models/document.py]) and proves properties of it.

    Conventions of the embedding:
    - Python [float] values (scores, similarities, strengths) are exact
      rationals [Q]; equalities between scores are stated with [==].
    - Python [str] values are [string]; [lower], [split], [strip], [in] and
      [count] are written out for the ASCII range (a character outside it is
      neither whitespace nor cased).
    - Tables are lists of rows in table order; a nullable text column is an
      [option string].
    - Calls that leave the repository (scikit-learn, the sentence-embedding
      model, SQL [LIKE], the date and number parsers) are the fields of the
      class [External]; the engine is defined and verified for any instance.
    - An exception is a [None] or an [inl] where the code can raise and
      somebody catches it; each handler's [try]/[except] is written out. *)

From Stdlib Require Import QArith Qminmax Qabs Lqa String Ascii List Lia ZArith Permutation.
From stdpp Require Import base gmap strings list sets.

Local Open Scope string_scope.
Local Open Scope list_scope.
Local Open Scope Q_scope.

(** ** Python string primitives *)

Module PyStr.

(** [str.isspace] on one ASCII character: TAB..CR, FS..US and space. *)
Definition isspace (c : ascii) : bool :=
  let n := nat_of_ascii c in
  ((9 <=? n)%nat && (n <=? 13)%nat) || ((28 <=? n)%nat && (n <=? 32)%nat).

Definition lower_char (c : ascii) : ascii :=
  let n := nat_of_ascii c in
  if (65 <=? n)%nat && (n <=? 90)%nat then ascii_of_nat (n + 32) else c.

(** [s.lower()] *)
Fixpoint lower (s : string) : string :=
  match s with
  | EmptyString => EmptyString
  | String c s' => String (lower_char c) (lower s')
  end.

Definition is_empty (s : string) : bool :=
  match s with EmptyString => true | _ => false end.

(** [s.split()]: maximal runs of non-whitespace characters, in order.
    [cur] is the run being read. *)
Fixpoint split_go (cur : string) (s : string) : list string :=
  match s with
  | EmptyString => if is_empty cur then [] else [cur]
  | String c s' =>
      if isspace c
      then (if is_empty cur then split_go EmptyString s'
            else cur :: split_go EmptyString s')
      else split_go (cur +:+ String c EmptyString) s'
  end.

Definition split (s : string) : list string := split_go EmptyString s.

Fixpoint lstrip (s : string) : string :=
  match s with
  | EmptyString => EmptyString
  | String c s' => if isspace c then lstrip s' else s
  end.

Fixpoint rstrip (s : string) : string :=
  match s with
  | EmptyString => EmptyString
  | String c s' =>
      let r := rstrip s' in
      if isspace c && is_empty r then EmptyString else String c r
  end.

(** [s.strip()] *)
Definition strip (s : string) : string := rstrip (lstrip s).

(** [s.startswith(t)] *)
Fixpoint startswith (t s : string) : bool :=
  match t, s with
  | EmptyString, _ => true
  | String _ _, EmptyString => false
  | String a t', String b s' => Ascii.eqb a b && startswith t' s'
  end.

(** [t in s] *)
Fixpoint contains (t s : string) : bool :=
  startswith t s ||
  match s with
  | EmptyString => false
  | String _ s' => contains t s'
  end.

(** [s.count(t)]: non-overlapping occurrences, scanning left to right.
    [skip] is the number of characters still covered by the last match. *)
Fixpoint count_go (t s : string) (skip : nat) : nat :=
  match s with
  | EmptyString => if is_empty t then 1 else 0
  | String _ s' =>
      match skip with
      | S k => count_go t s' k
      | O => if startswith t s
             then S (count_go t s' (String.length t - 1))
             else count_go t s' 0
      end
  end.

Definition count (t s : string) : nat := count_go t s 0.

(** [s[:n]] for [n >= 0] *)
Fixpoint take (n : nat) (s : string) : string :=
  match n, s with
  | S k, String c s' => String c (take k s')
  | _, _ => EmptyString
  end.

(** Truthiness of an optional text column: [None] and [''] are false. *)
Definition truthy (o : option string) : bool :=
  match o with
  | Some s => negb (is_empty s)
  | None => false
  end.


End PyStr.

(** ** Numbers *)

Definition Qnat (n : nat) : Q := inject_Z (Z.of_nat n).

(** Python's [min(a, b)]: the first argument unless the second is smaller. *)
Definition py_min (a b : Q) : Q := if Qlt_le_dec b a then b else a.

(** ** Tables of [backend/models/document.py] *)

Record Document := {
  d_id : Z;
  d_file_type : string;
  d_title : option string;
  d_content : option string;
  d_summary : option string;
  d_word_count : option Z;
  d_upload_date : Z;
  d_processing_status : string
}.

Record Concept := {
  c_id : Z;
  c_name : string;
  c_description : string;
  c_category : string;
  c_frequency : Z
}.

(** A row of the association table [document_concepts]. *)
Record DocumentConcept := {
  dc_document_id : Z;
  dc_concept_id : Z;
  dc_relevance_score : Q;
  dc_context : string
}.

Record ConceptRelation := {
  concept1_id : Z;
  concept2_id : Z;
  relation_type : string;
  strength : Q
}.

Record Db := {
  documents : list Document;
  concepts : list Concept;
  document_concepts : list DocumentConcept;
  concept_relations : list ConceptRelation
}.

(** [Concept.query.get(i)] *)
Definition get_concept (db : Db) (i : Z) : option Concept :=
  List.find (fun c => Z.eqb (c_id c) i) (concepts db).

(** [concept.documents]: ids of the documents linked to the concept, in the
    order of the association table. *)
Definition linked_documents (cid : Z) (links : list DocumentConcept) : list Z :=
  map dc_document_id (List.filter (fun l => Z.eqb (dc_concept_id l) cid) links).

Definition concept_documents (db : Db) (cid : Z) : list Z :=
  linked_documents cid (document_concepts db).

(** ** [backend/services/concept_analyzer.py] *)

Module ConceptAnalyzer.

(** One extracted sighting, as [extract_concepts_from_text] produces it. *)
Record ConceptData := {
  cd_name : string;
  cd_category : string;
  cd_context : string;
  cd_confidence : Q
}.

(** [set(name.lower().split())] *)
Definition name_words (name : string) : gset string :=
  list_to_set (PyStr.split (PyStr.lower name)).

(** [set([d.id for d in concept.documents])] *)
Definition document_id_set (db : Db) (c : Concept) : gset Z :=
  list_to_set (concept_documents db (c_id c)).

Definition _calculate_concept_similarity (db : Db) (concept1 concept2 : Concept) : Q :=
  let similarity_score := 0 in
  let words1 := name_words (c_name concept1) in
  let words2 := name_words (c_name concept2) in
  let similarity_score :=
    if negb (bool_decide (words1 = ∅)) && negb (bool_decide (words2 = ∅))
    then
      let jaccard := Qnat (size (words1 ∩ words2)) / Qnat (size (words1 ∪ words2)) in
      similarity_score + jaccard * 0.4
    else similarity_score in
  let similarity_score :=
    if String.eqb (c_category concept1) (c_category concept2)
    then similarity_score + 0.3
    else similarity_score in
  let common_docs := document_id_set db concept1 ∩ document_id_set db concept2 in
  let similarity_score :=
    if negb (bool_decide (common_docs = ∅))
    then
      let co_occurrence :=
        Qnat (size common_docs) /
        Qnat (Nat.max (length (concept_documents db (c_id concept1)))
                      (length (concept_documents db (c_id concept2)))) in
      similarity_score + co_occurrence * 0.3
    else similarity_score in
  py_min similarity_score 1.

Definition _determine_relation_type (concept1 concept2 : Concept) (similarity : Q) : string :=
  if Qlt_le_dec 0.8 similarity then "synonym"
  else if String.eqb (c_category concept1) (c_category concept2) then "related"
  else if PyStr.contains "design" (c_name concept1) && PyStr.contains "design" (c_name concept2)
       then "related"
  else if Qlt_le_dec 0.6 similarity then "related"
  else "weak_relation".

(** The [existing] query of [find_concept_relations]: some stored relation
    joins the two ids, in either orientation. *)
Definition relation_exists (db : Db) (a b : Z) : bool :=
  existsb (fun r =>
             (Z.eqb (concept1_id r) a && Z.eqb (concept2_id r) b)
             || (Z.eqb (concept1_id r) b && Z.eqb (concept2_id r) a))
          (concept_relations db).

(** The body of the loop over [other_concepts]: zero or one new relation. *)
Definition relation_for (db : Db) (similarity_threshold : Q)
           (concept other_concept : Concept) : list ConceptRelation :=
  let similarity := _calculate_concept_similarity db concept other_concept in
  if Qlt_le_dec similarity_threshold similarity then
    let relation_type := _determine_relation_type concept other_concept similarity in
    if relation_exists db (c_id concept) (c_id other_concept) then []
    else [ {| concept1_id := c_id concept;
              concept2_id := c_id other_concept;
              relation_type := relation_type;
              strength := similarity |} ]
  else [].

(** Returns the new relations; it does not store them. *)
Definition find_concept_relations (db : Db) (concept_id : Z)
           (similarity_threshold : Q) : list ConceptRelation :=
  match get_concept db concept_id with
  | None => []
  | Some concept =>
      let other_concepts :=
        List.filter (fun c => negb (Z.eqb (c_id c) concept_id)) (concepts db) in
      flat_map (relation_for db similarity_threshold concept) other_concepts
  end.

(** [db.session.add(relation)] for each relation, then commit. *)
Definition add_relations (db : Db) (rels : list ConceptRelation) : Db :=
  {| documents := documents db;
     concepts := concepts db;
     document_concepts := document_concepts db;
     concept_relations := concept_relations db ++ rels |}.

(** The relation phase of [process_document_concepts]: every call of
    [find_concept_relations] reads the stored relations, and the results
    are stored only after the last call. *)
Definition save_found_relations (db : Db) (saved_concepts : list Z) : Db :=
  add_relations db
    (flat_map (fun cid => find_concept_relations db cid 0.3) saved_concepts).

(** Primary key handed out by the database for a new concept row. *)
Definition next_concept_id (db : Db) : Z :=
  (1 + fold_right Z.max 0 (map c_id (concepts db)))%Z.

(** [Concept.query.filter_by(name=...).first()]: the first row whose name
    is equal to the given one (SQLite compares text byte for byte). *)
Definition concept_by_name (db : Db) (name : string) : option Concept :=
  List.find (fun c => String.eqb (c_name c) name) (concepts db).


Definition increment_frequency (cid : Z) (c : Concept) : Concept :=
  if Z.eqb (c_id c) cid
  then {| c_id := c_id c; c_name := c_name c; c_description := c_description c;
          c_category := c_category c; c_frequency := c_frequency c + 1 |}
  else c.

Definition link_exists (db : Db) (document_id concept_id : Z) : bool :=
  existsb (fun l => Z.eqb (dc_document_id l) document_id
                    && Z.eqb (dc_concept_id l) concept_id)
          (document_concepts db).

(** First half of the loop body of [save_concepts_to_db]: find or create
    the concept.  Returns the database and the id of the concept object. *)
Definition upsert (db : Db) (concept_data : ConceptData) : Db * Z :=
  match concept_by_name db (cd_name concept_data) with
  | None =>
      let i := next_concept_id db in
      ({| documents := documents db;
          concepts := concepts db ++
            [ {| c_id := i;
                 c_name := cd_name concept_data;
                 c_description := PyStr.take 500 (cd_context concept_data);
                 c_category := cd_category concept_data;
                 c_frequency := 1 |} ];
          document_concepts := document_concepts db;
          concept_relations := concept_relations db |}, i)
  | Some concept =>
      ({| documents := documents db;
          concepts := map (increment_frequency (c_id concept)) (concepts db);
          document_concepts := document_concepts db;
          concept_relations := concept_relations db |}, c_id concept)
  end.

(** Second half of the loop body: link the concept to the document unless
    the link is already there. *)
Definition link_document (db : Db) (document_id : Z) (concept_id : Z)
           (concept_data : ConceptData) : Db :=
  if link_exists db document_id concept_id then db
  else {| documents := documents db;
          concepts := concepts db;
          document_concepts := document_concepts db ++
            [ {| dc_document_id := document_id;
                 dc_concept_id := concept_id;
                 dc_relevance_score := cd_confidence concept_data;
                 dc_context := PyStr.take 1000 (cd_context concept_data) |} ];
          concept_relations := concept_relations db |}.

(** [saved_concepts] holds references to concept objects: their ids. *)
Definition save_concepts_to_db (db : Db) (concepts : list ConceptData)
           (document_id : Z) : Db * list Z :=
  fold_left
    (fun '(db, saved_concepts) concept_data =>
       let '(db, cid) := upsert db concept_data in
       (link_document db document_id cid concept_data, saved_concepts ++ [cid]))
    concepts (db, []).

End ConceptAnalyzer.

(** ** [backend/api/concepts.py]: the merge endpoint *)

Module ConceptsApi.

(** Exceptions raised inside the handler: werkzeug's [NotFound], which
    [get_or_404] raises through [abort(404)]. *)
Inductive exn :=
| NotFound.

Inductive response :=
| Ok200 (merged_concept : Concept)
| BadRequest400
| InternalError500.

Definition result (A : Type) : Type := exn + A.

Definition ret {A} (a : A) : result A := inr a.
Definition raise {A} (e : exn) : result A := inl e.
Definition bind {A B} (m : result A) (k : A -> result B) : result B :=
  match m with
  | inl e => inl e
  | inr a => k a
  end.

Notation "'let*' x ':=' m 'in' k" := (bind m (fun x => k))
  (at level 10, x name, m at level 100, k at level 200).

(** [Concept.query.get_or_404(i)] *)
Definition get_or_404 (db : Db) (i : Z) : result Concept :=
  match get_concept db i with
  | Some c => ret c
  | None => raise NotFound
  end.

(** [not v] for a JSON id: absent, [null] and [0] are false values. *)
Definition missing (v : option Z) : bool :=
  match v with
  | None => true
  | Some i => Z.eqb i 0
  end.

Definition set_frequency (cid : Z) (f : Z) (c : Concept) : Concept :=
  if Z.eqb (c_id c) cid
  then {| c_id := c_id c; c_name := c_name c; c_description := c_description c;
          c_category := c_category c; c_frequency := f |}
  else c.

(** [primary_concept.documents.append(doc)] unless [doc] is already there;
    the new association row takes the column defaults. *)
Definition transfer_document (primary_id : Z) (links : list DocumentConcept)
           (doc : Z) : list DocumentConcept :=
  if existsb (fun l => Z.eqb (dc_document_id l) doc && Z.eqb (dc_concept_id l) primary_id)
             links
  then links
  else links ++ [ {| dc_document_id := doc; dc_concept_id := primary_id;
                     dc_relevance_score := 0; dc_context := "" |} ].

(** The loop over [relations_to_update]; rows that mention neither id are
    not selected by the query and stay as they are. *)
Definition repoint (primary_id secondary_id : Z) (r : ConceptRelation) : ConceptRelation :=
  if Z.eqb (concept1_id r) secondary_id
  then {| concept1_id := primary_id; concept2_id := concept2_id r;
          relation_type := relation_type r; strength := strength r |}
  else if Z.eqb (concept2_id r) secondary_id
  then {| concept1_id := concept1_id r; concept2_id := primary_id;
          relation_type := relation_type r; strength := strength r |}
  else r.

(** [db.session.delete(secondary_concept)]: the concept row goes, and with
    it its rows of the association table. *)
Definition delete_concept (cid : Z) (cs : list Concept) : list Concept :=
  List.filter (fun c => negb (Z.eqb (c_id c) cid)) cs.

Definition delete_links (cid : Z) (ls : list DocumentConcept) : list DocumentConcept :=
  List.filter (fun l => negb (Z.eqb (dc_concept_id l) cid)) ls.

(** The [try] block up to the commit: the database to commit and the
    primary concept object as it stands then. *)
Definition merge_session (db : Db) (primary_id secondary_id : Z) : result (Db * Concept) :=
  let* primary_concept := get_or_404 db primary_id in
  let* secondary_concept := get_or_404 db secondary_id in
  let frequency := (c_frequency primary_concept + c_frequency secondary_concept)%Z in
  let links :=
    fold_left (transfer_document primary_id)
              (concept_documents db secondary_id) (document_concepts db) in
  ret ({| documents := documents db;
          concepts := delete_concept secondary_id
                        (map (set_frequency primary_id frequency) (concepts db));
          document_concepts := delete_links secondary_id links;
          concept_relations := map (repoint primary_id secondary_id) (concept_relations db) |},
       set_frequency primary_id frequency primary_concept).

(** The handler.  Every exception of the [try] block, the [NotFound] of
    [get_or_404] included, is caught by [except Exception], which rolls
    the session back and answers 500.  On success the response carries
    [primary_concept.to_dict()]. *)
Definition merge_concepts (db : Db) (primary_id secondary_id : option Z) : response * Db :=
  if missing primary_id || missing secondary_id
  then (BadRequest400, db)
  else
    match merge_session db (default 0%Z primary_id) (default 0%Z secondary_id) with
    | inl _ => (InternalError500, db)
    | inr (db', merged_concept) => (Ok200 merged_concept, db')
    end.

End ConceptsApi.

(** ** [backend/services/search_engine.py] *)

(** [sorted(l, key=key, reverse=True)]: descending and stable, so entries
    with equal keys keep their order. *)
Fixpoint insert_desc {A} (key : A -> Q) (x : A) (l : list A) : list A :=
  match l with
  | [] => [x]
  | y :: l' => if Qle_bool (key y) (key x) then x :: l else y :: insert_desc key x l'
  end.

Definition sorted_desc {A} (key : A -> Q) (l : list A) : list A :=
  fold_right (insert_desc key) [] l.

(** [l[:n]] for a Python integer [n]: a negative [n] counts from the end. *)
Definition py_slice_to {A} (n : Z) (l : list A) : list A :=
  if (0 <=? n)%Z then take (Z.to_nat n) l
  else take (Z.to_nat (Z.of_nat (length l) + n)) l.

(** SQL [LIMIT n] as SQLite runs it: a negative [n] is no limit. *)
Definition sql_limit {A} (n : Z) (l : list A) : list A :=
  if (n <? 0)%Z then l else take (Z.to_nat n) l.

(** [x in l] for a list of strings *)
Definition str_in (x : string) (l : list string) : bool :=
  existsb (String.eqb x) l.

Record Highlight := {
  h_source : string;
  h_text : string;
  h_position : option Z;
  h_concept : option string
}.

(** The result dictionaries of the retrievers and of the merge. *)
Record SearchResult := {
  document : Document;
  score : Q;
  search_type : string;
  highlights : list Highlight;
  search_methods : option (list string);
  matched_concepts : option Z
}.

(** The [filters] dictionary; a missing key is [None]. *)
Record Filters := {
  f_file_type : option string;
  f_date_range : option (option Z * option Z);
  f_concepts : option (list Z);
  f_min_word_count : option Z;
  f_max_word_count : option Z
}.

Inductive retriever := Keyword | Semantic | ConceptMode.

(** What the engine calls outside the code embedded here: scikit-learn,
    the sentence model, the database's [LIKE], the standard library's
    parsers, and the highlight extractors (text snippets that no property
    below looks into). *)
Class External := {
  (** scikit-learn's fitted vectorizer and term matrix, the sentence
      model and its vectors *)
  Vectorizer : Type;
  Matrix : Type;
  Model : Type;
  Embedding : Type;
  (** [TfidfVectorizer(...).fit_transform(corpus)]; [None] when it raises *)
  fit_transform : list string -> option (Vectorizer * Matrix);
  (** [cosine_similarity(vectorizer.transform([query]), matrix).flatten()];
      [None] when it raises *)
  tfidf_similarities : Vectorizer -> Matrix -> string -> option (list Q);
  (** [model.encode(text)]; [None] when it raises *)
  encode : Model -> string -> option Embedding;
  cosine_similarity : Embedding -> Embedding -> Q;
  (** [column.ilike('%' + needle + '%')] as the database evaluates it *)
  ilike : option string -> string -> bool;
  _extract_highlights : Document -> string -> list Highlight;
  _extract_concept_highlights : Document -> list Concept -> list Highlight;
  (** [datetime.fromisoformat]; [None] when it raises [ValueError] *)
  fromisoformat : string -> option Z;
  (** [[int(c) for c in concepts.split(',')]]; [None] when it raises *)
  parse_concept_ids : string -> option (list Z)
}.

Module SearchEngine.
Section Engine.

Context `{External}.

Record t := {
  embedding_model : option Model;
  tfidf_vectorizer : option Vectorizer;
  tfidf_matrix : option Matrix;
  doc_ids : list Z;
  document_embeddings : list (Z * Embedding)
}.

Definition completed (d : Document) : bool :=
  String.eqb (d_processing_status d) "completed".

(** [d[k] = v] on a dictionary kept in insertion order. *)
Fixpoint dict_set {V} (k : Z) (v : V) (d : list (Z * V)) : list (Z * V) :=
  match d with
  | [] => [(k, v)]
  | (k', v') :: d' => if Z.eqb k' k then (k, v) :: d' else (k', v') :: dict_set k v d'
  end.

(** [d.get(k, default)] *)
Definition dict_get {V} (k : Z) (dflt : V) (d : list (Z * V)) : V :=
  match List.find (fun p => Z.eqb (fst p) k) d with
  | Some p => snd p
  | None => dflt
  end.

(** [dict(pairs)]: a later pair replaces an earlier one with the same key. *)
Definition dict_of {V} (pairs : list (Z * V)) : list (Z * V) :=
  fold_left (fun d p => dict_set (fst p) (snd p) d) pairs [].

(** The embedding loop of [build_search_index]; a document whose encoding
    raises is skipped. *)
Definition build_embeddings (model : Model) (docs : list Document) : list (Z * Embedding) :=
  fold_left
    (fun d doc =>
       match d_content doc with
       | Some content =>
           if PyStr.is_empty content then d
           else match encode model (PyStr.take 1000 content) with
                | Some embedding => dict_set (d_id doc) embedding d
                | None => d
                end
       | None => d
       end)
    docs [].

(** [SearchEngine()]: [__init__] followed by [build_search_index].
    [loaded_model] is what [setup_embeddings] obtained.  The result is
    [None] when fitting the vectorizer raises, since nothing catches it. *)
Definition build_search_index (loaded_model : option Model) (db : Db) : option t :=
  let documents := List.filter completed (documents db) in
  match documents with
  | [] => Some {| embedding_model := loaded_model; tfidf_vectorizer := None;
                  tfidf_matrix := None; doc_ids := []; document_embeddings := [] |}
  | _ =>
      let indexed := List.filter (fun doc => PyStr.truthy (d_content doc)) documents in
      let corpus := map (fun doc => default "" (d_content doc)) indexed in
      let embeddings :=
        match loaded_model with
        | Some model => build_embeddings model documents
        | None => []
        end in
      match corpus with
      | [] => Some {| embedding_model := loaded_model; tfidf_vectorizer := None;
                      tfidf_matrix := None; doc_ids := []; document_embeddings := embeddings |}
      | _ =>
          match fit_transform corpus with
          | None => None
          | Some (vectorizer, matrix) =>
              Some {| embedding_model := loaded_model;
                      tfidf_vectorizer := Some vectorizer;
                      tfidf_matrix := Some matrix;
                      doc_ids := map d_id indexed;
                      document_embeddings := embeddings |}
          end
      end
  end.

(** [_apply_filters] as the row test it adds to the query. *)
Definition _apply_filters (db : Db) (filters : Filters) (d : Document) : bool :=
  (match f_file_type filters with
   | Some ft => if PyStr.is_empty ft then true else ilike (Some (d_file_type d)) ft
   | None => true
   end)
  && (match f_date_range filters with
      | Some (start, end_) =>
          (match start with Some s => (s <=? d_upload_date d)%Z | None => true end)
          && (match end_ with Some e => (d_upload_date d <=? e)%Z | None => true end)
      | None => true
      end)
  && (match f_concepts filters with
      | Some [] | None => true
      | Some concept_ids =>
          existsb (fun l => Z.eqb (dc_document_id l) (d_id d)
                            && existsb (Z.eqb (dc_concept_id l)) concept_ids)
                  (document_concepts db)
      end)
  && (match f_min_word_count filters with
      | Some m => match d_word_count d with Some w => (m <=? w)%Z | None => false end
      | None => true
      end)
  && (match f_max_word_count filters with
      | Some m => match d_word_count d with Some w => (w <=? m)%Z | None => false end
      | None => true
      end).

(** [if filters: query = self._apply_filters(query, filters)] *)
Definition passes (db : Db) (filters : option Filters) (d : Document) : bool :=
  match filters with
  | Some f => _apply_filters db f d
  | None => true
  end.

Definition _calculate_simple_relevance (document : Document) (query : string) : Q :=
  let query_terms := PyStr.split (PyStr.lower query) in
  let score := 0 in
  let score :=
    match d_title document with
    | Some title =>
        if PyStr.is_empty title then score
        else
          let title_lower := PyStr.lower title in
          fold_left (fun score term =>
                       if PyStr.contains term title_lower then score + 2.0 else score)
                    query_terms score
    | None => score
    end in
  let score :=
    match d_summary document with
    | Some summary =>
        if PyStr.is_empty summary then score
        else
          let summary_lower := PyStr.lower summary in
          fold_left (fun score term =>
                       score + Qnat (PyStr.count term summary_lower) * 1.0)
                    query_terms score
    | None => score
    end in
  let score :=
    match d_content document with
    | Some content =>
        if PyStr.is_empty content then score
        else
          let content_lower := PyStr.lower content in
          fold_left (fun score term =>
                       score + py_min (Qnat (PyStr.count term content_lower) * 0.1) 1.0)
                    query_terms score
    | None => score
    end in
  score.

Definition keyword_result (query : string) (doc : Document) (score : Q) : SearchResult :=
  {| document := doc; score := score; search_type := "keyword";
     highlights := _extract_highlights doc query;
     search_methods := None; matched_concepts := None |}.

(** The candidate rows of [_keyword_search]: completed documents that pass
    the filters and contain every query term in title, content or summary,
    cut to [2 * limit] rows. *)
Definition keyword_candidates (db : Db) (query : string)
           (filters : option Filters) (limit : Z) : list Document :=
  let search_terms := PyStr.split (PyStr.lower query) in
  sql_limit (limit * 2)
    (List.filter
       (fun d =>
          completed d && passes db filters d
          && forallb (fun term => ilike (d_title d) term
                                  || ilike (d_content d) term
                                  || ilike (d_summary d) term)
                     search_terms)
       (documents db)).

(** The dictionary filled by the loop over [enumerate(self.doc_ids)];
    [None] when [similarities[i]] is out of range. *)
Definition doc_similarities (ids : list Z) (similarities : list Q) : option (gmap Z Q) :=
  if (length ids <=? length similarities)%nat
  then Some (fold_left (fun m p => <[ fst p := snd p ]> m) (zip ids similarities) ∅)
  else None.

(** The [try] block of [_keyword_search]; [None] stands for an exception,
    which can come from the vectorizer, from [cosine_similarity] or from
    [similarities[i]], all before the first result is appended. *)
Definition tfidf_ranking (e : t) (vectorizer : Vectorizer) (matrix : Matrix)
           (documents : list Document) (query : string) : option (list SearchResult) :=
  match tfidf_similarities vectorizer matrix query with
  | None => None
  | Some similarities =>
      match doc_similarities (doc_ids e) similarities with
      | None => None
      | Some sims =>
          Some (flat_map
                  (fun doc =>
                     let similarity := default 0 (sims !! d_id doc) in
                     if Qlt_le_dec 0.01 similarity
                     then [keyword_result query doc similarity]
                     else [])
                  documents)
      end
  end.

Definition simple_ranking (documents : list Document) (query : string) : list SearchResult :=
  map (fun doc => keyword_result query doc (_calculate_simple_relevance doc query))
      documents.

Definition _keyword_search (e : t) (db : Db) (query : string)
           (filters : option Filters) (limit : Z) : list SearchResult :=
  let documents := keyword_candidates db query filters limit in
  let results :=
    match tfidf_vectorizer e, tfidf_matrix e with
    | Some vectorizer, Some matrix =>
        match tfidf_ranking e vectorizer matrix documents query with
        | Some results => results
        | None => simple_ranking documents query
        end
    | _, _ => simple_ranking documents query
    end in
  sorted_desc score results.

Definition _semantic_search (e : t) (db : Db) (query : string)
           (filters : option Filters) (limit : Z) : list SearchResult :=
  match embedding_model e, document_embeddings e with
  | None, _ => []
  | _, [] => []
  | Some model, _ :: _ =>
      let results :=
        match encode model query with
        | None => []
        | Some query_embedding =>
            let similarities :=
              map (fun p => (fst p, cosine_similarity query_embedding (snd p)))
                  (document_embeddings e) in
            let similarities := sorted_desc snd similarities in
            let top_doc_ids :=
              map fst (List.filter (fun p => if Qlt_le_dec 0.1 (snd p) then true else false)
                                   (py_slice_to (limit * 2) similarities)) in
            match top_doc_ids with
            | [] => []
            | _ =>
                let documents :=
                  List.filter (fun d => existsb (Z.eqb (d_id d)) top_doc_ids
                                        && passes db filters d)
                              (documents db) in
                let sims := dict_of similarities in
                map (fun doc =>
                       {| document := doc;
                          score := dict_get (d_id doc) 0 sims;
                          search_type := "semantic";
                          highlights := _extract_highlights doc query;
                          search_methods := None; matched_concepts := None |})
                    documents
            end
        end in
      sorted_desc score results
  end.

Definition sum_Q (l : list Q) : Q := fold_right Qplus 0 l.

(** The rows of the grouped query are read as the code reads tuples:
    document, number of matching links, their average relevance. *)
Definition _concept_search (db : Db) (query : string)
           (filters : option Filters) (limit : Z) : list SearchResult :=
  let concept_query :=
    List.filter (fun c => ilike (Some (c_name c)) query
                          || ilike (Some (c_description c)) query)
                (concepts db) in
  match concept_query with
  | [] => []
  | _ =>
      let concept_ids := map c_id concept_query in
      let rows :=
        flat_map
          (fun doc =>
             let links :=
               List.filter (fun l => Z.eqb (dc_document_id l) (d_id doc)
                                     && existsb (Z.eqb (dc_concept_id l)) concept_ids)
                           (document_concepts db) in
             match links with
             | [] => []
             | _ =>
                 if completed doc && passes db filters doc
                 then [(doc, length links,
                        sum_Q (map dc_relevance_score links) / Qnat (length links))]
                 else []
             end)
          (documents db) in
      let rows := sql_limit limit (sorted_desc (fun r => Qnat (snd (fst r))) rows) in
      let results :=
        map (fun r =>
               let '(doc, concept_matches, avg_relevance) := r in
               {| document := doc;
                  score := (Qnat concept_matches * avg_relevance) / Qnat (length concept_ids);
                  search_type := "concept";
                  highlights := _extract_concept_highlights doc concept_query;
                  search_methods := None;
                  matched_concepts := Some (Z.of_nat concept_matches) |})
            rows in
      sorted_desc score results
  end.

(** The weight table of [_merge_search_results] with its default. *)
Definition weight (search_type : string) : Q :=
  if String.eqb search_type "keyword" then 0.4
  else if String.eqb search_type "semantic" then 0.4
  else if String.eqb search_type "concept" then 0.2
  else 0.3.

(** [doc_results[doc_id].append(result)] on the [defaultdict(list)], kept
    in the order in which the keys were first seen. *)
Fixpoint group_append (doc_id : Z) (result : SearchResult)
         (groups : list (Z * list SearchResult)) : list (Z * list SearchResult) :=
  match groups with
  | [] => [(doc_id, [result])]
  | (k, rs) :: groups' =>
      if Z.eqb k doc_id then (k, rs ++ [result]) :: groups'
      else (k, rs) :: group_append doc_id result groups'
  end.

Definition group_by_document (results : list SearchResult) : list (Z * list SearchResult) :=
  fold_left (fun groups result => group_append (d_id (document result)) result groups)
            results [].

(** The [else] branch for one document found more than once.
    [list(set(search_types))] is listed here in order of first
    occurrence; Python leaves the order of a set open. *)
Definition combine (doc_result_list : list SearchResult) : list SearchResult :=
  match doc_result_list with
  | [] => []
  | first :: _ =>
      let combined_score :=
        fold_left (fun combined_score result =>
                     combined_score + score result * weight (search_type result))
                  doc_result_list 0 in
      let search_types := map search_type doc_result_list in
      let all_highlights := flat_map highlights doc_result_list in
      let method_bonus := Qnat (size (list_to_set search_types : gset string)) * 0.1 in
      let combined_score := combined_score + method_bonus in
      [ {| document := document first;
           score := combined_score;
           search_type := "hybrid";
           search_methods := Some (remove_dups search_types);
           highlights := take 5 all_highlights;
           matched_concepts := None |} ]
  end.

Definition merge_group (doc_result_list : list SearchResult) : list SearchResult :=
  match doc_result_list with
  | [single] => [single]
  | _ => combine doc_result_list
  end.

Definition _merge_search_results (results : list SearchResult) (search_type : string)
  : list SearchResult :=
  if negb (String.eqb search_type "hybrid") then results
  else
    let doc_results := group_by_document results in
    let merged_results := flat_map (fun g => merge_group (snd g)) doc_results in
    sorted_desc score merged_results.

(** [search_documents] also reports which retrievers it called, in call
    order. *)
Definition search_documents (e : t) (db : Db) (query : string) (search_type : string)
           (filters : option Filters) (limit : Z) : list retriever * list SearchResult :=
  if PyStr.is_empty (PyStr.strip query) then ([], [])
  else
    let '(calls, results) := ([], []) in
    let '(calls, results) :=
      if str_in search_type ["keyword"; "hybrid"]
      then (calls ++ [Keyword], results ++ _keyword_search e db query filters limit)
      else (calls, results) in
    let '(calls, results) :=
      if str_in search_type ["semantic"; "hybrid"] && bool_decide (is_Some (embedding_model e))
      then (calls ++ [Semantic], results ++ _semantic_search e db query filters limit)
      else (calls, results) in
    let '(calls, results) :=
      if str_in search_type ["concept"; "hybrid"]
      then (calls ++ [ConceptMode], results ++ _concept_search db query filters limit)
      else (calls, results) in
    let merged_results := _merge_search_results results search_type in
    (calls, py_slice_to limit merged_results).

End Engine.
End SearchEngine.

(** ** [backend/api/search.py]: the search endpoint *)

Module SearchApi.
Section Api.

Context `{External}.

(** The query parameters of the request, after Flask's own conversion
    ([type=int] turns an unreadable number into the default). *)
Record Args := {
  a_q : option string;
  a_type : option string;
  a_limit : option Z;
  a_file_type : option string;
  a_start_date : option string;
  a_end_date : option string;
  a_concepts : option string;
  a_min_words : option Z;
  a_max_words : option Z
}.

Inductive response :=
| Ok200 (results : list SearchResult)
| BadRequest400
| InternalError500.

Inductive event :=
| EngineBuilt
| Called (r : retriever).

(** [if v:] for an optional text parameter *)
Definition given (v : option string) : option string :=
  match v with
  | Some s => if PyStr.is_empty s then None else Some s
  | None => None
  end.

(** [if v:] for an optional integer parameter *)
Definition nonzero (v : option Z) : option Z :=
  match v with
  | Some i => if Z.eqb i 0 then None else Some i
  | None => None
  end.

(** The date-range entry; the outer [None] stands for the [ValueError]
    of [fromisoformat]. *)
Definition parse_date_range (a : Args) : option (option (option Z * option Z)) :=
  match given (a_start_date a), given (a_end_date a) with
  | None, None => Some None
  | start_date, end_date =>
      match start_date with
      | Some sd =>
          match fromisoformat sd with
          | None => None
          | Some s =>
              match end_date with
              | Some ed =>
                  match fromisoformat ed with
                  | None => None
                  | Some e => Some (Some (Some s, Some e))
                  end
              | None => Some (Some (Some s, None))
              end
          end
      | None =>
          match end_date with
          | Some ed =>
              match fromisoformat ed with
              | None => None
              | Some e => Some (Some (None, Some e))
              end
          | None => Some (Some (None, None))
          end
      end
  end.

(** The block that fills [filters]; [None] when it raises. *)
Definition parse_filters (a : Args) : option Filters :=
  match parse_date_range a with
  | None => None
  | Some date_range =>
      Some {| f_file_type := given (a_file_type a);
              f_date_range := date_range;
              f_concepts :=
                match given (a_concepts a) with
                | Some cs => parse_concept_ids cs
                | None => None
                end;
              f_min_word_count := nonzero (a_min_words a);
              f_max_word_count := nonzero (a_max_words a) |}
  end.

(** [get_search_engine()]: the module-level engine, built on first use. *)
Definition get_search_engine (loaded_model : option Model) (db : Db)
           (search_engine : option SearchEngine.t) : option SearchEngine.t * list event :=
  match search_engine with
  | Some e => (Some e, [])
  | None =>
      (SearchEngine.build_search_index loaded_model db, [EngineBuilt])
  end.

(** The handler of [GET /api/search/].  It returns the response, the
    module-level engine afterwards, and what was run.  Any exception of
    the [try] block ends in the 500 answer. *)
Definition search_documents (loaded_model : option Model) (db : Db)
           (search_engine : option SearchEngine.t) (a : Args)
  : response * option SearchEngine.t * list event :=
  let query := PyStr.strip (default "" (a_q a)) in
  let search_type := default "hybrid" (a_type a) in
  let limit := default 20%Z (a_limit a) in
  match parse_filters a with
  | None => (InternalError500, search_engine, [])
  | Some filters =>
      if PyStr.is_empty query then (BadRequest400, search_engine, [])
      else
        match get_search_engine loaded_model db search_engine with
        | (None, events) => (InternalError500, search_engine, events)
        | (Some e, events) =>
            let '(calls, results) :=
              SearchEngine.search_documents e db query search_type (Some filters) limit in
            (Ok200 results, Some e, events ++ map Called calls)
        end
  end.

End Api.
End SearchApi.

(** ** The specification's wording of the concept graph rules

    These definitions follow the prose of the specification, not the code;
    the properties below compare the two. *)

Module Spec.

(** [t] occurs in [s]. *)
Definition has_substring (t s : string) : Prop :=
  exists a b, s = a +:+ t +:+ b.

(** classifyRelation: the rules in strict order, each guarded by the
    failure of the rules before it. *)
Inductive classifyRelation (c1 c2 : Concept) (similarity : Q) : string -> Prop :=
| classify_synonym :
    0.8 < similarity ->
    classifyRelation c1 c2 similarity "synonym"
| classify_same_category :
    ~ 0.8 < similarity ->
    c_category c1 = c_category c2 ->
    classifyRelation c1 c2 similarity "related"
| classify_design :
    ~ 0.8 < similarity ->
    c_category c1 <> c_category c2 ->
    has_substring "design" (c_name c1) /\ has_substring "design" (c_name c2) ->
    classifyRelation c1 c2 similarity "related"
| classify_similar :
    ~ 0.8 < similarity ->
    c_category c1 <> c_category c2 ->
    ~ (has_substring "design" (c_name c1) /\ has_substring "design" (c_name c2)) ->
    0.6 < similarity ->
    classifyRelation c1 c2 similarity "related"
| classify_weak :
    ~ 0.8 < similarity ->
    c_category c1 <> c_category c2 ->
    ~ (has_substring "design" (c_name c1) /\ has_substring "design" (c_name c2)) ->
    ~ 0.6 < similarity ->
    classifyRelation c1 c2 similarity "weak_relation".

(** Jaccard similarity of two word sets. *)
Definition jaccard (A B : gset string) : Q :=
  if decide (A ∪ B = ∅) then 0
  else Qnat (size (A ∩ B)) / Qnat (size (A ∪ B)).

(** Document co-occurrence ratio, 0 when no document is shared. *)
Definition co_occurrence (D1 D2 : gset Z) : Q :=
  if decide (D1 ∩ D2 = ∅) then 0
  else Qnat (size (D1 ∩ D2)) / Qnat (Nat.max (size D1) (size D2)).

Definition tokens (name : string) : gset string :=
  list_to_set (PyStr.split (PyStr.lower name)).

Definition docs (db : Db) (c : Concept) : gset Z :=
  list_to_set (concept_documents db (c_id c)).

(** similarity(c1, c2) *)
Definition similarity (db : Db) (c1 c2 : Concept) : Q :=
  Qmin (jaccard (tokens (c_name c1)) (tokens (c_name c2)) * 0.4
        + (if decide (c_category c1 = c_category c2) then 0.3 else 0)
        + co_occurrence (docs db c1) (docs db c2) * 0.3)
       1.

(** The unordered pair of concept ids a relation joins. *)
Definition pair_key (r : ConceptRelation) : Z * Z :=
  (Z.min (concept1_id r) (concept2_id r), Z.max (concept1_id r) (concept2_id r)).

(** [r] joins [a] and [b], in either orientation. *)
Definition joins (r : ConceptRelation) (a b : Z) : Prop :=
  (concept1_id r = a /\ concept2_id r = b) \/ (concept1_id r = b /\ concept2_id r = a).

Definition related (rels : list ConceptRelation) (a b : Z) : Prop :=
  exists r, In r rels /\ joins r a b.

(** Invariant of the relation table: at most one relation per unordered
    pair, and no relation from a concept to itself. *)
Definition relation_invariant (rels : list ConceptRelation) : Prop :=
  NoDup (map pair_key rels)
  /\ Forall (fun r => concept1_id r <> concept2_id r) rels.

(** Number of occurrences of a query term in a text column, compared in
    lower case; an absent column has none. *)
Definition occurrences (term : string) (text : option string) : nat :=
  match text with
  | Some s => PyStr.count term (PyStr.lower s)
  | None => 0%nat
  end.

(** Fallback lexical score, term by term: 2.0 for a term found in the
    title, 1.0 per occurrence in the summary, 0.1 per occurrence in the
    content capped at 1.0. *)
Definition title_score (d : Document) (term : string) : Q :=
  if (0 <? occurrences term (d_title d))%nat then 2.0 else 0.

Definition summary_score (d : Document) (term : string) : Q :=
  Qnat (occurrences term (d_summary d)) * 1.0.

Definition content_score (d : Document) (term : string) : Q :=
  Qmin (Qnat (occurrences term (d_content d)) * 0.1) 1.0.

Definition total (l : list Q) : Q := fold_right Qplus 0 l.

Definition lexical_score (d : Document) (terms : list string) : Q :=
  total (map (title_score d) terms)
  + total (map (summary_score d) terms)
  + total (map (content_score d) terms).

(** The results that report document [d]. *)
Definition doc_is (d : Z) (r : SearchResult) : bool := Z.eqb (d_id (document r)) d.

End Spec.

(** ** Reading the groups of [_merge_search_results] *)

Module Grouping.

(** The group stored under a key of the [defaultdict]. *)
Definition group_of (k : Z) (groups : list (Z * list SearchResult)) : list SearchResult :=
  match List.find (fun g => Z.eqb (fst g) k) groups with
  | Some g => snd g
  | None => []
  end.

Definition well_grouped (groups : list (Z * list SearchResult)) : Prop :=
  NoDup (map fst groups)
  /\ Forall (fun g => snd g <> [] /\ Forall (fun r => d_id (document r) = fst g) (snd g))
            groups.

End Grouping.

(** ** The example of the specification: two concepts of one category that
    share two of their three documents *)

Module Example.

Definition concept_a : Concept :=
  {| c_id := 1; c_name := "user interface"; c_description := "";
     c_category := "interaction_design"; c_frequency := 1 |}.

Definition concept_b : Concept :=
  {| c_id := 2; c_name := "interface design"; c_description := "";
     c_category := "interaction_design"; c_frequency := 1 |}.

Definition link (d c : Z) : DocumentConcept :=
  {| dc_document_id := d; dc_concept_id := c;
     dc_relevance_score := 0.9; dc_context := "" |}.

Definition db : Db :=
  {| documents := [];
     concepts := [concept_a; concept_b];
     document_concepts := [link 1 1; link 2 1; link 3 1; link 2 2; link 3 2; link 4 2];
     concept_relations := [] |}.

Definition concept_c : Concept :=
  {| c_id := 3; c_name := "usability"; c_description := "";
     c_category := "usability"; c_frequency := 1 |}.

Definition relation (a b : Z) : ConceptRelation :=
  {| concept1_id := a; concept2_id := b; relation_type := "related"; strength := 0.5 |}.

(** Both [concept_a] and [concept_b] are related to [concept_c]. *)
Definition db_common_neighbour : Db :=
  {| documents := [];
     concepts := [concept_a; concept_b; concept_c];
     document_concepts := [];
     concept_relations := [relation 1 3; relation 2 3] |}.

(** [concept_a] and [concept_b] are related to each other. *)
Definition db_related_pair : Db :=
  {| documents := [];
     concepts := [concept_a; concept_b; concept_c];
     document_concepts := [];
     concept_relations := [relation 1 2] |}.

(** Only [concept_b] has a relation, with [concept_c]. *)
Definition db_one_relation : Db :=
  {| documents := [];
     concepts := [concept_a; concept_b; concept_c];
     document_concepts := [link 1 1; link 2 2];
     concept_relations := [relation 2 3] |}.

(** A registry with the one concept "ui", seen once, and two sightings:
    one spelled the same, one in capitals. *)
Definition concept_ui : Concept :=
  {| c_id := 1; c_name := "ui"; c_description := "";
     c_category := "interaction_design"; c_frequency := 1 |}.

Definition db_ui : Db :=
  {| documents := []; concepts := [concept_ui];
     document_concepts := []; concept_relations := [] |}.

Definition sighting_ui : ConceptAnalyzer.ConceptData :=
  {| ConceptAnalyzer.cd_name := "ui";
     ConceptAnalyzer.cd_category := "interaction_design";
     ConceptAnalyzer.cd_context := "the ui of the tool";
     ConceptAnalyzer.cd_confidence := 0.9 |}.

Definition sighting_UI : ConceptAnalyzer.ConceptData :=
  {| ConceptAnalyzer.cd_name := "UI";
     ConceptAnalyzer.cd_category := "interaction_design";
     ConceptAnalyzer.cd_context := "the UI of the tool";
     ConceptAnalyzer.cd_confidence := 0.9 |}.

(** Documents for the fallback score. *)
Fixpoint repeat_text (n : nat) (s : string) : string :=
  match n with
  | O => EmptyString
  | S k => s +:+ repeat_text k s
  end.

Definition make_document (i : Z) (title summary content : option string) : Document :=
  {| d_id := i; d_file_type := "pdf"; d_title := title; d_content := content;
     d_summary := summary; d_word_count := Some 100%Z; d_upload_date := 0;
     d_processing_status := "completed" |}.

Definition doc_short : Document :=
  make_document 1 None (Some "Usability") (Some "usability of forms. Usability!").

Definition doc_long : Document :=
  make_document 2 (Some "Usability testing") (Some "usability, usability")
           (Some "usability of forms. Usability! More usability testing").

Definition doc_10 : Document :=
  make_document 3 None None (Some (repeat_text 10 "usability ")).

Definition doc_50 : Document :=
  make_document 4 None None (Some (repeat_text 50 "usability ")).

(** One document found by the keyword retriever with score 0.5 and by the
    concept retriever with score 0.3, and one found by the keyword
    retriever alone. *)
Definition result (doc : Document) (sc : Q) (mode : string) : SearchResult :=
  {| document := doc; score := sc; search_type := mode; highlights := [];
     search_methods := None; matched_concepts := None |}.

Definition hybrid_results : list SearchResult :=
  [ result doc_short 0.5 "keyword";
    result doc_long 0.5 "keyword";
    result doc_short 0.3 "concept" ].

(** A stand-in for the outside world, to run the engine on examples: the
    term matrix is the corpus itself, a document is similar to a query
    (0.5) when it contains it, and [LIKE] is containment in lower case. *)
Definition external : External :=
  {| Vectorizer := unit;
     Matrix := list string;
     Model := unit;
     Embedding := Q;
     fit_transform := fun corpus => Some (tt, corpus);
     tfidf_similarities := fun _ matrix query =>
       Some (map (fun text =>
                    if PyStr.contains (PyStr.lower query) (PyStr.lower text)
                    then 0.5 else 0)
                 matrix);
     encode := fun _ text => Some (Qnat (String.length text));
     cosine_similarity := fun a b => if Qeq_bool a b then 1 else 0.5;
     ilike := fun text needle =>
       match text with
       | Some t => PyStr.contains (PyStr.lower needle) (PyStr.lower t)
       | None => false
       end;
     _extract_highlights := fun _ _ => [];
     _extract_concept_highlights := fun _ _ => [];
     fromisoformat := fun _ => None;
     parse_concept_ids := fun _ => None |}.

(** The store when the index was built, and after one more document was
    completed. *)
Definition db_at_build : Db :=
  {| documents := [doc_short]; concepts := [];
     document_concepts := []; concept_relations := [] |}.

Definition db_later : Db :=
  {| documents := [doc_short; doc_long]; concepts := [];
     document_concepts := []; concept_relations := [] |}.

Definition engine : @SearchEngine.t external :=
  @SearchEngine.Build_t external
    None (Some tt) (Some ["usability of forms. Usability!"]) [1%Z] [].


Definition usability_request : @SearchApi.Args :=
  {| SearchApi.a_q := Some " usability ";
     SearchApi.a_type := None;
     SearchApi.a_limit := None;
     SearchApi.a_file_type := None;
     SearchApi.a_start_date := None;
     SearchApi.a_end_date := None;
     SearchApi.a_concepts := None;
     SearchApi.a_min_words := None;
     SearchApi.a_max_words := None |}.

End Example.

(** * Further parts of the code *)

From Stdlib Require Import Sorted.

(** ** Reading ranked lists *)

Module Ranking.

(** The list is in descending order of [key]. *)
Definition descending {A} (key : A -> Q) (l : list A) : Prop :=
  StronglySorted (fun a b => key b <= key a) l.

(** The entries whose key equals [q], in list order. *)
Definition with_key {A} (key : A -> Q) (q : Q) (l : list A) : list A :=
  List.filter (fun a => Qeq_bool (key a) q) l.

(** The document ids of a result list, in order. *)
Definition doc_ids_of (l : list SearchResult) : list Z :=
  map (fun r => d_id (document r)) l.

End Ranking.

(** ** The two queries inside [_concept_search], named *)

Module ConceptSearchParts.
Section Parts.
Context `{External}.

(** The concepts whose name or description matches the query. *)
Definition matched_concepts_of (db : Db) (query : string) : list Concept :=
  List.filter (fun c => ilike (Some (c_name c)) query
                        || ilike (Some (c_description c)) query)
              (concepts db).

(** The links of one document to the matched concepts. *)
Definition matched_links (db : Db) (query : string) (doc : Document) : list DocumentConcept :=
  List.filter (fun l => Z.eqb (dc_document_id l) (d_id doc)
                        && existsb (Z.eqb (dc_concept_id l))
                                   (map c_id (matched_concepts_of db query)))
              (document_concepts db).

End Parts.
End ConceptSearchParts.

(** ** [ConceptAnalyzer._deduplicate_concepts] *)

Module Deduplication.
Import ConceptAnalyzer.

(** The terms skipped as too common. *)
Definition common_terms : list string :=
  ["the"; "and"; "for"; "with"; "this"; "that"].

(** [d[name] = c] on a dictionary kept in insertion order. *)
Fixpoint name_dict_set (name : string) (c : ConceptData)
         (d : list (string * ConceptData)) : list (string * ConceptData) :=
  match d with
  | [] => [(name, c)]
  | (n, k) :: d' =>
      if String.eqb n name then (name, c) :: d' else (n, k) :: name_dict_set name c d'
  end.

(** [d[name]] when [name in d] *)
Definition name_dict_get (name : string) (d : list (string * ConceptData))
  : option ConceptData :=
  option_map snd (List.find (fun p => String.eqb (fst p) name) d).

(** [concept['name'].strip().lower()] *)
Definition normalized (c : ConceptData) : string :=
  PyStr.lower (PyStr.strip (cd_name c)).

(** The test that lets a sighting through. *)
Definition acceptable (c : ConceptData) : bool :=
  negb ((String.length (normalized c) <? 3)%nat || str_in (normalized c) common_terms).

(** The body of the loop over [concepts]. *)
Definition dedup_step (unique_concepts : list (string * ConceptData)) (concept : ConceptData)
  : list (string * ConceptData) :=
  let name := normalized concept in
  if (String.length name <? 3)%nat || str_in name common_terms
  then unique_concepts
  else
    match name_dict_get name unique_concepts with
    | Some kept =>
        if Qlt_le_dec (cd_confidence kept) (cd_confidence concept)
        then name_dict_set name concept unique_concepts
        else unique_concepts
    | None => name_dict_set name concept unique_concepts
    end.

Definition _deduplicate_concepts (concepts : list ConceptData) : list ConceptData :=
  let unique_concepts := fold_left dedup_step concepts [] in
  map snd unique_concepts.

(** What holds of the dictionary after the sightings [seen]. *)
Definition deduplicated (d : list (string * ConceptData)) (seen : list ConceptData) : Prop :=
  NoDup (map fst d)
  /\ (forall n k, In (n, k) d -> n = normalized k /\ In k seen /\ acceptable k = true)
  /\ (forall c, In c seen -> acceptable c = true ->
                exists k, In (normalized c, k) d /\ cd_confidence c <= cd_confidence k).

End Deduplication.

(** ** Invariants of the concept registry *)

Module RegistryInvariant.

Definition link_key (l : DocumentConcept) : Z * Z := (dc_document_id l, dc_concept_id l).

(** The keys of the tables are keys: concept ids, concept names, and the
    (document, concept) pairs of the association table. *)
Definition registry_ok (db : Db) : Prop :=
  NoDup (map c_id (concepts db))
  /\ NoDup (map c_name (concepts db))
  /\ NoDup (map link_key (document_concepts db)).

(** [db'] still has every concept of [db], under the same id and name and
    with a frequency that is not lower, and every link of [db]. *)
Definition extends (db db' : Db) : Prop :=
  (forall c, In c (concepts db) ->
             exists c', In c' (concepts db')
                        /\ c_id c' = c_id c /\ c_name c' = c_name c
                        /\ (c_frequency c <= c_frequency c')%Z)
  /\ (forall l, In l (document_concepts db) -> In l (document_concepts db')).

(** The sighting is stored: a concept of that name has the id, and the
    document is linked to it. *)
Definition stored (db : Db) (document_id : Z) (cd : ConceptAnalyzer.ConceptData) (i : Z)
  : Prop :=
  (exists c, In c (concepts db) /\ c_id c = i /\ c_name c = ConceptAnalyzer.cd_name cd)
  /\ In (document_id, i) (map link_key (document_concepts db)).

End RegistryInvariant.

(** ** What the merge endpoint keeps *)

Module MergeInvariant.

(** The sum of the frequencies of all concepts. *)
Definition total_frequency (cs : list Concept) : Z :=
  fold_right Z.add 0%Z (map c_frequency cs).

(** The concept named by a JSON id, if the id is given and names one. *)
Definition named_by (v : option Z) (c : Concept) : bool :=
  match v with
  | Some i => Z.eqb (c_id c) i
  | None => false
  end.

Definition links_of (v : option Z) (l : DocumentConcept) : bool :=
  match v with
  | Some i => Z.eqb (dc_concept_id l) i
  | None => false
  end.

End MergeInvariant.

(** ** The concept graph: [build_concept_graph] and [GET /api/concepts/graph] *)

Module ConceptGraph.

Record Node := {
  n_id : Z;
  n_name : string;
  n_category : string;
  n_frequency : Z;
  n_size : Z
}.

Record Edge := {
  e_source : Z;
  e_target : Z;
  e_type : string;
  e_strength : Q;
  e_width : Q
}.

Record Graph := {
  nodes : list Node;
  edges : list Edge
}.

Definition node_of (concept : Concept) : Node :=
  {| n_id := c_id concept;
     n_name := c_name concept;
     n_category := c_category concept;
     n_frequency := c_frequency concept;
     n_size := Z.min (c_frequency concept * 2) 20 |}.

Definition edge_of (relation : ConceptRelation) : Edge :=
  {| e_source := concept1_id relation;
     e_target := concept2_id relation;
     e_type := relation_type relation;
     e_strength := strength relation;
     e_width := strength relation * 5 |}.

(** [ConceptAnalyzer.build_concept_graph] *)
Definition build_concept_graph (db : Db) (min_strength : Q) : Graph :=
  let concepts := concepts db in
  let relations :=
    List.filter (fun r => Qle_bool min_strength (strength r)) (concept_relations db) in
  {| nodes := map node_of concepts;
     edges := map edge_of relations |}.

(** The handler of [GET /api/concepts/graph]; [category] is the query
    parameter, [None] when absent. *)
Definition get_concept_graph (db : Db) (min_strength : Q) (category : option string)
  : Graph :=
  let graph := build_concept_graph db min_strength in
  if PyStr.truthy category
  then
    let category_nodes :=
      List.filter (fun node => String.eqb (n_category node) (default "" category))
                  (nodes graph) in
    let category_node_ids : gset Z := list_to_set (map n_id category_nodes) in
    let category_edges :=
      List.filter (fun edge => bool_decide (e_source edge ∈ category_node_ids)
                               && bool_decide (e_target edge ∈ category_node_ids))
                  (edges graph) in
    {| nodes := category_nodes; edges := category_edges |}
  else graph.

(** Some concept of the category has this id. *)
Definition in_category (db : Db) (category : string) (i : Z) : Prop :=
  exists c, In c (concepts db) /\ c_id c = i /\ c_category c = category.

End ConceptGraph.

(** ** Query suggestions: [suggest_query_completions] and
    [GET /api/search/suggestions] *)

Module Suggestions.
Section Suggest.

Context `{External}.

(** [Concept.name.ilike(partial_query + '%')] as the database evaluates it *)
Variable ilike_prefix : string -> string -> bool.

Inductive Suggestion :=
| ConceptSuggestion (text : string) (frequency : Z)
| TitleSuggestion (text : option string) (document_id : Z).

Definition concept_suggestion (concept : Concept) : Suggestion :=
  ConceptSuggestion (c_name concept) (c_frequency concept).

Definition title_suggestion (doc : Document) : Suggestion :=
  TitleSuggestion (d_title doc) (d_id doc).

Definition is_title (s : Suggestion) : bool :=
  match s with
  | TitleSuggestion _ _ => true
  | ConceptSuggestion _ _ => false
  end.

Definition by_frequency (c : Concept) : Q := inject_Z (c_frequency c).

(** The concepts whose name starts with the text, and the completed
    documents whose title contains it, in table order. *)
Definition matching_concepts (db : Db) (partial_query : string) : list Concept :=
  List.filter (fun c => ilike_prefix (c_name c) partial_query) (concepts db).

Definition matching_documents (db : Db) (partial_query : string) : list Document :=
  List.filter (fun d => ilike (d_title d) partial_query && SearchEngine.completed d)
              (documents db).

(** [SearchEngine.suggest_query_completions]; it reads the database only.
    [ORDER BY frequency DESC] keeps concepts of equal frequency in table
    order. *)
Definition suggest_query_completions (db : Db) (partial_query : string) (limit : Z)
  : list Suggestion :=
  let suggestions := [] in
  if (String.length partial_query <? 2)%nat then suggestions
  else
    let concepts :=
      sql_limit limit (sorted_desc by_frequency (matching_concepts db partial_query)) in
    let suggestions := suggestions ++ map concept_suggestion concepts in
    let documents := sql_limit 5 (matching_documents db partial_query) in
    let suggestions := suggestions ++ map title_suggestion documents in
    py_slice_to limit suggestions.

Inductive suggestions_response :=
| Suggestions200 (suggestions : list Suggestion)
| SuggestionsError500.

(** The handler of [GET /api/search/suggestions]: the response, the
    module-level engine afterwards, and whether the engine was built. *)
Definition get_search_suggestions (loaded_model : option Model) (db : Db)
           (search_engine : option SearchEngine.t) (q : option string) (limit : option Z)
  : suggestions_response * option SearchEngine.t * list SearchApi.event :=
  let partial_query := PyStr.strip (default "" q) in
  let limit := default 10%Z limit in
  if (String.length partial_query <? 2)%nat
  then (Suggestions200 [], search_engine, [])
  else
    match SearchApi.get_search_engine loaded_model db search_engine with
    | (None, events) => (SuggestionsError500, search_engine, events)
    | (Some e, events) =>
        (Suggestions200 (suggest_query_completions db partial_query limit), Some e, events)
    end.

End Suggest.
End Suggestions.

(** ** [GET /api/search/similar] *)

Module SimilarApi.
Section Similar.

Context `{External}.

Inductive response :=
| Ok200 (document_id : Z) (similar_documents : list (Document * Q))
| BadRequest400
| InternalError500.

(** [Document.query.get(i)] *)
Definition get_document (db : Db) (i : Z) : option Document :=
  List.find (fun d => Z.eqb (d_id d) i) (documents db).

(** A nullable text column inside an f-string: [None] is printed as such. *)
Definition fstring (o : option string) : string := default "None" o.

Definition similarity_filters : Filters :=
  {| f_file_type := None; f_date_range := None; f_concepts := None;
     f_min_word_count := Some 50%Z; f_max_word_count := None |}.

(** The handler.  An entry of the answer is given as the document it
    describes and its [similarity_score].  [get_or_404] raises inside the
    [try] block, so a missing document ends in the 500 answer. *)
Definition find_similar_documents (loaded_model : option Model) (db : Db)
           (search_engine : option SearchEngine.t)
           (document_id : option Z) (limit : option Z)
  : response * option SearchEngine.t * list SearchApi.event :=
  let limit := default 5%Z limit in
  match SearchApi.nonzero document_id with
  | None => (BadRequest400, search_engine, [])
  | Some document_id =>
      match get_document db document_id with
      | None => (InternalError500, search_engine, [])
      | Some doc =>
          if negb (PyStr.truthy (d_content doc))
          then (BadRequest400, search_engine, [])
          else
            let query :=
              PyStr.strip (String.append (fstring (d_title doc))
                                         (String.append " " (fstring (d_summary doc)))) in
            let query :=
              if PyStr.is_empty query
              then PyStr.take 200 (default "" (d_content doc))
              else query in
            match SearchApi.get_search_engine loaded_model db search_engine with
            | (None, events) => (InternalError500, search_engine, events)
            | (Some e, events) =>
                let '(calls, results) :=
                  SearchEngine.search_documents e db query "semantic"
                                                (Some similarity_filters) (limit + 1) in
                let similar_docs :=
                  map (fun result => (document result, score result))
                      (List.filter
                         (fun result => negb (Z.eqb (d_id (document result)) document_id))
                         results) in
                (Ok200 document_id (py_slice_to limit similar_docs), Some e,
                 events ++ map SearchApi.Called calls)
            end
      end
  end.

End Similar.
End SimilarApi.

(** ** [backend/services/document_processor.py]: accepted file names *)

Module DocumentProcessor.

Definition allowed_extensions : list string :=
  ["pdf"; "docx"; "doc"; "txt"; "ppt"; "pptx"; "xls"; "xlsx"].

(** [filename.rsplit('.', 1)[1]]: the text after the last dot; [None]
    stands for the [IndexError] of a name without a dot. *)
Fixpoint after_last_dot (filename : string) : option string :=
  match filename with
  | EmptyString => None
  | String c rest =>
      match after_last_dot rest with
      | Some ext => Some ext
      | None => if Ascii.eqb c "." then Some rest else None
      end
  end.

Definition is_allowed_file (filename : string) : bool :=
  PyStr.contains "." filename
  && match after_last_dot filename with
     | Some ext => str_in (PyStr.lower ext) allowed_extensions
     | None => false
     end.

End DocumentProcessor.

(** ** Further examples *)

Module Example2.

(** An engine built over an empty store: no term index, no embeddings. *)
Definition engine_without_index : @SearchEngine.t Example.external :=
  @SearchEngine.Build_t Example.external None None None [] [].

(** The engine that [build_search_index] gives for [Example.db_later] when
    the sentence model is loaded. *)
Definition engine_with_model : @SearchEngine.t Example.external :=
  @SearchEngine.Build_t Example.external
    (Some tt) (Some tt)
    (Some ["usability of forms. Usability!";
           "usability of forms. Usability! More usability testing"])
    [1%Z; 2%Z] [(1%Z, Qnat 30); (2%Z, Qnat 53)].

(** A store with two concepts and three links. *)
Definition db_concepts : Db :=
  {| documents := documents Example.db_later;
     concepts := [Example.concept_c; Example.concept_ui];
     document_concepts := [Example.link 1 3; Example.link 2 3; Example.link 2 1];
     concept_relations := [] |}.

(** A sighting of a common term. *)
Definition sighting_the : ConceptAnalyzer.ConceptData :=
  {| ConceptAnalyzer.cd_name := " The ";
     ConceptAnalyzer.cd_category := "statistical";
     ConceptAnalyzer.cd_context := "";
     ConceptAnalyzer.cd_confidence := 0.8 |}.

Definition sighting (name : string) (confidence : Q) : ConceptAnalyzer.ConceptData :=
  {| ConceptAnalyzer.cd_name := name;
     ConceptAnalyzer.cd_category := "extracted";
     ConceptAnalyzer.cd_context := "";
     ConceptAnalyzer.cd_confidence := confidence |}.

Definition sighting_usability : ConceptAnalyzer.ConceptData := sighting "usability" 0.6.

Definition sightings : list ConceptAnalyzer.ConceptData :=
  [sighting_usability; sighting_the; sighting "mental model" 0.6;
   sighting " Usability" 0.9; sighting "ux" 0.9].

End Example2.

(** * Properties *)

(** ** Facts about the string primitives *)

Module PyStrFacts.
Import PyStr.

Lemma startswith_spec (t s : string) :
  startswith t s = true <-> exists b, s = t +:+ b.
Proof.
  revert s. induction t as [|a t IH]; intros s; simpl.
  - split; [intros _; exists s; reflexivity | reflexivity].
  - destruct s as [|c s]; simpl.
    + split; [discriminate | intros [b Hb]; discriminate].
    + rewrite andb_true_iff, Ascii.eqb_eq, IH. split.
      * intros [-> [b ->]]. exists b. reflexivity.
      * intros [b Hb]. injection Hb as -> ->. split; [reflexivity | exists b; reflexivity].
Qed.

(** [t in s] holds exactly when [s] is some text, then [t], then some text. *)
Lemma contains_spec (t s : string) :
  contains t s = true <-> exists a b, s = a +:+ t +:+ b.
Proof.
  induction s as [|c s IH]; simpl.
  - rewrite orb_false_r, startswith_spec. split.
    + intros [b Hb]. exists EmptyString, b. exact Hb.
    + intros [a [b Hab]]. destruct a; simpl in Hab; [exists b; exact Hab | discriminate].
  - rewrite orb_true_iff, startswith_spec, IH. split.
    + intros [[b Hb] | [a [b Hab]]].
      * exists EmptyString, b. exact Hb.
      * exists (String c a), b. simpl. rewrite Hab. reflexivity.
    + intros [a [b Hab]]. destruct a as [|c' a]; simpl in Hab.
      * left. exists b. exact Hab.
      * right. injection Hab as _ ->. exists a, b. reflexivity.
Qed.

(** For a non-empty [t], [t in s] says that [s.count(t)] is positive. *)
Lemma contains_count (t s : string) :
  t <> EmptyString -> contains t s = (0 <? count t s)%nat.
Proof.
  intros Ht. unfold count. induction s as [|c s IH]; simpl.
  - destruct t; [contradiction | reflexivity].
  - destruct t as [|a t]; [contradiction |].
    destruct (startswith (String a t) (String c s)) eqn:E; simpl.
    + reflexivity.
    + exact IH.
Qed.

Lemma append_nonempty (cur : string) (c : ascii) :
  cur +:+ String c EmptyString <> EmptyString.
Proof. destruct cur; discriminate. Qed.

Lemma split_go_nonempty (s cur tok : string) :
  In tok (split_go cur s) -> tok <> EmptyString.
Proof.
  revert cur. induction s as [|c s IH]; intros cur; simpl.
  - destruct cur; simpl; [tauto | intros [<- | []]; discriminate].
  - destruct (isspace c).
    + destruct cur; simpl.
      * apply IH.
      * intros [<- | H]; [discriminate | exact (IH _ H)].
    + apply IH.
Qed.

(** No token of [s.split()] is the empty string. *)
Lemma split_nonempty (s tok : string) : In tok (split s) -> tok <> EmptyString.
Proof. apply split_go_nonempty. Qed.






End PyStrFacts.

(** ** The concept graph: similarity and relation types *)

Module ConceptAnalyzerFacts.
Import ConceptAnalyzer.

Lemma py_min_Qmin (a b : Q) : a == b -> py_min a 1 == Qmin b 1.
Proof.
  intros Hab. unfold py_min. destruct (Qlt_le_dec 1 a) as [H | H].
  - rewrite Q.min_r; [reflexivity | lra].
  - rewrite Q.min_l; [exact Hab | lra].
Qed.

Lemma Qnat_0_div (q : Q) : Qnat 0 / q == 0.
Proof. unfold Qnat. simpl. unfold Qdiv. ring. Qed.

Lemma jaccard_code_spec (A B : gset string) :
  (if negb (bool_decide (A = ∅)) && negb (bool_decide (B = ∅))
   then 0 + Qnat (size (A ∩ B)) / Qnat (size (A ∪ B)) * 0.4
   else 0)
  == Spec.jaccard A B * 0.4.
Proof.
  unfold Spec.jaccard.
  destruct (decide (A ∪ B = ∅)) as [HU | HU].
  - assert (A = ∅) as -> by set_solver.
    rewrite bool_decide_eq_true_2 by reflexivity. simpl. ring.
  - destruct (bool_decide (A = ∅)) eqn:EA; simpl.
    + apply bool_decide_eq_true in EA as ->.
      rewrite intersection_empty_l_L, size_empty, Qnat_0_div. ring.
    + destruct (bool_decide (B = ∅)) eqn:EB; simpl.
      * apply bool_decide_eq_true in EB as ->.
        rewrite intersection_empty_r_L, size_empty, Qnat_0_div. ring.
      * ring.
Qed.

(** C5 (relation types).  The relation type computed by
    [_determine_relation_type] is the one the ordered rules give: above
    0.8 a synonym; otherwise related when the categories are equal;
    otherwise related when both names contain "design"; otherwise related
    above 0.6; otherwise a weak relation.  The first rule that applies
    decides, and no other type is ever returned. *)
Theorem determine_relation_type_rules (c1 c2 : Concept) (similarity : Q) (ty : string) :
  _determine_relation_type c1 c2 similarity = ty
  <-> Spec.classifyRelation c1 c2 similarity ty.
Proof.
  unfold _determine_relation_type.
  assert (Hdesign :
            PyStr.contains "design" (c_name c1) && PyStr.contains "design" (c_name c2) = true
            <-> Spec.has_substring "design" (c_name c1)
                /\ Spec.has_substring "design" (c_name c2)).
  { rewrite andb_true_iff, !PyStrFacts.contains_spec. reflexivity. }
  split.
  - intros <-.
    destruct (Qlt_le_dec 0.8 similarity) as [H8 | H8]; [now constructor |].
    assert (~ 0.8 < similarity) by lra.
    destruct (String.eqb_spec (c_category c1) (c_category c2)) as [Hc | Hc];
      [now constructor |].
    destruct (PyStr.contains "design" (c_name c1) && PyStr.contains "design" (c_name c2))
      eqn:Ed.
    + apply Spec.classify_design; [assumption .. | now apply Hdesign].
    + assert (~ (Spec.has_substring "design" (c_name c1)
                 /\ Spec.has_substring "design" (c_name c2))).
      { intros Hd. apply Hdesign in Hd. congruence. }
      destruct (Qlt_le_dec 0.6 similarity) as [H6 | H6].
      * now apply Spec.classify_similar.
      * apply Spec.classify_weak; [assumption .. | lra].
  - intros Hty.
    destruct Hty as [H8 | H8 Hc | H8 Hc Hd | H8 Hc Hd H6 | H8 Hc Hd H6].
    + destruct (Qlt_le_dec 0.8 similarity); [reflexivity | lra].
    + destruct (Qlt_le_dec 0.8 similarity); [contradiction |].
      rewrite Hc, String.eqb_refl. reflexivity.
    + destruct (Qlt_le_dec 0.8 similarity); [contradiction |].
      destruct (String.eqb_spec (c_category c1) (c_category c2)); [contradiction |].
      apply Hdesign in Hd. rewrite Hd. reflexivity.
    + destruct (Qlt_le_dec 0.8 similarity); [contradiction |].
      destruct (String.eqb_spec (c_category c1) (c_category c2)); [contradiction |].
      destruct (PyStr.contains "design" (c_name c1) && PyStr.contains "design" (c_name c2))
        eqn:Ed; [exfalso; apply Hd, Hdesign; reflexivity |].
      destruct (Qlt_le_dec 0.6 similarity); [reflexivity | lra].
    + destruct (Qlt_le_dec 0.8 similarity); [contradiction |].
      destruct (String.eqb_spec (c_category c1) (c_category c2)); [contradiction |].
      destruct (PyStr.contains "design" (c_name c1) && PyStr.contains "design" (c_name c2))
        eqn:Ed; [exfalso; apply Hd, Hdesign; reflexivity |].
      destruct (Qlt_le_dec 0.6 similarity); [contradiction | reflexivity].
Qed.

Lemma concept_similarity_spec (db : Db) (c1 c2 : Concept) :
  NoDup (concept_documents db (c_id c1)) ->
  NoDup (concept_documents db (c_id c2)) ->
  _calculate_concept_similarity db c1 c2 == Spec.similarity db c1 c2.
Proof.
  intros N1 N2.
  unfold _calculate_concept_similarity, Spec.similarity.
  apply py_min_Qmin. cbv zeta.
  pose proof (jaccard_code_spec (name_words (c_name c1)) (name_words (c_name c2))) as HJ.
  unfold Spec.co_occurrence, Spec.docs, Spec.tokens, document_id_set in *.
  fold (name_words (c_name c1)) (name_words (c_name c2)).
  rewrite !(size_list_to_set (C := gset Z)) by assumption.
  destruct (String.eqb_spec (c_category c1) (c_category c2)) as [Hc | Hc];
    destruct (decide (c_category c1 = c_category c2)); try contradiction;
    destruct (decide (_ ∩ _ = ∅)) as [He | He];
    [ rewrite (bool_decide_eq_true_2 _ He)
    | rewrite (bool_decide_eq_false_2 _ He)
    | rewrite (bool_decide_eq_true_2 _ He)
    | rewrite (bool_decide_eq_false_2 _ He) ];
    cbn [negb]; rewrite HJ; ring.
Qed.

(** C4 (concept similarity, as amended).  When no document is linked
    twice to the same concept, [_calculate_concept_similarity] is the
    Jaccard similarity of the lower-cased, whitespace-split names times
    0.4, plus 0.3 for equal categories, plus the co-occurrence ratio
    (shared documents over the larger document count, 0 without shared
    documents) times 0.3, capped at 1.  On the example pair of the
    specification the value is 19/30, about 0.6333. *)
Theorem concept_similarity_formula :
  (forall (db : Db) (c1 c2 : Concept),
      NoDup (concept_documents db (c_id c1)) ->
      NoDup (concept_documents db (c_id c2)) ->
      _calculate_concept_similarity db c1 c2 == Spec.similarity db c1 c2)
  /\ _calculate_concept_similarity Example.db Example.concept_a Example.concept_b
     == 19 # 30.
Proof.
  split.
  - exact concept_similarity_spec.
  - vm_compute. reflexivity.
Qed.

Lemma concept_similarity_formula_witness :
  NoDup (concept_documents Example.db (c_id Example.concept_a))
  /\ NoDup (concept_documents Example.db (c_id Example.concept_b))
  /\ _calculate_concept_similarity Example.db Example.concept_a Example.concept_b
     == Spec.similarity Example.db Example.concept_a Example.concept_b.
Proof.
  assert (N1 : NoDup (concept_documents Example.db (c_id Example.concept_a))).
  { refine (bool_decide_unpack _ _). vm_compute. exact I. }
  assert (N2 : NoDup (concept_documents Example.db (c_id Example.concept_b))).
  { refine (bool_decide_unpack _ _). vm_compute. exact I. }
  split; [exact N1 | split; [exact N2 |]].
  exact (proj1 concept_similarity_formula Example.db Example.concept_a Example.concept_b N1 N2).
Defined.

(** The value on the example pair is not the 0.6467 of the specification:
    it is off by more than 0.013. *)
Lemma concept_similarity_example_differs :
  0.013 < Qabs (_calculate_concept_similarity Example.db Example.concept_a Example.concept_b
                - 0.6467).
Proof. vm_compute. reflexivity. Qed.

End ConceptAnalyzerFacts.

(** ** The relation table under [find_concept_relations] and the merge *)

Module RelationFacts.
Import ConceptAnalyzer ConceptsApi Spec.

Lemma pair_key_eq (r1 r2 : ConceptRelation) :
  pair_key r1 = pair_key r2 <-> joins r1 (concept1_id r2) (concept2_id r2).
Proof.
  unfold pair_key, joins. split.
  - intros H. injection H as Hmin Hmax. lia.
  - intros H. f_equal; lia.
Qed.

Lemma NoDup_map_on {A B C} (f : A -> B) (g : A -> C) (l : list A) :
  (forall x y, In x l -> In y l -> f x = f y -> g x = g y) ->
  NoDup (map g l) -> NoDup (map f l).
Proof.
  induction l as [|a l IH]; intros Hinj Hnd; simpl in *.
  - constructor.
  - apply NoDup_cons in Hnd as [Ha Hnd]. apply NoDup_cons. split.
    + rewrite list_elem_of_In, in_map_iff. intros [y [Hy Hin]].
      apply Ha. rewrite list_elem_of_In, in_map_iff. exists y. split; [| exact Hin].
      symmetry. apply Hinj; auto.
    + apply IH; [| exact Hnd]. intros x y Hx Hy. apply Hinj; auto.
Qed.

Lemma get_concept_id (db : Db) (i : Z) (c : Concept) :
  get_concept db i = Some c -> c_id c = i /\ In c (concepts db).
Proof.
  unfold get_concept. intros H. apply find_some in H as [Hin Heq].
  apply Z.eqb_eq in Heq. auto.
Qed.

Lemma relation_exists_false (db : Db) (a b : Z) :
  relation_exists db a b = false ->
  forall r, In r (concept_relations db) -> ~ joins r a b.
Proof.
  unfold relation_exists. intros H r Hr Hj.
  assert (existsb
            (fun r => (Z.eqb (concept1_id r) a && Z.eqb (concept2_id r) b)
                      || (Z.eqb (concept1_id r) b && Z.eqb (concept2_id r) a))
            (concept_relations db) = true) as Ht; [| congruence].
  apply existsb_exists. exists r. split; [exact Hr |].
  destruct Hj as [[-> ->] | [-> ->]]; rewrite !Z.eqb_refl; simpl;
    [reflexivity | apply orb_true_r].
Qed.

(** What one pass of the loop of [find_concept_relations] can add. *)
Lemma relation_for_inv (db : Db) (thr : Q) (concept other : Concept) (r : ConceptRelation) :
  In r (relation_for db thr concept other) ->
  concept1_id r = c_id concept /\ concept2_id r = c_id other
  /\ relation_exists db (c_id concept) (c_id other) = false
  /\ thr < strength r.
Proof.
  unfold relation_for.
  destruct (Qlt_le_dec thr _) as [Hlt | Hle]; [| intros []].
  destruct (relation_exists db (c_id concept) (c_id other)) eqn:E; [intros [] |].
  intros [<- | []]. simpl. auto.
Qed.

Lemma new_relations_keys (db : Db) (thr : Q) (concept : Concept) (others : list Concept) :
  NoDup (map c_id others) ->
  Forall (fun o => c_id o <> c_id concept) others ->
  NoDup (map pair_key (flat_map (relation_for db thr concept) others)).
Proof.
  induction others as [|o others IH]; intros Hnd Hne; simpl.
  - constructor.
  - simpl in Hnd. apply NoDup_cons in Hnd as [Ho Hnd].
    apply Forall_cons in Hne as [Hone Hne].
    rewrite map_app. apply NoDup_app. split; [| split].
    + unfold relation_for.
      destruct (Qlt_le_dec thr _); [| constructor].
      destruct (relation_exists _ _ _); simpl; [constructor |].
      apply NoDup_singleton.
    + intros k Hk1 Hk2.
      apply list_elem_of_In, in_map_iff in Hk1 as [r1 [<- Hr1]].
      apply list_elem_of_In, in_map_iff in Hk2 as [r2 [Hk Hr2]].
      apply relation_for_inv in Hr1 as (Ha1 & Hb1 & _).
      apply in_flat_map in Hr2 as [o2 [Ho2 Hr2]].
      apply relation_for_inv in Hr2 as (Ha2 & Hb2 & _).
      apply Ho. apply list_elem_of_In, in_map_iff. exists o2. split; [| exact Ho2].
      apply pair_key_eq in Hk. unfold joins in Hk. lia.
    + apply IH; assumption.
Qed.

Lemma find_concept_relations_preserves (db : Db) (cid : Z) (thr : Q) :
  NoDup (map c_id (concepts db)) ->
  relation_invariant (concept_relations db) ->
  relation_invariant
    (concept_relations (add_relations db (find_concept_relations db cid thr))).
Proof.
  intros Hpk [Hnd Hself]. unfold add_relations, find_concept_relations. simpl.
  destruct (get_concept db cid) as [concept |] eqn:Hget.
  2:{ rewrite app_nil_r. split; assumption. }
  apply get_concept_id in Hget as [Hid _].
  set (others := List.filter (fun c => negb (Z.eqb (c_id c) cid)) (concepts db)).
  assert (Hothers : Forall (fun o => c_id o <> c_id concept) others).
  { apply Forall_forall. intros o Ho. apply list_elem_of_In, filter_In in Ho as [_ Ho].
    apply negb_true_iff, Z.eqb_neq in Ho. congruence. }
  assert (Hndo : NoDup (map c_id others)).
  { subst others. clear -Hpk. induction (concepts db) as [|c l IH]; simpl in *.
    - constructor.
    - apply NoDup_cons in Hpk as [Hc Hl].
      destruct (negb (Z.eqb (c_id c) cid)); simpl; [| auto].
      apply NoDup_cons. split; [| auto].
      intros Hin. apply Hc.
      apply list_elem_of_In, in_map_iff in Hin as [y [Hy Hin]].
      apply list_elem_of_In, in_map_iff. exists y. split; [exact Hy |].
      apply filter_In in Hin. tauto. }
  split.
  - rewrite map_app. apply NoDup_app. split; [exact Hnd | split].
    + intros k Hk1 Hk2.
      apply list_elem_of_In, in_map_iff in Hk1 as [r1 [<- Hr1]].
      apply list_elem_of_In, in_map_iff in Hk2 as [r2 [Hk Hr2]].
      apply in_flat_map in Hr2 as [o [Ho Hr2]].
      apply relation_for_inv in Hr2 as (Ha & Hb & Hex & _).
      apply (relation_exists_false _ _ _ Hex r1 Hr1).
      symmetry in Hk. apply pair_key_eq in Hk. rewrite Ha, Hb in Hk. exact Hk.
    + apply new_relations_keys; assumption.
  - apply Forall_app. split; [exact Hself |].
    apply Forall_forall. intros r Hr.
    apply list_elem_of_In, in_flat_map in Hr as [o [Ho Hr]].
    apply relation_for_inv in Hr as (Ha & Hb & _).
    rewrite Forall_forall in Hothers. specialize (Hothers o).
    rewrite Ha, Hb. intros Heq. apply Hothers; [apply list_elem_of_In; exact Ho | congruence].
Qed.

(** *** The merge *)

(** Closes a case of [repoint_key] in which the two relations would be
    a common neighbour of the merged concepts. *)
Ltac by_instance Hi Hkey :=
  exfalso; apply Hi;
  destruct Hkey as [[? ?] | [? ?]]; subst;
  (split; first [ left; split; congruence | right; split; congruence ]).

Lemma repoint_key (p s : Z) (r1 r2 : ConceptRelation) :
  concept1_id r1 <> concept2_id r1 ->
  concept1_id r2 <> concept2_id r2 ->
  ~ joins r1 p s -> ~ joins r2 p s ->
  (forall x, ~ (joins r1 p x /\ joins r2 s x)) ->
  (forall x, ~ (joins r2 p x /\ joins r1 s x)) ->
  pair_key (repoint p s r1) = pair_key (repoint p s r2) ->
  pair_key r1 = pair_key r2.
Proof.
  intros Hs1 Hs2 Hps1 Hps2 Hx Hy Hkey.
  apply pair_key_eq in Hkey. apply pair_key_eq.
  destruct r1 as [a1 b1 t1 w1], r2 as [a2 b2 t2 w2].
  unfold repoint, joins in *. simpl in *.
  destruct (Z.eqb_spec a1 s) as [-> | Ha1]; simpl in *.
  - (* r1 = (s, b1) *)
    destruct (Z.eqb_spec a2 s) as [-> | Ha2]; simpl in *.
    + clear Hx Hy. intuition congruence.
    + destruct (Z.eqb_spec b2 s) as [-> | Hb2]; simpl in *.
      * clear Hx Hy. intuition congruence.
      * pose proof (Hy b1) as Hi. clear Hx Hy. by_instance Hi Hkey.
  - destruct (Z.eqb_spec b1 s) as [-> | Hb1]; simpl in *.
    + (* r1 = (a1, s) *)
      destruct (Z.eqb_spec a2 s) as [-> | Ha2]; simpl in *.
      * clear Hx Hy. intuition congruence.
      * destruct (Z.eqb_spec b2 s) as [-> | Hb2]; simpl in *.
        -- clear Hx Hy. intuition congruence.
        -- pose proof (Hy a1) as Hi. clear Hx Hy. by_instance Hi Hkey.
    + (* r1 does not mention s *)
      destruct (Z.eqb_spec a2 s) as [-> | Ha2]; simpl in *.
      * pose proof (Hx b2) as Hi. clear Hx Hy. by_instance Hi Hkey.
      * destruct (Z.eqb_spec b2 s) as [-> | Hb2]; simpl in *.
        -- pose proof (Hx a2) as Hi. clear Hx Hy. by_instance Hi Hkey.
        -- clear Hx Hy. intuition congruence.
Qed.

Lemma repoint_no_self (p s : Z) (r : ConceptRelation) :
  concept1_id r <> concept2_id r ->
  ~ joins r p s ->
  concept1_id (repoint p s r) <> concept2_id (repoint p s r).
Proof.
  destruct r as [a b t w]. unfold repoint, joins. simpl. intros Hs Hps.
  destruct (Z.eqb_spec a s), (Z.eqb_spec b s); simpl; lia.
Qed.

Lemma repoint_preserves (p s : Z) (rels : list ConceptRelation) :
  relation_invariant rels ->
  ~ related rels p s ->
  (forall x, ~ (related rels p x /\ related rels s x)) ->
  relation_invariant (map (repoint p s) rels).
Proof.
  intros [Hnd Hself] Hps Hcommon. rewrite Forall_forall in Hself.
  assert (Hj : forall r, In r rels -> ~ joins r p s).
  { intros r Hr Hj. apply Hps. exists r. auto. }
  split.
  - rewrite map_map. apply (NoDup_map_on _ pair_key); [| exact Hnd].
    intros r1 r2 H1 H2. apply repoint_key; auto.
    + apply Hself, list_elem_of_In, H1.
    + apply Hself, list_elem_of_In, H2.
    + intros x [Hp Hs]. apply (Hcommon x). split; [exists r1 | exists r2]; auto.
    + intros x [Hp Hs]. apply (Hcommon x). split; [exists r2 | exists r1]; auto.
  - apply Forall_forall. intros r' Hr'.
    apply list_elem_of_In, in_map_iff in Hr' as [r [<- Hr]].
    apply repoint_no_self; [apply Hself, list_elem_of_In, Hr | auto].
Qed.

Lemma merge_concepts_relations (db : Db) (p s : Z) :
  concept_relations (snd (merge_concepts db (Some p) (Some s))) = concept_relations db
  \/ concept_relations (snd (merge_concepts db (Some p) (Some s)))
     = map (repoint p s) (concept_relations db).
Proof.
  unfold merge_concepts, merge_session, bind, get_or_404, ret, raise.
  destruct (missing (Some p) || missing (Some s)); [left; reflexivity |].
  simpl. destruct (get_concept db p); [| left; reflexivity].
  destruct (get_concept db s); [| left; reflexivity].
  right. reflexivity.
Qed.

(** C3 (relation invariant, as amended).  Storing the relations that one
    call of [find_concept_relations] returns keeps the relation table
    free of duplicate unordered pairs and of self-relations (concept ids
    being unique).  The merge has no dedup pass; it keeps the invariant
    when the two merged concepts are not related to each other and no
    concept is related to both of them. *)
Theorem relation_invariant_preservation :
  (forall (db : Db) (concept_id : Z) (threshold : Q),
      NoDup (map c_id (concepts db)) ->
      relation_invariant (concept_relations db) ->
      relation_invariant
        (concept_relations
           (add_relations db (find_concept_relations db concept_id threshold))))
  /\ (forall (db : Db) (primary_id secondary_id : Z),
         relation_invariant (concept_relations db) ->
         ~ related (concept_relations db) primary_id secondary_id ->
         (forall x, ~ (related (concept_relations db) primary_id x
                       /\ related (concept_relations db) secondary_id x)) ->
         relation_invariant
           (concept_relations
              (snd (merge_concepts db (Some primary_id) (Some secondary_id))))).
Proof.
  split.
  - exact find_concept_relations_preserves.
  - intros db p s Hinv Hps Hcommon.
    destruct (merge_concepts_relations db p s) as [-> | ->]; [exact Hinv |].
    apply repoint_preserves; assumption.
Qed.

Ltac by_decide := refine (bool_decide_unpack _ _); vm_compute; exact I.

Lemma relation_invariant_preservation_witness :
  relation_invariant
    (concept_relations
       (add_relations Example.db_one_relation
                      (find_concept_relations Example.db_one_relation 1 0.3)))
  /\ relation_invariant
       (concept_relations
          (snd (merge_concepts Example.db_one_relation (Some 1%Z) (Some 2%Z)))).
Proof.
  assert (Hids : NoDup (map c_id (concepts Example.db_one_relation))) by by_decide.
  assert (Hinv : relation_invariant (concept_relations Example.db_one_relation)).
  { unfold relation_invariant. by_decide. }
  assert (Hnone : forall x, ~ related (concept_relations Example.db_one_relation) 1 x).
  { intros x [r [[<- | []] [[H1 _] | [_ H2]]]]; simpl in *; discriminate. }
  split.
  - exact (proj1 relation_invariant_preservation Example.db_one_relation 1%Z 0.3 Hids Hinv).
  - apply (proj2 relation_invariant_preservation Example.db_one_relation 1%Z 2%Z Hinv).
    + apply Hnone.
    + intros x [H1 _]. exact (Hnone x H1).
Defined.

(** The merge without a dedup pass.  With a common neighbour, the merge
    leaves two relations on one unordered pair; with a relation between
    the merged concepts, it leaves a relation from a concept to itself. *)
Lemma merge_breaks_relation_invariant :
  (relation_invariant (concept_relations Example.db_common_neighbour)
   /\ ~ relation_invariant
         (concept_relations
            (snd (merge_concepts Example.db_common_neighbour (Some 1%Z) (Some 2%Z)))))
  /\ (relation_invariant (concept_relations Example.db_related_pair)
      /\ ~ relation_invariant
            (concept_relations
               (snd (merge_concepts Example.db_related_pair (Some 1%Z) (Some 2%Z))))).
Proof.
  unfold relation_invariant. repeat split; by_decide.
Qed.

(** [process_document_concepts] stores the results of several calls at
    once; two saved concepts that are similar then get one relation in
    each orientation. *)
Lemma batch_relations_duplicate :
  relation_invariant (concept_relations Example.db)
  /\ ~ NoDup (map pair_key (concept_relations (save_found_relations Example.db [1; 2]%Z))).
Proof.
  unfold relation_invariant. repeat split; by_decide.
Qed.

End RelationFacts.

(** ** The merge endpoint *)

Module MergeFacts.
Import ConceptsApi.

Lemma linked_documents_In (c d : Z) (links : list DocumentConcept) :
  In d (linked_documents c links)
  <-> existsb (fun l => Z.eqb (dc_document_id l) d && Z.eqb (dc_concept_id l) c) links = true.
Proof.
  unfold linked_documents. rewrite in_map_iff, existsb_exists. split.
  - intros [l [Hd Hl]]. apply filter_In in Hl as [Hl Hc].
    exists l. split; [exact Hl |]. rewrite Hd, Z.eqb_refl, Hc. reflexivity.
  - intros [l [Hl H]]. apply andb_true_iff in H as [Hd Hc].
    exists l. split; [apply Z.eqb_eq, Hd |]. apply filter_In. auto.
Qed.

Lemma linked_documents_app (c : Z) (l1 l2 : list DocumentConcept) :
  linked_documents c (l1 ++ l2) = linked_documents c l1 ++ linked_documents c l2.
Proof. unfold linked_documents. rewrite List.filter_app, map_app. reflexivity. Qed.

(** One pass of the transfer loop, seen from the primary concept. *)
Lemma transfer_document_primary (p d : Z) (links : list DocumentConcept) :
  linked_documents p (transfer_document p links d)
  = if existsb (fun l => Z.eqb (dc_document_id l) d && Z.eqb (dc_concept_id l) p) links
    then linked_documents p links
    else linked_documents p links ++ [d].
Proof.
  unfold transfer_document.
  destruct (existsb _ links); [reflexivity |].
  rewrite linked_documents_app. unfold linked_documents at 2. simpl.
  rewrite Z.eqb_refl. reflexivity.
Qed.

Lemma transfer_document_other (p c d : Z) (links : list DocumentConcept) :
  c <> p ->
  linked_documents c (transfer_document p links d) = linked_documents c links.
Proof.
  intros Hc. unfold transfer_document.
  destruct (existsb _ links); [reflexivity |].
  rewrite linked_documents_app. unfold linked_documents at 2. simpl.
  destruct (Z.eqb_spec p c); [congruence |]. simpl. apply app_nil_r.
Qed.

Lemma transfer_documents_primary (p : Z) (ds : list Z) (links : list DocumentConcept) :
  (forall d, In d (linked_documents p (fold_left (transfer_document p) ds links))
             <-> In d (linked_documents p links) \/ In d ds)
  /\ (NoDup (linked_documents p links) ->
      NoDup (linked_documents p (fold_left (transfer_document p) ds links))).
Proof.
  revert links. induction ds as [|d0 ds IH]; intros links; simpl.
  - split; [intros d; tauto | auto].
  - destruct (IH (transfer_document p links d0)) as [IHin IHnd].
    pose proof (transfer_document_primary p d0 links) as Ht.
    pose proof (linked_documents_In p d0 links) as Hin0.
    destruct (existsb _ links) eqn:E; rewrite Ht in *.
    + split; [| exact IHnd].
      intros d. rewrite IHin. split; [tauto |].
      intros [H | [<- | H]]; [tauto | left; apply Hin0; reflexivity | tauto].
    + split.
      * intros d. rewrite IHin, in_app_iff. simpl. tauto.
      * intros Hnd. apply IHnd. apply NoDup_app. split; [exact Hnd | split].
        -- intros x Hx Hx'. apply list_elem_of_In in Hx, Hx'.
           destruct Hx' as [<- | []]. apply Hin0 in Hx. congruence.
        -- apply NoDup_singleton.
Qed.

Lemma transfer_documents_other (p c : Z) (ds : list Z) (links : list DocumentConcept) :
  c <> p ->
  linked_documents c (fold_left (transfer_document p) ds links) = linked_documents c links.
Proof.
  intros Hc. revert links. induction ds as [|d ds IH]; intros links; simpl.
  - reflexivity.
  - rewrite IH. apply transfer_document_other, Hc.
Qed.

Lemma delete_links_other (s c : Z) (links : list DocumentConcept) :
  c <> s -> linked_documents c (delete_links s links) = linked_documents c links.
Proof.
  intros Hc. unfold linked_documents, delete_links. f_equal.
  induction links as [|l links IH]; simpl; [reflexivity |].
  destruct (Z.eqb_spec (dc_concept_id l) s) as [Hs | Hs]; simpl.
  - destruct (Z.eqb_spec (dc_concept_id l) c); [congruence | exact IH].
  - destruct (Z.eqb (dc_concept_id l) c); [f_equal |]; exact IH.
Qed.

Lemma delete_links_self (s : Z) (links : list DocumentConcept) :
  linked_documents s (delete_links s links) = [].
Proof.
  unfold linked_documents, delete_links.
  induction links as [|l links IH]; simpl; [reflexivity |].
  destruct (Z.eqb_spec (dc_concept_id l) s) as [Hs | Hs]; simpl; [exact IH |].
  destruct (Z.eqb_spec (dc_concept_id l) s); [contradiction | exact IH].
Qed.

Lemma find_set_frequency (p f i : Z) (cs : list Concept) :
  List.find (fun c => Z.eqb (c_id c) i) (map (set_frequency p f) cs)
  = option_map (set_frequency p f) (List.find (fun c => Z.eqb (c_id c) i) cs).
Proof.
  induction cs as [|c cs IH]; simpl; [reflexivity |].
  assert (Hid : c_id (set_frequency p f c) = c_id c).
  { unfold set_frequency. destruct (Z.eqb (c_id c) p); reflexivity. }
  rewrite Hid. destruct (Z.eqb (c_id c) i); [reflexivity | exact IH].
Qed.

Lemma find_delete_concept (s i : Z) (cs : list Concept) :
  List.find (fun c => Z.eqb (c_id c) i) (delete_concept s cs)
  = if Z.eqb i s then None else List.find (fun c => Z.eqb (c_id c) i) cs.
Proof.
  unfold delete_concept. induction cs as [|c cs IH]; simpl.
  - destruct (Z.eqb i s); reflexivity.
  - destruct (Z.eqb_spec (c_id c) s) as [Hs | Hs]; simpl.
    + destruct (Z.eqb_spec (c_id c) i) as [Hi | Hi]; [| exact IH].
      rewrite IH. destruct (Z.eqb_spec i s); [reflexivity | congruence].
    + destruct (Z.eqb_spec (c_id c) i) as [Hi | Hi]; [| exact IH].
      destruct (Z.eqb_spec i s); [congruence | reflexivity].
Qed.

(** What the merge does when both concepts exist and differ: the answer
    is 200 with the primary concept, whose frequency is the sum; the
    primary concept is linked to the documents of both, each once; every
    relation is re-pointed; the secondary concept and its links are gone. *)
Lemma merge_existing_pair (db : Db) (p s : Z) (cp cs : Concept) :
  p <> 0%Z -> s <> 0%Z -> p <> s ->
  get_concept db p = Some cp ->
  get_concept db s = Some cs ->
  exists db' merged,
    merge_concepts db (Some p) (Some s) = (Ok200 merged, db')
    /\ c_frequency merged = (c_frequency cp + c_frequency cs)%Z
    /\ get_concept db' p = Some merged
    /\ get_concept db' s = None
    /\ (forall d, In d (concept_documents db' p)
                  <-> In d (concept_documents db p) \/ In d (concept_documents db s))
    /\ (NoDup (concept_documents db p) -> NoDup (concept_documents db' p))
    /\ concept_documents db' s = []
    /\ concept_relations db' = map (repoint p s) (concept_relations db)
    /\ (forall i, i <> p -> i <> s -> get_concept db' i = get_concept db i).
Proof.
  intros Hp Hs Hps Hgp Hgs.
  unfold merge_concepts, merge_session, bind, get_or_404, ret.
  assert (Hm : missing (Some p) || missing (Some s) = false).
  { simpl. apply Z.eqb_neq in Hp, Hs. rewrite Hp, Hs. reflexivity. }
  rewrite Hm. simpl. rewrite Hgp, Hgs.
  eexists _, _. split; [reflexivity |].
  apply RelationFacts.get_concept_id in Hgp as Hidp. destruct Hidp as [Hidp _].
  assert (Hfreq : forall f, c_frequency (set_frequency p f cp) = f).
  { intros f. unfold set_frequency. rewrite Hidp, Z.eqb_refl. reflexivity. }
  unfold get_concept, concept_documents in *. simpl.
  repeat split.
  - apply Hfreq.
  - rewrite find_delete_concept, find_set_frequency, Hgp.
    destruct (Z.eqb_spec p s); [contradiction | reflexivity].
  - rewrite find_delete_concept, Z.eqb_refl. reflexivity.
  - rewrite delete_links_other by exact Hps.
    apply (transfer_documents_primary p).
  - rewrite delete_links_other by exact Hps.
    apply (transfer_documents_primary p).
  - rewrite delete_links_other by exact Hps.
    apply (transfer_documents_primary p).
  - apply delete_links_self.
  - intros i Hip His. rewrite find_delete_concept, find_set_frequency.
    destruct (Z.eqb_spec i s); [contradiction |].
    destruct (List.find (fun c => Z.eqb (c_id c) i) (concepts db)) as [c |] eqn:E;
      [| reflexivity].
    simpl. f_equal. apply find_some in E as [_ E]. apply Z.eqb_eq in E.
    unfold set_frequency. destruct (Z.eqb_spec (c_id c) p); [congruence | reflexivity].
Qed.

(** After a merge the secondary id names no concept, so repeating the
    call is the missing-concept case again. *)
Lemma merge_then_secondary_missing (db : Db) (p s : Z) (cp cs : Concept) :
  p <> 0%Z -> s <> 0%Z -> p <> s ->
  get_concept db p = Some cp ->
  get_concept db s = Some cs ->
  get_concept (snd (merge_concepts db (Some p) (Some s))) s = None.
Proof.
  intros Hp Hs Hps Hgp Hgs.
  destruct (merge_existing_pair db p s cp cs Hp Hs Hps Hgp Hgs)
    as (db' & merged & Hmerge & _ & _ & Hgone & _).
  rewrite Hmerge. exact Hgone.
Qed.

(** C2 (merge of a missing concept).  When either id names no concept,
    the handler answers 500: the [NotFound] raised by [get_or_404] is
    caught by the handler's own [except Exception].  The database is left
    as it was. *)
Theorem merge_missing_concept_internal_error (db : Db) (primary_id secondary_id : Z) :
  primary_id <> 0%Z -> secondary_id <> 0%Z ->
  get_concept db primary_id = None \/ get_concept db secondary_id = None ->
  merge_session db primary_id secondary_id = inl NotFound
  /\ merge_concepts db (Some primary_id) (Some secondary_id) = (InternalError500, db).
Proof.
  intros Hp Hs Hnone.
  assert (Hsession : merge_session db primary_id secondary_id = inl NotFound).
  { unfold merge_session, bind, get_or_404, raise, ret.
    destruct Hnone as [-> | Hn]; [reflexivity |].
    destruct (get_concept db primary_id); [rewrite Hn |]; reflexivity. }
  split; [exact Hsession |].
  unfold merge_concepts. simpl.
  apply Z.eqb_neq in Hp, Hs. rewrite Hp, Hs, Hsession. reflexivity.
Qed.

Lemma merge_missing_concept_internal_error_witness :
  get_concept Example.db 99 = None
  /\ merge_concepts Example.db (Some 1%Z) (Some 99%Z) = (InternalError500, Example.db).
Proof.
  split; [reflexivity |].
  apply (merge_missing_concept_internal_error Example.db 1%Z 99%Z); [lia | lia |].
  right. reflexivity.
Defined.

End MergeFacts.

(** ** The concept registry: [save_concepts_to_db] *)

Module RegistryFacts.
Import ConceptAnalyzer.

Lemma increment_frequency_name (i : Z) (c : Concept) :
  c_name (increment_frequency i c) = c_name c.
Proof. unfold increment_frequency. destruct (Z.eqb (c_id c) i); reflexivity. Qed.









End RegistryFacts.

(** ** The fallback lexical score *)

Module RelevanceFacts.
Import SearchEngine Spec.

Lemma fold_left_add {A} (f : A -> Q) (l : list A) (a : Q) :
  fold_left (fun score x => score + f x) l a == a + total (map f l).
Proof.
  revert a. induction l as [|x l IH]; intros a; simpl.
  - ring.
  - rewrite IH. ring.
Qed.

Lemma fold_left_add_if {A} (b : A -> bool) (w : Q) (l : list A) (a : Q) :
  fold_left (fun score x => if b x then score + w else score) l a
  == a + total (map (fun x => if b x then w else 0) l).
Proof.
  revert a. induction l as [|x l IH]; intros a; simpl.
  - ring.
  - rewrite IH. destruct (b x); ring.
Qed.

Lemma fold_left_add_proper {A} (f : A -> Q) (l : list A) (a a' : Q) :
  a == a' ->
  fold_left (fun score x => score + f x) l a
  == fold_left (fun score x => score + f x) l a'.
Proof. intros Ha. rewrite !fold_left_add, Ha. reflexivity. Qed.

Lemma total_ext_in {A} (f g : A -> Q) (l : list A) :
  (forall x, In x l -> f x == g x) -> total (map f l) == total (map g l).
Proof.
  induction l as [|x l IH]; intros H; simpl; [reflexivity |].
  rewrite (H x) by (left; reflexivity). rewrite IH; [reflexivity |].
  intros y Hy. apply H. right. exact Hy.
Qed.

Lemma total_zero {A} (l : list A) : total (map (fun _ => 0) l) == 0.
Proof. induction l as [|x l IH]; simpl; [reflexivity | rewrite IH; ring]. Qed.

Lemma total_le_in {A} (f g : A -> Q) (l : list A) :
  (forall x, In x l -> f x <= g x) -> total (map f l) <= total (map g l).
Proof.
  induction l as [|x l IH]; intros H; simpl; [lra |].
  apply Qplus_le_compat; [apply H; left; reflexivity |].
  apply IH. intros y Hy. apply H. right. exact Hy.
Qed.

Lemma Qnat_le (n m : nat) : (n <= m)%nat -> Qnat n <= Qnat m.
Proof. intros H. unfold Qnat. rewrite <- Zle_Qle. lia. Qed.

Lemma py_min_one (a : Q) : py_min a 1.0 == Qmin a 1.0.
Proof.
  unfold py_min. destruct (Qlt_le_dec 1.0 a).
  - rewrite Q.min_r; [reflexivity | lra].
  - rewrite Q.min_l; [reflexivity | lra].
Qed.

Lemma content_zero : Qmin (Qnat 0 * 0.1) 1.0 == 0.
Proof. change (Qnat 0) with 0. rewrite Q.min_l; lra. Qed.

Lemma count_empty_text (term : string) :
  term <> EmptyString -> PyStr.count term EmptyString = 0%nat.
Proof. destruct term; [contradiction | reflexivity]. Qed.

(** The three loops of [_calculate_simple_relevance], each as a sum over
    the query terms. *)
Lemma title_loop (d : Document) (terms : list string) (a : Q) :
  Forall (fun t => t <> EmptyString) terms ->
  match d_title d with
  | Some title =>
      if PyStr.is_empty title then a
      else fold_left (fun score term =>
                        if PyStr.contains term (PyStr.lower title)
                        then score + 2.0 else score) terms a
  | None => a
  end == a + total (map (title_score d) terms).
Proof.
  intros Hne. rewrite Forall_forall in Hne.
  unfold title_score, occurrences.
  destruct (d_title d) as [title |].
  - destruct title as [|c title]; simpl PyStr.is_empty; cbv iota.
    + rewrite (total_ext_in _ (fun _ => 0)); [rewrite total_zero; ring |].
      intros t Ht. simpl PyStr.lower.
      rewrite count_empty_text by (apply Hne, list_elem_of_In, Ht). reflexivity.
    + rewrite fold_left_add_if. apply Qplus_comp; [reflexivity |].
      apply total_ext_in. intros t Ht.
      rewrite PyStrFacts.contains_count by (apply Hne, list_elem_of_In, Ht).
      reflexivity.
  - rewrite total_zero. ring.
Qed.

Lemma summary_loop (d : Document) (terms : list string) (a : Q) :
  Forall (fun t => t <> EmptyString) terms ->
  match d_summary d with
  | Some summary =>
      if PyStr.is_empty summary then a
      else fold_left (fun score term =>
                        score + Qnat (PyStr.count term (PyStr.lower summary)) * 1.0)
                     terms a
  | None => a
  end == a + total (map (summary_score d) terms).
Proof.
  intros Hne. rewrite Forall_forall in Hne.
  unfold summary_score, occurrences.
  destruct (d_summary d) as [summary |].
  - destruct summary as [|c summary]; simpl PyStr.is_empty; cbv iota.
    + rewrite (total_ext_in _ (fun _ => 0)); [rewrite total_zero; ring |].
      intros t Ht. simpl PyStr.lower.
      rewrite count_empty_text by (apply Hne, list_elem_of_In, Ht).
      change (Qnat 0) with 0. ring.
    + apply fold_left_add.
  - rewrite (total_ext_in _ (fun _ => 0)); [rewrite total_zero; ring |].
    intros t _. change (Qnat 0) with 0. ring.
Qed.

Lemma content_loop (d : Document) (terms : list string) (a : Q) :
  Forall (fun t => t <> EmptyString) terms ->
  match d_content d with
  | Some content =>
      if PyStr.is_empty content then a
      else fold_left (fun score term =>
                        score + py_min (Qnat (PyStr.count term (PyStr.lower content)) * 0.1)
                                       1.0)
                     terms a
  | None => a
  end == a + total (map (content_score d) terms).
Proof.
  intros Hne. rewrite Forall_forall in Hne.
  unfold content_score, occurrences.
  destruct (d_content d) as [content |].
  - destruct content as [|c content]; simpl PyStr.is_empty; cbv iota.
    + rewrite (total_ext_in _ (fun _ => 0)); [rewrite total_zero; ring |].
      intros t Ht. simpl PyStr.lower.
      rewrite count_empty_text by (apply Hne, list_elem_of_In, Ht).
      apply content_zero.
    + rewrite fold_left_add. apply Qplus_comp; [reflexivity |].
      apply total_ext_in. intros t _. apply py_min_one.
  - rewrite (total_ext_in _ (fun _ => 0)); [rewrite total_zero; ring |].
    intros t _. apply content_zero.
Qed.

(** The score is the sum of the three per-term contributions. *)
Lemma simple_relevance_sum (d : Document) (query : string) :
  _calculate_simple_relevance d query
  == lexical_score d (PyStr.split (PyStr.lower query)).
Proof.
  unfold _calculate_simple_relevance, lexical_score. cbv zeta.
  assert (Hne : Forall (fun t => t <> EmptyString) (PyStr.split (PyStr.lower query))).
  { apply Forall_forall. intros t Ht.
    apply (PyStrFacts.split_nonempty (PyStr.lower query)), list_elem_of_In, Ht. }
  set (terms := PyStr.split (PyStr.lower query)) in *.
  pose proof (title_loop d terms 0 Hne) as Ht.
  set (s1 := match d_title d with Some _ => _ | None => _ end) in *.
  pose proof (summary_loop d terms s1 Hne) as Hs.
  set (s2 := match d_summary d with Some _ => _ | None => _ end) in *.
  pose proof (content_loop d terms s2 Hne) as Hc.
  rewrite Hc, Hs, Ht. ring.
Qed.

Lemma content_score_le_1 (d : Document) (term : string) : content_score d term <= 1.
Proof.
  unfold content_score.
  pose proof (Q.le_min_r (Qnat (occurrences term (d_content d)) * 0.1) 1.0). lra.
Qed.

(** C6 (fallback lexical score).  If every query term occurs in the
    title, the summary and the content of [d'] at least as often as in
    those of [d], the score of [d'] is at least that of [d].  The score
    is the sum over the query terms of 2.0 for a term found in the title,
    1.0 per occurrence in the summary and 0.1 per occurrence in the
    content, the content part capped at 1.0; so the content part of one
    term never exceeds 1.0, and is exactly 1.0 from ten occurrences on. *)
Theorem simple_relevance_monotone (d d' : Document) (query : string) :
  (forall term, In term (PyStr.split (PyStr.lower query)) ->
                (occurrences term (d_title d) <= occurrences term (d_title d'))%nat
                /\ (occurrences term (d_summary d) <= occurrences term (d_summary d'))%nat
                /\ (occurrences term (d_content d) <= occurrences term (d_content d'))%nat) ->
  _calculate_simple_relevance d query <= _calculate_simple_relevance d' query
  /\ _calculate_simple_relevance d query
     == lexical_score d (PyStr.split (PyStr.lower query))
  /\ (forall term, content_score d term <= 1)
  /\ (forall term, (10 <= occurrences term (d_content d))%nat -> content_score d term == 1).
Proof.
  intros Hocc. split; [| split; [apply simple_relevance_sum | split]].
  - rewrite !simple_relevance_sum. unfold lexical_score.
    repeat apply Qplus_le_compat; apply total_le_in; intros t Ht;
      destruct (Hocc t Ht) as (Htitle & Hsummary & Hcontent).
    + unfold title_score.
      destruct (Nat.ltb_spec 0 (occurrences t (d_title d)));
        destruct (Nat.ltb_spec 0 (occurrences t (d_title d'))); try lra. lia.
    + unfold summary_score. apply Qmult_le_compat_r; [apply Qnat_le, Hsummary | lra].
    + unfold content_score. apply Q.min_le_compat_r.
      apply Qmult_le_compat_r; [apply Qnat_le, Hcontent | lra].
  - intros term. apply content_score_le_1.
  - intros term Hten. unfold content_score. rewrite Q.min_r; [lra |].
    apply Qnat_le in Hten. change (Qnat 10) with 10 in Hten. lra.
Qed.

Lemma simple_relevance_monotone_witness :
  _calculate_simple_relevance Example.doc_short "Usability  testing"
  <= _calculate_simple_relevance Example.doc_long "Usability  testing".
Proof.
  apply (simple_relevance_monotone Example.doc_short Example.doc_long "Usability  testing").
  intros term [<- | [<- | []]]; vm_compute; repeat split; lia.
Defined.

(** Fifty occurrences in the content count as much as ten: 1.0. *)
Example content_cap_10_50 :
  _calculate_simple_relevance Example.doc_10 "usability" == 1
  /\ _calculate_simple_relevance Example.doc_50 "usability" == 1.
Proof. split; vm_compute; reflexivity. Qed.

Example simple_relevance_values :
  _calculate_simple_relevance Example.doc_short "Usability  testing" == 1.2
  /\ _calculate_simple_relevance Example.doc_long "Usability  testing" == 6.4.
Proof. split; vm_compute; reflexivity. Qed.

End RelevanceFacts.

(** ** Hybrid fusion: [_merge_search_results] *)

Module FusionFacts.
Import SearchEngine Spec Grouping.

Lemma insert_desc_perm {A} (key : A -> Q) (x : A) (l : list A) :
  Permutation (insert_desc key x l) (x :: l).
Proof.
  induction l as [|y l IH]; simpl; [reflexivity |].
  destruct (Qle_bool (key y) (key x)); [reflexivity |].
  rewrite IH. apply perm_swap.
Qed.

(** Sorting only reorders. *)
Lemma sorted_desc_perm {A} (key : A -> Q) (l : list A) :
  Permutation (sorted_desc key l) l.
Proof.
  unfold sorted_desc. induction l as [|x l IH]; simpl; [reflexivity |].
  rewrite insert_desc_perm, IH. reflexivity.
Qed.

Lemma filter_perm {A} (f : A -> bool) (l l' : list A) :
  Permutation l l' -> Permutation (List.filter f l) (List.filter f l').
Proof.
  induction 1 as [| x l l' _ IH | x y l | l l' l'' _ IH1 _ IH2]; simpl.
  - reflexivity.
  - destruct (f x); [apply perm_skip |]; exact IH.
  - destruct (f x), (f y); try reflexivity. apply perm_swap.
  - etransitivity; eassumption.
Qed.

Lemma perm_short {A} (l l' : list A) :
  Permutation l l' -> (length l' <= 1)%nat -> l = l'.
Proof.
  intros Hp Hlen. destruct l' as [|x [|y l']]; simpl in Hlen; [| | lia].
  - apply Permutation_nil. symmetry. exact Hp.
  - apply Permutation_length_1_inv. symmetry. exact Hp.
Qed.

Lemma group_append_keys (k : Z) (r : SearchResult) (groups : list (Z * list SearchResult)) :
  forall k', In k' (map fst (group_append k r groups)) <-> k' = k \/ In k' (map fst groups).
Proof.
  induction groups as [|[k0 g0] groups IH]; intros k'; simpl.
  - intuition.
  - destruct (Z.eqb_spec k0 k) as [-> | Hne]; simpl.
    + intuition.
    + rewrite IH. intuition.
Qed.

Lemma group_append_of (k : Z) (r : SearchResult) (groups : list (Z * list SearchResult))
      (k' : Z) :
  group_of k' (group_append k r groups)
  = if Z.eqb k' k then group_of k groups ++ [r] else group_of k' groups.
Proof.
  unfold group_of. induction groups as [|[k0 g0] groups IH]; simpl.
  - rewrite Z.eqb_sym. destruct (Z.eqb k' k); reflexivity.
  - destruct (Z.eqb_spec k0 k) as [-> | Hne]; simpl.
    + destruct (Z.eqb_spec k k') as [-> | Hne'].
      * rewrite Z.eqb_refl. reflexivity.
      * destruct (Z.eqb_spec k' k); [congruence | reflexivity].
    + destruct (Z.eqb_spec k0 k') as [-> | Hne'].
      * destruct (Z.eqb_spec k' k); [congruence | reflexivity].
      * exact IH.
Qed.

Lemma group_append_well (r : SearchResult) (groups : list (Z * list SearchResult)) :
  well_grouped groups ->
  well_grouped (group_append (d_id (document r)) r groups).
Proof.
  set (k := d_id (document r)). assert (Hk : d_id (document r) = k) by reflexivity.
  clearbody k. intros [Hnd Hall].
  induction groups as [|[k0 g0] groups IH]; simpl.
  - split; [apply NoDup_singleton |].
    repeat constructor; simpl; [discriminate | exact Hk].
  - simpl in Hnd. apply NoDup_cons in Hnd as [Hk0 Hnd].
    apply Forall_cons in Hall as [[Hne Hg0] Hall]. simpl in *.
    destruct (Z.eqb_spec k0 k) as [-> | Hneq]; simpl.
    + split; [apply NoDup_cons; auto |].
      apply Forall_cons. split; [| exact Hall]. simpl. split.
      * destruct g0; discriminate.
      * apply Forall_app. split; [exact Hg0 | repeat constructor; exact Hk].
    + destruct (IH Hnd Hall) as [Hnd' Hall']. split.
      * apply NoDup_cons. split; [| exact Hnd'].
        simpl. intros Hin. apply list_elem_of_In, group_append_keys in Hin.
        destruct Hin as [-> | Hin]; [apply Hneq; reflexivity |].
        apply Hk0, list_elem_of_In, Hin.
      * apply Forall_cons. split; [split; assumption | exact Hall'].
Qed.

Lemma group_by_fold (results : list SearchResult) (groups : list (Z * list SearchResult)) :
  well_grouped groups ->
  let groups' :=
    fold_left (fun groups result => group_append (d_id (document result)) result groups)
              results groups in
  well_grouped groups'
  /\ forall k, group_of k groups' = group_of k groups ++ List.filter (doc_is k) results.
Proof.
  revert groups. induction results as [|r results IH]; intros groups Hw; simpl.
  - split; [exact Hw | intros k; symmetry; apply app_nil_r].
  - destruct (IH _ (group_append_well r groups Hw)) as [Hw' Hof].
    split; [exact Hw' |].
    intros k. rewrite Hof, group_append_of. unfold doc_is.
    rewrite (Z.eqb_sym k). destruct (Z.eqb_spec (d_id (document r)) k) as [-> | Hne].
    + rewrite <- app_assoc. reflexivity.
    + reflexivity.
Qed.

Lemma group_by_document_of (results : list SearchResult) :
  well_grouped (group_by_document results)
  /\ forall k, group_of k (group_by_document results) = List.filter (doc_is k) results.
Proof.
  assert (Hw : well_grouped []) by (split; constructor).
  destruct (group_by_fold results [] Hw) as [Hw' Hof].
  split; [exact Hw' | exact Hof].
Qed.

Lemma merge_group_docs (k : Z) (g : list SearchResult) :
  Forall (fun r => d_id (document r) = k) g ->
  Forall (fun r => d_id (document r) = k) (merge_group g).
Proof.
  intros Hg. unfold merge_group, combine.
  destruct g as [|r1 [|r2 g]]; [constructor | exact Hg |].
  apply Forall_cons in Hg as [H1 _]. repeat constructor. exact H1.
Qed.

Lemma merge_group_short (g : list SearchResult) : (length (merge_group g) <= 1)%nat.
Proof. unfold merge_group, combine. destruct g as [|r1 [|r2 g]]; simpl; lia. Qed.

Lemma filter_doc_all (d : Z) (l : list SearchResult) :
  Forall (fun r => d_id (document r) = d) l -> List.filter (doc_is d) l = l.
Proof.
  induction 1 as [|r l Hr _ IH]; simpl; [reflexivity |].
  unfold doc_is at 1. rewrite Hr, Z.eqb_refl, IH. reflexivity.
Qed.

Lemma filter_doc_none (d k : Z) (l : list SearchResult) :
  k <> d -> Forall (fun r => d_id (document r) = k) l -> List.filter (doc_is d) l = [].
Proof.
  intros Hne. induction 1 as [|r l Hr _ IH]; simpl; [reflexivity |].
  unfold doc_is at 1. rewrite Hr. destruct (Z.eqb_spec k d); [contradiction | exact IH].
Qed.

Lemma group_of_absent (d : Z) (groups : list (Z * list SearchResult)) :
  ~ In d (map fst groups) -> group_of d groups = [].
Proof.
  unfold group_of. induction groups as [|[k g] groups IH]; simpl; [reflexivity |].
  intros Hd. destruct (Z.eqb_spec k d) as [-> | Hne]; [tauto |]. apply IH. tauto.
Qed.

Lemma merged_groups_of (d : Z) (groups : list (Z * list SearchResult)) :
  well_grouped groups ->
  List.filter (doc_is d) (flat_map (fun g => merge_group (snd g)) groups)
  = merge_group (group_of d groups).
Proof.
  intros [Hnd Hall]. induction groups as [|[k g] groups IH]; simpl; [reflexivity |].
  simpl in Hnd. apply NoDup_cons in Hnd as [Hk Hnd].
  apply Forall_cons in Hall as [[_ Hg] Hall]. simpl in Hg.
  rewrite List.filter_app, (IH Hnd Hall).
  unfold group_of at 2. simpl.
  destruct (Z.eqb_spec k d) as [-> | Hne]; simpl.
  - rewrite (filter_doc_all d) by (apply merge_group_docs, Hg).
    rewrite group_of_absent; [apply app_nil_r |].
    intros Hin. apply Hk, list_elem_of_In, Hin.
  - rewrite (filter_doc_none d k) by (auto using merge_group_docs). reflexivity.
Qed.

(** The hybrid merge holds, for each document, the merge of the results
    that report it, and nothing else. *)
Lemma merged_entry (results : list SearchResult) (d : Z) :
  List.filter (doc_is d) (_merge_search_results results "hybrid")
  = merge_group (List.filter (doc_is d) results).
Proof.
  unfold _merge_search_results. simpl.
  destruct (group_by_document_of results) as [Hw Hof].
  rewrite <- Hof, <- (merged_groups_of d _ Hw).
  apply perm_short.
  - apply filter_perm, sorted_desc_perm.
  - rewrite (merged_groups_of d _ Hw). apply merge_group_short.
Qed.

Lemma modes_distinct (results : list SearchResult) (d : Z) :
  NoDup (map (fun r => (d_id (document r), search_type r)) results) ->
  NoDup (map search_type (List.filter (doc_is d) results)).
Proof.
  induction results as [|r results IH]; simpl; intros Hnd; [constructor |].
  apply NoDup_cons in Hnd as [Hr Hnd].
  unfold doc_is at 1. destruct (Z.eqb_spec (d_id (document r)) d) as [Hd | Hd]; simpl;
    [| exact (IH Hnd)].
  apply NoDup_cons. split; [| exact (IH Hnd)].
  intros Hin. apply Hr.
  apply list_elem_of_In, in_map_iff in Hin as [r' [Hty Hr']].
  apply filter_In in Hr' as [Hr' Hd']. apply Z.eqb_eq in Hd'.
  apply list_elem_of_In, in_map_iff. exists r'. split; [| exact Hr'].
  rewrite Hty, Hd', Hd. reflexivity.
Qed.

(** C1 (hybrid fusion, as amended).  Let no retriever report a document
    twice.  A document found by exactly one retrieval mode keeps its one
    result unchanged in the merged list.  A document found by more than
    one mode has one merged entry, of type "hybrid", whose score is the
    sum over its results of score times mode weight, plus 0.1 for each
    distinct mode; the weights are 0.4 for "keyword", 0.4 for "semantic",
    0.2 for "concept" and 0.3 for any other tag.  A document found by
    the keyword retriever with score 0.5 and by the concept retriever
    with score 0.3 gets 0.5 * 0.4 + 0.3 * 0.2 + 2 * 0.1 = 0.46. *)
Theorem hybrid_merge_scores :
  (forall (results : list SearchResult) (d : Z),
      NoDup (map (fun r => (d_id (document r), search_type r)) results) ->
      let found := List.filter (doc_is d) results in
      let modes : gset string := list_to_set (map search_type found) in
      let merged := List.filter (doc_is d) (_merge_search_results results "hybrid") in
      (size modes = 1%nat -> exists r, found = [r] /\ merged = [r])
      /\ ((1 < size modes)%nat ->
          exists m, merged = [m]
                    /\ search_type m = "hybrid"
                    /\ score m ==
                       total (map (fun r => score r * weight (search_type r)) found)
                       + Qnat (size modes) * 0.1))
  /\ (weight "keyword" = 0.4 /\ weight "semantic" = 0.4 /\ weight "concept" = 0.2
      /\ forall tag, tag <> "keyword" -> tag <> "semantic" -> tag <> "concept" ->
                     weight tag = 0.3)
  /\ (exists m, List.filter (doc_is 1) (_merge_search_results Example.hybrid_results "hybrid")
                = [m]
                /\ score m == 0.46)
  /\ List.filter (doc_is 2) (_merge_search_results Example.hybrid_results "hybrid")
     = [Example.result Example.doc_long 0.5 "keyword"].
Proof.
  split; [| split; [| split]].
  - intros results d Hnd found modes merged.
    assert (Hsize : size modes = length found).
    { unfold modes. rewrite size_list_to_set by (apply modes_distinct, Hnd).
      apply length_map. }
    assert (Hmerged : merged = merge_group found) by apply merged_entry.
    assert (Hmodes : modes = list_to_set (map search_type found)) by reflexivity.
    clearbody found modes merged. rewrite Hsize. split.
    + intros Hlen. destruct found as [|r [|r2 found]]; simpl in Hlen; try lia.
      exists r. split; [reflexivity | exact Hmerged].
    + intros Hlen. destruct found as [|r1 [|r2 found]]; simpl in Hlen; try lia.
      rewrite Hmerged. unfold merge_group, combine. eexists. split; [reflexivity |].
      split; [reflexivity |]. cbn [score].
      rewrite <- Hsize, Hmodes.
      rewrite (RelevanceFacts.fold_left_add (fun r => score r * weight (search_type r))).
      ring.
  - repeat split. intros tag H1 H2 H3. unfold weight.
    destruct (String.eqb_spec tag "keyword"); [contradiction |].
    destruct (String.eqb_spec tag "semantic"); [contradiction |].
    destruct (String.eqb_spec tag "concept"); [contradiction | reflexivity].
  - eexists. split; [vm_compute; reflexivity | vm_compute; reflexivity].
  - vm_compute. reflexivity.
Qed.

Lemma hybrid_merge_scores_witness :
  NoDup (map (fun r => (d_id (document r), search_type r)) Example.hybrid_results)
  /\ (1 < size (list_to_set
                 (map search_type (List.filter (doc_is 1) Example.hybrid_results))
               : gset string))%nat
  /\ exists m,
      List.filter (doc_is 1) (_merge_search_results Example.hybrid_results "hybrid") = [m]
      /\ search_type m = "hybrid"
      /\ score m ==
         total (map (fun r => score r * weight (search_type r))
                    (List.filter (doc_is 1) Example.hybrid_results))
         + Qnat (size (list_to_set
                         (map search_type (List.filter (doc_is 1) Example.hybrid_results))
                       : gset string)) * 0.1.
Proof.
  assert (Hnd : NoDup (map (fun r => (d_id (document r), search_type r))
                           Example.hybrid_results)).
  { refine (bool_decide_unpack _ _). vm_compute. exact I. }
  assert (Hsize : (1 < size (list_to_set
                               (map search_type
                                    (List.filter (doc_is 1) Example.hybrid_results))
                             : gset string))%nat).
  { vm_compute. lia. }
  split; [exact Hnd | split; [exact Hsize |]].
  exact (proj2 (proj1 hybrid_merge_scores Example.hybrid_results 1%Z Hnd) Hsize).
Defined.

(** The document found by the keyword retriever with score 0.5 and by the
    concept retriever with score 0.3 gets 0.46, not 0.36: the bonus is 0.1
    for each of its two modes. *)
Lemma hybrid_merge_example_not_0_36 :
  exists m,
    List.filter (doc_is 1) (_merge_search_results Example.hybrid_results "hybrid") = [m]
    /\ score m == 0.46
    /\ ~ score m == 0.36.
Proof.
  eexists. split; [vm_compute; reflexivity |].
  split; [vm_compute; reflexivity | vm_compute; discriminate].
Qed.

End FusionFacts.

(** ** The retrievers *)

Module EngineFacts.
Import SearchEngine Spec.

Section WithExternal.
Context `{External}.

Lemma fold_insert_lookup (l : list (Z * Q)) (m : gmap Z Q) (k : Z) :
  is_Some (fold_left (fun m p => <[ fst p := snd p ]> m) l m !! k) ->
  is_Some (m !! k) \/ In k (map fst l).
Proof.
  revert m. induction l as [|[i q] l IH]; intros m; simpl; [auto |].
  intros Hk. destruct (IH _ Hk) as [Hm | Hl]; [| auto].
  destruct (decide (i = k)) as [-> | Hne]; [auto |].
  rewrite lookup_insert_ne in Hm by exact Hne. auto.
Qed.

(** A document id has an entry in the similarity dictionary only if it
    is one of the ids stored with the index. *)
Lemma doc_similarities_lookup (ids : list Z) (similarities : list Q)
      (sims : gmap Z Q) (k : Z) :
  doc_similarities ids similarities = Some sims ->
  is_Some (sims !! k) -> In k ids.
Proof.
  unfold doc_similarities.
  destruct (Nat.leb_spec (length ids) (length similarities)) as [Hlen | Hlen];
    [| discriminate].
  intros [= <-] Hk. apply fold_insert_lookup in Hk as [Hk | Hk].
  - rewrite lookup_empty in Hk. destruct Hk as [? Hk]. discriminate.
  - change (map fst (zip ids similarities)) with ((zip ids similarities).*1) in Hk.
    rewrite fst_zip in Hk by exact Hlen. exact Hk.
Qed.

Lemma tfidf_ranking_inv (e : t) (vectorizer : Vectorizer) (matrix : Matrix)
      (documents : list Document) (query : string)
      (results : list SearchResult) (r : SearchResult) :
  tfidf_ranking e vectorizer matrix documents query = Some results ->
  In r results ->
  In (document r) documents
  /\ In (d_id (document r)) (doc_ids e)
  /\ 0.01 < score r.
Proof.
  unfold tfidf_ranking.
  destruct (tfidf_similarities vectorizer matrix query) as [similarities |];
    [| discriminate].
  destruct (doc_similarities (doc_ids e) similarities) as [sims |] eqn:Hsims;
    [| discriminate].
  intros [= <-] Hr. apply in_flat_map in Hr as [doc [Hdoc Hr]].
  destruct (Qlt_le_dec 0.01 (default 0 (sims !! d_id doc))) as [Hlt | Hle];
    [| destruct Hr].
  destruct Hr as [<- | []]. simpl. split; [exact Hdoc | split; [| exact Hlt]].
  apply (doc_similarities_lookup _ _ _ _ Hsims).
  destruct (sims !! d_id doc) as [q |]; [eauto |].
  simpl in Hlt. exfalso. revert Hlt. apply Qle_not_lt. discriminate.
Qed.

(** The ids stored with the index are those of the documents that were
    completed and had content when the index was built. *)
Lemma build_search_index_doc_ids (loaded_model : option Model) (db0 : Db) (e : t) (i : Z) :
  build_search_index loaded_model db0 = Some e ->
  In i (doc_ids e) ->
  exists d0, In d0 (documents db0) /\ d_id d0 = i
             /\ completed d0 = true /\ PyStr.truthy (d_content d0) = true.
Proof.
  unfold build_search_index.
  destruct (List.filter completed (documents db0)) as [|d1 ds] eqn:Hdocs.
  { intros [= <-] []. }
  set (indexed := List.filter (fun doc => PyStr.truthy (d_content doc)) (d1 :: ds)).
  destruct (map (fun doc => default "" (d_content doc)) indexed) as [|c cs].
  { intros [= <-] []. }
  destruct (fit_transform (c :: cs)) as [[vectorizer matrix] |]; [| discriminate].
  intros [= <-]. simpl. intros Hi.
  apply in_map_iff in Hi as [d0 [Hid Hd0]].
  subst indexed. apply filter_In in Hd0 as [Hd0 Hcontent].
  rewrite <- Hdocs in Hd0. apply filter_In in Hd0 as [Hd0 Hcompleted].
  exists d0. auto.
Qed.

(** C10 (snapshot of the term index).  When the term index exists and
    the TF-IDF ranking runs without raising, every document that
    [_keyword_search] returns was completed, with content, when the index
    was built: its id is one of [doc_ids].  A document that is not in
    that snapshot has no entry in the similarity dictionary, gets the
    default 0.0, which is below the threshold 0.01, and is not returned,
    whether or not it passed the substring pre-filter. *)
Theorem keyword_search_snapshot
        (loaded_model : option Model) (db0 db : Db) (e : t)
        (vectorizer : Vectorizer) (matrix : Matrix) (similarities : list Q)
        (query : string) (filters : option Filters) (limit : Z) :
  build_search_index loaded_model db0 = Some e ->
  tfidf_vectorizer e = Some vectorizer ->
  tfidf_matrix e = Some matrix ->
  tfidf_similarities vectorizer matrix query = Some similarities ->
  (length (doc_ids e) <= length similarities)%nat ->
  (forall r, In r (_keyword_search e db query filters limit) ->
             In (d_id (document r)) (doc_ids e)
             /\ (exists d0, In d0 (documents db0) /\ d_id d0 = d_id (document r)
                            /\ completed d0 = true
                            /\ PyStr.truthy (d_content d0) = true)
             /\ 0.01 < score r)
  /\ (forall doc, In doc (keyword_candidates db query filters limit) ->
                  ~ In (d_id doc) (doc_ids e) ->
                  (exists sims, doc_similarities (doc_ids e) similarities = Some sims
                                /\ default 0 (sims !! d_id doc) = 0)
                  /\ forall r, In r (_keyword_search e db query filters limit) ->
                               d_id (document r) <> d_id doc).
Proof.
  intros Hbuild Hv Hm Hsim Hlen.
  assert (Hsims : exists sims, doc_similarities (doc_ids e) similarities = Some sims).
  { unfold doc_similarities. apply Nat.leb_le in Hlen. rewrite Hlen. eauto. }
  destruct Hsims as [sims Hsims].
  assert (Hresults :
            forall r, In r (_keyword_search e db query filters limit) ->
                      In (d_id (document r)) (doc_ids e) /\ 0.01 < score r).
  { intros r Hr. unfold _keyword_search in Hr. rewrite Hv, Hm in Hr.
    destruct (tfidf_ranking e vectorizer matrix
                            (keyword_candidates db query filters limit) query)
      as [results |] eqn:Hrank.
    - apply (Permutation_in _ (FusionFacts.sorted_desc_perm score results)) in Hr.
      destruct (tfidf_ranking_inv _ _ _ _ _ _ _ Hrank Hr) as (_ & Hid & Hscore). auto.
    - unfold tfidf_ranking in Hrank. rewrite Hsim, Hsims in Hrank. discriminate. }
  split.
  - intros r Hr. destruct (Hresults r Hr) as [Hid Hscore].
    split; [exact Hid | split; [| exact Hscore]].
    exact (build_search_index_doc_ids _ _ _ _ Hbuild Hid).
  - intros doc Hdoc Hnew. split.
    + exists sims. split; [exact Hsims |].
      destruct (sims !! d_id doc) as [q |] eqn:Hq; [| reflexivity].
      exfalso. apply Hnew. apply (doc_similarities_lookup _ _ _ _ Hsims). eauto.
    + intros r Hr Heq. apply Hnew. rewrite <- Heq. apply (Hresults r Hr).
Qed.








End WithExternal.

Lemma keyword_search_snapshot_witness :
  In (d_id Example.doc_short) (SearchEngine.doc_ids Example.engine)
  /\ (forall r, In r (_keyword_search Example.engine Example.db_later "usability" None 20) ->
                d_id (document r) <> d_id Example.doc_long)
  /\ In Example.doc_long
        (keyword_candidates (H := Example.external) Example.db_later "usability" None 20).
Proof.
  pose proof (keyword_search_snapshot
                (H := Example.external) None Example.db_at_build Example.db_later
                Example.engine tt ["usability of forms. Usability!"] [0.5]
                "usability" None 20
                eq_refl eq_refl eq_refl eq_refl (le_n 1)) as [Hin Hout].
  assert (Hcand : In Example.doc_long
                     (keyword_candidates (H := Example.external)
                                         Example.db_later "usability" None 20)).
  { vm_compute. right. left. reflexivity. }
  split; [| split; [| exact Hcand]].
  - apply (Hin (Example.result Example.doc_short 0.5 "keyword")).
    vm_compute. left. reflexivity.
  - apply (Hout Example.doc_long Hcand). vm_compute. intros [H1 | []]. discriminate.
Defined.



End EngineFacts.

(** * Properties of further parts of the code *)

(** ** Ranked results *)

Module RankingFacts.
Import SearchEngine Spec Ranking.

Lemma insert_desc_In {A} (key : A -> Q) (x a : A) (l : list A) :
  In a (insert_desc key x l) <-> a = x \/ In a l.
Proof.
  split.
  - intros H. apply (Permutation_in _ (FusionFacts.insert_desc_perm key x l)) in H.
    destruct H as [<- | H]; auto.
  - intros H. apply (Permutation_in _ (Permutation_sym (FusionFacts.insert_desc_perm key x l))).
    destruct H as [-> | H]; [left; reflexivity | right; exact H].
Qed.

Lemma insert_desc_descending {A} (key : A -> Q) (x : A) (l : list A) :
  descending key l -> descending key (insert_desc key x l).
Proof.
  unfold descending. induction l as [|y l IH]; intros Hs; simpl.
  - repeat constructor.
  - apply StronglySorted_inv in Hs as [Hl Hy].
    destruct (Qle_bool (key y) (key x)) eqn:E.
    + apply Qle_bool_iff in E. constructor; [constructor; assumption |].
      constructor; [exact E |].
      rewrite Forall_forall in Hy |- *. intros b Hb.
      apply Qle_trans with (key y); [apply Hy, Hb | exact E].
    + assert (Hlt : key x < key y).
      { apply Qnot_le_lt. intros Hle. apply Qle_bool_iff in Hle. congruence. }
      constructor; [apply IH, Hl |].
      rewrite Forall_forall in Hy |- *. intros b Hb.
      apply list_elem_of_In, insert_desc_In in Hb as [-> | Hb].
      * apply Qlt_le_weak, Hlt.
      * apply Hy, list_elem_of_In, Hb.
Qed.

(** Python's [sorted(..., reverse=True)] as modelled: the output is in
    descending order. *)
Lemma sorted_desc_descending {A} (key : A -> Q) (l : list A) :
  descending key (sorted_desc key l).
Proof.
  unfold sorted_desc. induction l as [|x l IH]; simpl.
  - constructor.
  - apply insert_desc_descending, IH.
Qed.

Lemma insert_desc_with_key {A} (key : A -> Q) (q : Q) (x : A) (l : list A) :
  with_key key q (insert_desc key x l) = with_key key q (x :: l).
Proof.
  unfold with_key. induction l as [|y l IH]; simpl; [reflexivity |].
  destruct (Qle_bool (key y) (key x)) eqn:E; [reflexivity |].
  simpl. rewrite IH. simpl.
  destruct (Qeq_bool (key x) q) eqn:Ex; [| reflexivity].
  destruct (Qeq_bool (key y) q) eqn:Ey; [| reflexivity].
  exfalso. apply Qeq_bool_iff in Ex, Ey.
  assert (Hle : key y <= key x) by (rewrite Ex, Ey; apply Qle_refl).
  apply Qle_bool_iff in Hle. congruence.
Qed.

(** ... and entries with equal keys keep their order. *)
Lemma sorted_desc_stable {A} (key : A -> Q) (q : Q) (l : list A) :
  with_key key q (sorted_desc key l) = with_key key q l.
Proof.
  unfold sorted_desc. induction l as [|x l IH]; simpl; [reflexivity |].
  rewrite insert_desc_with_key. unfold with_key in *. simpl. rewrite IH. reflexivity.
Qed.

Lemma In_take_sub {A} (n : nat) (l : list A) (a : A) : In a (take n l) -> In a l.
Proof.
  revert n. induction l as [|x l IH]; intros [|n]; simpl; try tauto.
  intros [-> | H]; [auto | right; exact (IH _ H)].
Qed.

Lemma descending_take {A} (key : A -> Q) (n : nat) (l : list A) :
  descending key l -> descending key (take n l).
Proof.
  unfold descending. revert n. induction l as [|x l IH]; intros [|n] Hs; simpl;
    try constructor.
  - apply IH. apply StronglySorted_inv in Hs. tauto.
  - apply StronglySorted_inv in Hs as [_ Hx].
    rewrite Forall_forall in Hx |- *. intros b Hb. apply Hx.
    apply list_elem_of_In. apply list_elem_of_In in Hb. exact (In_take_sub _ _ _ Hb).
Qed.

End RankingFacts.

(** ** What [search_documents] returns *)

Module ResultFacts.
Import SearchEngine Spec Grouping Ranking.

Lemma py_slice_to_sub {A} (n : Z) (l : list A) (a : A) : In a (py_slice_to n l) -> In a l.
Proof. unfold py_slice_to. destruct (0 <=? n)%Z; apply RankingFacts.In_take_sub. Qed.

Lemma sql_limit_sub {A} (n : Z) (l : list A) (a : A) : In a (sql_limit n l) -> In a l.
Proof. unfold sql_limit. destruct (n <? 0)%Z; [auto | apply RankingFacts.In_take_sub]. Qed.

Lemma descending_py_slice {A} (key : A -> Q) (n : Z) (l : list A) :
  descending key l -> descending key (py_slice_to n l).
Proof. unfold py_slice_to. destruct (0 <=? n)%Z; apply RankingFacts.descending_take. Qed.

Lemma py_slice_to_length {A} (n : Z) (l : list A) :
  (0 <= n)%Z -> (length (py_slice_to n l) <= Z.to_nat n)%nat.
Proof.
  intros Hn. unfold py_slice_to. apply Z.leb_le in Hn. rewrite Hn.
  rewrite length_take. lia.
Qed.

Lemma sql_limit_length {A} (n : Z) (l : list A) :
  (0 <= n)%Z -> (length (sql_limit n l) <= Z.to_nat n)%nat.
Proof.
  intros Hn. unfold sql_limit. destruct (Z.ltb_spec n 0); [lia |].
  rewrite length_take. lia.
Qed.

Lemma merge_other_mode (results : list SearchResult) (search_type : string) :
  search_type <> "hybrid" -> _merge_search_results results search_type = results.
Proof.
  intros Hne. unfold _merge_search_results.
  destruct (String.eqb_spec search_type "hybrid"); [contradiction | reflexivity].
Qed.

Lemma merge_group_document (g : list SearchResult) (r : SearchResult) :
  In r (merge_group g) -> exists r0, In r0 g /\ document r = document r0.
Proof.
  unfold merge_group, combine. destruct g as [|r1 [|r2 g]]; simpl.
  - intros [].
  - intros [<- | []]. eauto.
  - intros [<- | []]. simpl. eauto.
Qed.

Lemma merge_group_nil (g : list SearchResult) : merge_group g = [] <-> g = [].
Proof.
  unfold merge_group, combine. destruct g as [|r1 [|r2 g]]; simpl; split; congruence.
Qed.

(** Each merged entry carries the document of one of the results. *)
Lemma merge_results_document (results : list SearchResult) (search_type : string)
      (r : SearchResult) :
  In r (_merge_search_results results search_type) ->
  exists r0, In r0 results /\ document r = document r0.
Proof.
  destruct (String.eqb_spec search_type "hybrid") as [-> | Hne].
  - intros Hr.
    assert (Hf : In r (List.filter (doc_is (d_id (document r)))
                                   (_merge_search_results results "hybrid"))).
    { apply filter_In. split; [exact Hr | apply Z.eqb_refl]. }
    rewrite FusionFacts.merged_entry in Hf.
    apply merge_group_document in Hf as [r0 [Hr0 Hdoc]].
    apply filter_In in Hr0 as [Hr0 _]. eauto.
  - rewrite merge_other_mode by exact Hne. eauto.
Qed.

Section WithExternal.
Context `{External}.

Lemma keyword_search_descending (e : t) (db : Db) (query : string)
      (filters : option Filters) (limit : Z) :
  descending score (_keyword_search e db query filters limit).
Proof. apply RankingFacts.sorted_desc_descending. Qed.

Lemma semantic_search_descending (e : t) (db : Db) (query : string)
      (filters : option Filters) (limit : Z) :
  descending score (_semantic_search e db query filters limit).
Proof.
  unfold _semantic_search.
  destruct (embedding_model e); [| constructor].
  destruct (document_embeddings e); [constructor |].
  apply RankingFacts.sorted_desc_descending.
Qed.

Lemma concept_search_descending (db : Db) (query : string)
      (filters : option Filters) (limit : Z) :
  descending score (_concept_search db query filters limit).
Proof.
  unfold _concept_search. destruct (List.filter _ (concepts db)); [constructor |].
  apply RankingFacts.sorted_desc_descending.
Qed.

(** X1.  In every mode [search_documents] returns its results in
    descending order of score, and at most [limit] of them when [limit]
    is not negative. *)
Theorem search_results_ranked_and_bounded
        (e : t) (db : Db) (query search_type : string)
        (filters : option Filters) (limit : Z) :
  descending score (snd (search_documents e db query search_type filters limit))
  /\ ((0 <= limit)%Z ->
      (length (snd (search_documents e db query search_type filters limit))
       <= Z.to_nat limit)%nat).
Proof.
  unfold search_documents.
  destruct (PyStr.is_empty (PyStr.strip query)).
  { simpl. split; [constructor | lia]. }
  pose proof (keyword_search_descending e db query filters limit) as Hkw.
  pose proof (semantic_search_descending e db query filters limit) as Hsem.
  pose proof (concept_search_descending db query filters limit) as Hcs.
  set (kw := _keyword_search e db query filters limit) in *.
  set (sem := _semantic_search e db query filters limit) in *.
  set (cs := _concept_search db query filters limit) in *.
  assert (Hmain :
            forall R, (search_type <> "hybrid" -> descending score R) ->
                      descending score
                        (py_slice_to limit (_merge_search_results R search_type))
                      /\ ((0 <= limit)%Z ->
                          (length (py_slice_to limit (_merge_search_results R search_type))
                           <= Z.to_nat limit)%nat)).
  { intros R HR. split; [| apply py_slice_to_length].
    apply descending_py_slice.
    destruct (String.eqb_spec search_type "hybrid") as [-> | Hne].
    - unfold _merge_search_results. simpl. apply RankingFacts.sorted_desc_descending.
    - rewrite merge_other_mode by exact Hne. auto. }
  unfold str_in. simpl existsb.
  destruct (String.eqb_spec search_type "hybrid") as [-> | Hh].
  - simpl. destruct (bool_decide (is_Some (embedding_model e)));
      simpl; apply Hmain; intros Hc; contradiction.
  - destruct (String.eqb_spec search_type "keyword") as [Ek | Hk];
      destruct (String.eqb_spec search_type "semantic") as [Es | Hs];
      destruct (String.eqb_spec search_type "concept") as [Ec | Hc];
      try (exfalso; congruence);
      destruct (bool_decide (is_Some (embedding_model e)));
      simpl; apply Hmain; intros _; rewrite ?app_nil_r; try assumption; constructor.
Qed.

End WithExternal.

Lemma search_results_ranked_and_bounded_witness :
  (0 <= 1)%Z
  /\ (length (snd (search_documents (H := Example.external) Example.engine Example.db_later
                                    "usability" "hybrid" None 1))
      <= Z.to_nat 1)%nat.
Proof.
  split; [lia |].
  apply (search_results_ranked_and_bounded
           (H := Example.external) Example.engine Example.db_later
           "usability" "hybrid" None 1).
  lia.
Defined.

End ResultFacts.

(** ** One merged entry per document *)

Module FusionEntryFacts.
Import SearchEngine Spec Grouping Ranking.

Lemma filter_doc_In (d : Z) (l : list SearchResult) :
  In d (doc_ids_of l) <-> List.filter (doc_is d) l <> [].
Proof.
  unfold doc_ids_of. induction l as [|r l IH]; simpl; [tauto |].
  unfold doc_is at 1. destruct (Z.eqb_spec (d_id (document r)) d) as [Hd | Hd].
  - split; [discriminate | auto].
  - rewrite <- IH. tauto.
Qed.

Lemma NoDup_by_filter (l : list SearchResult) :
  (forall d, (length (List.filter (doc_is d) l) <= 1)%nat) -> NoDup (doc_ids_of l).
Proof.
  unfold doc_ids_of. induction l as [|r l IH]; intros Hlen; simpl; [constructor |].
  apply NoDup_cons. split.
  - intros Hin. apply list_elem_of_In, filter_doc_In in Hin.
    specialize (Hlen (d_id (document r))). simpl in Hlen.
    unfold doc_is at 1 in Hlen. rewrite Z.eqb_refl in Hlen. simpl in Hlen.
    destruct (List.filter (doc_is (d_id (document r))) l); [congruence | simpl in Hlen; lia].
  - apply IH. intros d. specialize (Hlen d). simpl in Hlen.
    destruct (doc_is d r); simpl in Hlen; lia.
Qed.

(** X2.  The hybrid merge lists every document that some retriever found,
    each exactly once, and no other document. *)
Theorem hybrid_merge_one_entry_per_document (results : list SearchResult) :
  NoDup (doc_ids_of (_merge_search_results results "hybrid"))
  /\ (forall d, In d (doc_ids_of (_merge_search_results results "hybrid"))
                <-> In d (doc_ids_of results))
  /\ (length (_merge_search_results results "hybrid") <= length results)%nat.
Proof.
  assert (Hnd : NoDup (doc_ids_of (_merge_search_results results "hybrid"))).
  { apply NoDup_by_filter. intros d. rewrite FusionFacts.merged_entry.
    apply FusionFacts.merge_group_short. }
  assert (Hiff : forall d, In d (doc_ids_of (_merge_search_results results "hybrid"))
                           <-> In d (doc_ids_of results)).
  { intros d. rewrite !filter_doc_In, FusionFacts.merged_entry.
    rewrite ResultFacts.merge_group_nil. reflexivity. }
  split; [exact Hnd | split; [exact Hiff |]].
  assert (Hlen : (length (doc_ids_of (_merge_search_results results "hybrid"))
                  <= length (doc_ids_of results))%nat).
  { apply NoDup_incl_length.
    - apply NoDup_ListNoDup, Hnd.
    - intros d Hd. apply Hiff, Hd. }
  unfold doc_ids_of in Hlen. rewrite !length_map in Hlen. exact Hlen.
Qed.

End FusionEntryFacts.

(** ** The retrievers read the store *)

Module RetrieverFacts.
Import SearchEngine Spec Grouping Ranking.

Section WithExternal.
Context `{External}.

(** What the candidate query of [_keyword_search] selects. *)
Lemma keyword_candidates_inv (db : Db) (query : string) (filters : option Filters)
      (limit : Z) (d : Document) :
  In d (keyword_candidates db query filters limit) ->
  In d (documents db)
  /\ completed d = true
  /\ passes db filters d = true
  /\ forall term, In term (PyStr.split (PyStr.lower query)) ->
                  ilike (d_title d) term || ilike (d_content d) term
                  || ilike (d_summary d) term = true.
Proof.
  unfold keyword_candidates. intros Hd.
  apply ResultFacts.sql_limit_sub, filter_In in Hd as [Hd Hb].
  apply andb_true_iff in Hb as [Hb Hterms]. apply andb_true_iff in Hb as [Hc Hp].
  repeat split; try assumption.
  intros term Hterm. rewrite forallb_forall in Hterms. exact (Hterms term Hterm).
Qed.

Lemma keyword_search_inv (e : t) (db : Db) (query : string) (filters : option Filters)
      (limit : Z) (r : SearchResult) :
  In r (_keyword_search e db query filters limit) ->
  In (document r) (keyword_candidates db query filters limit)
  /\ search_type r = "keyword".
Proof.
  unfold _keyword_search. intros Hr.
  apply (Permutation_in _ (FusionFacts.sorted_desc_perm score _)) in Hr.
  assert (Hsimple : In r (simple_ranking (keyword_candidates db query filters limit) query) ->
                    In (document r) (keyword_candidates db query filters limit)
                    /\ search_type r = "keyword").
  { unfold simple_ranking. intros Hin. apply in_map_iff in Hin as [d [<- Hd]].
    simpl. auto. }
  destruct (tfidf_vectorizer e) as [vectorizer |]; [| auto].
  destruct (tfidf_matrix e) as [matrix |]; [| auto].
  destruct (tfidf_ranking e vectorizer matrix _ query) as [results |] eqn:Hrank; [| auto].
  unfold tfidf_ranking in Hrank.
  destruct (tfidf_similarities vectorizer matrix query); [| discriminate].
  destruct (doc_similarities (doc_ids e) l); [| discriminate].
  injection Hrank as <-. apply in_flat_map in Hr as [d [Hd Hr]].
  destruct (Qlt_le_dec 0.01 _); [| destruct Hr].
  destruct Hr as [<- | []]. simpl. auto.
Qed.

Lemma semantic_search_inv (e : t) (db : Db) (query : string) (filters : option Filters)
      (limit : Z) (r : SearchResult) :
  In r (_semantic_search e db query filters limit) ->
  In (document r) (documents db)
  /\ passes db filters (document r) = true
  /\ search_type r = "semantic".
Proof.
  unfold _semantic_search.
  destruct (embedding_model e) as [model |]; [| intros []].
  destruct (document_embeddings e) as [|p ps]; [intros [] |].
  intros Hr. apply (Permutation_in _ (FusionFacts.sorted_desc_perm score _)) in Hr.
  destruct (encode model query) as [query_embedding |]; [| destruct Hr].
  destruct (map fst _) as [|i ids] eqn:Htop; [destruct Hr |].
  apply in_map_iff in Hr as [d [<- Hd]]. simpl.
  apply filter_In in Hd as [Hd Hb]. apply andb_true_iff in Hb as [_ Hp]. auto.
Qed.

Lemma concept_search_inv (db : Db) (query : string) (filters : option Filters)
      (limit : Z) (r : SearchResult) :
  In r (_concept_search db query filters limit) ->
  In (document r) (documents db)
  /\ completed (document r) = true
  /\ passes db filters (document r) = true
  /\ search_type r = "concept".
Proof.
  unfold _concept_search.
  destruct (List.filter _ (concepts db)) as [|c cs]; [intros [] |].
  intros Hr. apply (Permutation_in _ (FusionFacts.sorted_desc_perm score _)) in Hr.
  apply in_map_iff in Hr as [[[d n] avg] [<- Hrow]]. simpl.
  apply ResultFacts.sql_limit_sub in Hrow.
  apply (Permutation_in _ (FusionFacts.sorted_desc_perm _ _)) in Hrow.
  apply in_flat_map in Hrow as [d0 [Hd0 Hrow]].
  destruct (List.filter _ (document_concepts db)); [destruct Hrow |].
  destruct (completed d0 && passes db filters d0) eqn:Hb; [| destruct Hrow].
  destruct Hrow as [[= <- _ _] | []].
  apply andb_true_iff in Hb as [Hc Hp]. auto.
Qed.

(** Every result of [search_documents] carries the document of a result
    of one of the three retrievers. *)
Lemma search_documents_sources (e : t) (db : Db) (query search_type : string)
      (filters : option Filters) (limit : Z) (r : SearchResult) :
  In r (snd (search_documents e db query search_type filters limit)) ->
  exists r0, document r = document r0
             /\ (In r0 (_keyword_search e db query filters limit)
                 \/ In r0 (_semantic_search e db query filters limit)
                 \/ In r0 (_concept_search db query filters limit)).
Proof.
  unfold search_documents.
  destruct (PyStr.is_empty (PyStr.strip query)); [intros [] |].
  destruct (str_in search_type ["keyword"; "hybrid"]);
    destruct (str_in search_type ["semantic"; "hybrid"]
              && bool_decide (is_Some (embedding_model e)));
    destruct (str_in search_type ["concept"; "hybrid"]);
    simpl; intros Hr;
    apply ResultFacts.py_slice_to_sub, ResultFacts.merge_results_document in Hr
      as [r0 [Hr0 Hdoc]];
    exists r0; (split; [exact Hdoc |]);
    repeat (apply in_app_or in Hr0 as [Hr0 | Hr0]); try tauto; destruct Hr0.
Qed.

(** X3.  Whatever the mode, every result of [search_documents] refers to
    a document that is in the store now and passes the filters of the
    request; the index is never the source of a document. *)
Theorem search_results_from_store
        (e : t) (db : Db) (query search_type : string)
        (filters : option Filters) (limit : Z) (r : SearchResult) :
  In r (snd (search_documents e db query search_type filters limit)) ->
  In (document r) (documents db)
  /\ passes db filters (document r) = true.
Proof.
  intros Hr.
  apply search_documents_sources in Hr as [r0 [-> [Hr0 | [Hr0 | Hr0]]]].
  - apply keyword_search_inv in Hr0 as [Hd _].
    apply keyword_candidates_inv in Hd. tauto.
  - apply semantic_search_inv in Hr0. tauto.
  - apply concept_search_inv in Hr0. tauto.
Qed.

End WithExternal.

Lemma search_results_from_store_witness :
  In (Example.result Example.doc_short 0.5 "keyword")
     (snd (search_documents (H := Example.external) Example.engine Example.db_later
                            "usability" "keyword" None 20))
  /\ In Example.doc_short (documents Example.db_later).
Proof.
  assert (Hin : In (Example.result Example.doc_short 0.5 "keyword")
                   (snd (search_documents (H := Example.external) Example.engine
                                          Example.db_later "usability" "keyword" None 20))).
  { vm_compute. left. reflexivity. }
  split; [exact Hin |].
  exact (proj1 (search_results_from_store
                  (H := Example.external) Example.engine Example.db_later
                  "usability" "keyword" None 20 _ Hin)).
Defined.

End RetrieverFacts.

(** ** The keyword retriever *)

Module KeywordFacts.
Import SearchEngine Spec Grouping Ranking.

Section WithExternal.
Context `{External}.

Lemma tfidf_ranking_length (e : t) (vectorizer : Vectorizer) (matrix : Matrix)
      (documents : list Document) (query : string) (results : list SearchResult) :
  tfidf_ranking e vectorizer matrix documents query = Some results ->
  (length results <= length documents)%nat.
Proof.
  unfold tfidf_ranking.
  destruct (tfidf_similarities vectorizer matrix query) as [similarities |]; [| discriminate].
  destruct (doc_similarities (doc_ids e) similarities) as [sims |]; [| discriminate].
  intros [= <-]. induction documents as [|d ds IH]; simpl; [lia |].
  rewrite length_app. destruct (Qlt_le_dec 0.01 _); simpl; lia.
Qed.

(** X4.  [_keyword_search] returns completed documents only, each of which
    matches every term of the lower-cased query in its title, content or
    summary, and never more than twice [limit] of them. *)
Theorem keyword_search_candidates_only
        (e : t) (db : Db) (query : string) (filters : option Filters) (limit : Z) :
  (forall r, In r (_keyword_search e db query filters limit) ->
             completed (document r) = true
             /\ search_type r = "keyword"
             /\ forall term, In term (PyStr.split (PyStr.lower query)) ->
                             ilike (d_title (document r)) term
                             || ilike (d_content (document r)) term
                             || ilike (d_summary (document r)) term = true)
  /\ ((0 <= limit)%Z ->
      (length (_keyword_search e db query filters limit) <= Z.to_nat (limit * 2))%nat).
Proof.
  split.
  - intros r Hr. apply RetrieverFacts.keyword_search_inv in Hr as [Hd Hty].
    apply RetrieverFacts.keyword_candidates_inv in Hd as (_ & Hc & _ & Hterms). auto.
  - intros Hlimit.
    assert (Hcand : (length (keyword_candidates db query filters limit)
                     <= Z.to_nat (limit * 2))%nat).
    { unfold keyword_candidates. apply ResultFacts.sql_limit_length. lia. }
    unfold _keyword_search.
    rewrite (Permutation_length (FusionFacts.sorted_desc_perm score _)).
    assert (Hsimple : length (simple_ranking (keyword_candidates db query filters limit) query)
                      = length (keyword_candidates db query filters limit)).
    { unfold simple_ranking. apply length_map. }
    destruct (tfidf_vectorizer e) as [vectorizer |]; [| lia].
    destruct (tfidf_matrix e) as [matrix |]; [| lia].
    destruct (tfidf_ranking e vectorizer matrix _ query) as [results |] eqn:Hrank; [| lia].
    apply tfidf_ranking_length in Hrank. lia.
Qed.

(** X5.  Without a term index, or when the TF-IDF ranking raises, the
    keyword retriever returns every candidate document exactly once, scored
    by [_calculate_simple_relevance]; nothing is dropped by a threshold. *)
Theorem keyword_search_fallback
        (e : t) (db : Db) (query : string) (filters : option Filters) (limit : Z) :
  tfidf_vectorizer e = None
  \/ tfidf_matrix e = None
  \/ (forall vectorizer matrix, tfidf_similarities vectorizer matrix query = None) ->
  Permutation
    (map (fun r => (document r, score r)) (_keyword_search e db query filters limit))
    (map (fun d => (d, _calculate_simple_relevance d query))
         (keyword_candidates db query filters limit)).
Proof.
  intros Hoff. unfold _keyword_search.
  rewrite (FusionFacts.sorted_desc_perm score _).
  assert (Hsimple :
            map (fun r => (document r, score r))
                (simple_ranking (keyword_candidates db query filters limit) query)
            = map (fun d => (d, _calculate_simple_relevance d query))
                  (keyword_candidates db query filters limit)).
  { unfold simple_ranking. rewrite map_map. reflexivity. }
  destruct (tfidf_vectorizer e) as [vectorizer |] eqn:Hv; [| rewrite Hsimple; reflexivity].
  destruct (tfidf_matrix e) as [matrix |] eqn:Hm; [| rewrite Hsimple; reflexivity].
  destruct Hoff as [Hoff | [Hoff | Hoff]]; try discriminate.
  unfold tfidf_ranking. rewrite Hoff. rewrite Hsimple. reflexivity.
Qed.

End WithExternal.

Lemma keyword_search_candidates_only_witness :
  (0 <= 20)%Z
  /\ (length (_keyword_search (H := Example.external) Example.engine Example.db_later
                              "usability" None 20) <= Z.to_nat (20 * 2))%nat.
Proof.
  split; [lia |].
  apply (keyword_search_candidates_only
           (H := Example.external) Example.engine Example.db_later "usability" None 20).
  lia.
Defined.

Lemma keyword_search_fallback_witness :
  Permutation
    (map (fun r => (document r, score r))
         (_keyword_search (H := Example.external) Example2.engine_without_index
                          Example.db_later "usability" None 20))
    (map (fun d => (d, _calculate_simple_relevance d "usability"))
         (keyword_candidates (H := Example.external) Example.db_later "usability" None 20)).
Proof.
  apply (keyword_search_fallback
           (H := Example.external) Example2.engine_without_index
           Example.db_later "usability" None 20).
  left. reflexivity.
Defined.

End KeywordFacts.

(** ** The embedding index and the semantic retriever *)

Module SemanticFacts.
Import SearchEngine Spec Grouping Ranking.

Lemma dict_set_keys {V} (k : Z) (v : V) (d : list (Z * V)) :
  map fst (dict_set k v d)
  = if existsb (Z.eqb k) (map fst d) then map fst d else map fst d ++ [k].
Proof.
  induction d as [|[k' v'] d IH]; simpl; [reflexivity |].
  rewrite (Z.eqb_sym k k'). destruct (Z.eqb_spec k' k) as [-> | Hne]; simpl.
  - reflexivity.
  - rewrite IH. destruct (existsb (Z.eqb k) (map fst d)); reflexivity.
Qed.

(** Assigning to a key never makes a key appear twice. *)
Lemma dict_set_NoDup {V} (k : Z) (v : V) (d : list (Z * V)) :
  NoDup (map fst d) -> NoDup (map fst (dict_set k v d)).
Proof.
  intros Hnd. rewrite dict_set_keys.
  destruct (existsb (Z.eqb k) (map fst d)) eqn:E; [exact Hnd |].
  apply NoDup_app. split; [exact Hnd | split; [| apply NoDup_singleton]].
  intros x Hx Hx'. apply list_elem_of_In in Hx, Hx'. destruct Hx' as [<- | []].
  assert (existsb (Z.eqb k) (map fst d) = true); [| congruence].
  apply existsb_exists. exists k. split; [exact Hx | apply Z.eqb_refl].
Qed.

Lemma dict_set_fresh {V} (k : Z) (v : V) (d : list (Z * V)) :
  ~ In k (map fst d) -> dict_set k v d = d ++ [(k, v)].
Proof.
  induction d as [|[k' v'] d IH]; simpl; intros Hk; [reflexivity |].
  destruct (Z.eqb_spec k' k); [tauto |]. rewrite IH by tauto. reflexivity.
Qed.

Lemma dict_of_fold {V} (pairs acc : list (Z * V)) :
  NoDup (map fst (acc ++ pairs)) ->
  fold_left (fun d p => dict_set (fst p) (snd p) d) pairs acc = acc ++ pairs.
Proof.
  revert acc. induction pairs as [|[k v] pairs IH]; intros acc Hnd; simpl.
  - symmetry. apply app_nil_r.
  - assert (Hfresh : ~ In k (map fst acc)).
    { rewrite map_app in Hnd. apply NoDup_app in Hnd as (_ & Hdis & _).
      intros Hin. apply (Hdis k); [apply list_elem_of_In, Hin | simpl; left]. }
    rewrite dict_set_fresh by exact Hfresh.
    rewrite IH; rewrite <- app_assoc; [reflexivity | exact Hnd].
Qed.

(** With distinct keys, [dict(pairs)] is [pairs]. *)
Lemma dict_of_unique {V} (pairs : list (Z * V)) :
  NoDup (map fst pairs) -> dict_of pairs = pairs.
Proof. intros Hnd. unfold dict_of. rewrite dict_of_fold; [reflexivity | exact Hnd]. Qed.

Lemma dict_get_unique {V} (k : Z) (v dflt : V) (d : list (Z * V)) :
  NoDup (map fst d) -> In (k, v) d -> dict_get k dflt d = v.
Proof.
  unfold dict_get. induction d as [|[k' v'] d IH]; simpl; intros Hnd Hin; [destruct Hin |].
  apply NoDup_cons in Hnd as [Hk' Hnd].
  destruct (Z.eqb_spec k' k) as [-> | Hne]; simpl.
  - destruct Hin as [[= ->] | Hin]; [reflexivity |].
    exfalso. apply Hk', list_elem_of_In, in_map_iff. exists (k, v). auto.
  - destruct Hin as [[= -> _] | Hin]; [contradiction | auto].
Qed.

Section WithExternal.
Context `{External}.

Lemma build_embeddings_fold (model : Model) (docs : list Document)
      (acc : list (Z * Embedding)) :
  let step := fun d doc =>
                match d_content doc with
                | Some content =>
                    if PyStr.is_empty content then d
                    else match encode model (PyStr.take 1000 content) with
                         | Some embedding => dict_set (d_id doc) embedding d
                         | None => d
                         end
                | None => d
                end in
  NoDup (map fst acc) ->
  NoDup (map fst (fold_left step docs acc))
  /\ forall i, In i (map fst (fold_left step docs acc)) ->
               In i (map fst acc)
               \/ exists doc, In doc docs /\ d_id doc = i
                              /\ PyStr.truthy (d_content doc) = true
                              /\ is_Some (encode model (PyStr.take 1000
                                                          (default "" (d_content doc)))).
Proof.
  intros step. revert acc. induction docs as [|doc docs IH]; intros acc Hnd; simpl.
  - auto.
  - assert (Hstep : NoDup (map fst (step acc doc))
                    /\ forall i, In i (map fst (step acc doc)) ->
                                 In i (map fst acc)
                                 \/ (d_id doc = i /\ PyStr.truthy (d_content doc) = true
                                     /\ is_Some (encode model
                                                   (PyStr.take 1000
                                                      (default "" (d_content doc)))))).
    { unfold step. destruct (d_content doc) as [content |]; [| auto].
      destruct content as [|c content]; [auto |]. simpl PyStr.is_empty. cbv iota.
      destruct (encode model (PyStr.take 1000 (String c content))) as [emb |] eqn:E;
        [| auto].
      split; [apply dict_set_NoDup, Hnd |].
      intros i Hi. rewrite dict_set_keys in Hi.
      destruct (existsb (Z.eqb (d_id doc)) (map fst acc)); [auto |].
      apply in_app_or in Hi as [Hi | [<- | []]]; [auto |].
      right. split; [reflexivity | split; [reflexivity |]].
      change (default "" (Some (String c content))) with (String c content).
      rewrite E. eauto. }
    destruct Hstep as [Hnd' Hkeys].
    destruct (IH _ Hnd') as [Hnd'' Hkeys''].
    split; [exact Hnd'' |].
    intros i Hi. destruct (Hkeys'' i Hi) as [Hacc | (doc' & Hdoc' & Hrest)].
    + destruct (Hkeys i Hacc) as [Hacc' | Hnew]; [auto |].
      right. exists doc. split; [left; reflexivity | exact Hnew].
    + right. exists doc'. split; [right; exact Hdoc' | exact Hrest].
Qed.

(** X6.  What [build_search_index] leaves in the engine: the model it was
    given; a vectorizer exactly when there is a matrix, and then [doc_ids]
    lists the completed documents with content, in table order; the
    embedding dictionary has one entry per key, each for a completed
    document with content whose encoding succeeded, and is empty without a
    model.  A store without completed documents always gives an engine. *)
Theorem build_search_index_invariants (loaded_model : option Model) (db : Db) :
  (forall e, build_search_index loaded_model db = Some e ->
             embedding_model e = loaded_model
             /\ (is_Some (tfidf_vectorizer e) <-> is_Some (tfidf_matrix e))
             /\ (is_Some (tfidf_vectorizer e) ->
                 doc_ids e
                 = map d_id (List.filter
                               (fun d => completed d && PyStr.truthy (d_content d))
                               (documents db)))
             /\ NoDup (map fst (document_embeddings e))
             /\ (forall i, In i (map fst (document_embeddings e)) ->
                           exists model doc,
                             loaded_model = Some model
                             /\ In doc (documents db) /\ d_id doc = i
                             /\ completed doc = true
                             /\ PyStr.truthy (d_content doc) = true
                             /\ is_Some (encode model
                                           (PyStr.take 1000 (default "" (d_content doc))))))
  /\ (List.filter completed (documents db) = [] ->
      build_search_index loaded_model db
      = Some {| embedding_model := loaded_model; tfidf_vectorizer := None;
                tfidf_matrix := None; doc_ids := []; document_embeddings := [] |}).
Proof.
  split.
  2:{ intros Hnone. unfold build_search_index. rewrite Hnone. reflexivity. }
  intros e. unfold build_search_index.
  destruct (List.filter completed (documents db)) as [|d1 ds] eqn:Hdocs.
  { intros [= <-]. simpl. repeat split; try (intros [? ?]; discriminate).
    - constructor.
    - intros i []. }
  assert (Hemb : let embeddings :=
                     match loaded_model with
                     | Some model => build_embeddings model (d1 :: ds)
                     | None => []
                     end in
                 NoDup (map fst embeddings)
                 /\ forall i, In i (map fst embeddings) ->
                              exists model doc,
                                loaded_model = Some model
                                /\ In doc (documents db) /\ d_id doc = i
                                /\ completed doc = true
                                /\ PyStr.truthy (d_content doc) = true
                                /\ is_Some (encode model
                                              (PyStr.take 1000
                                                 (default "" (d_content doc))))).
  { destruct loaded_model as [model |]; simpl; [| split; [constructor | intros i []]].
    destruct (build_embeddings_fold model (d1 :: ds) [] (NoDup_nil_2)) as [Hnd Hkeys].
    split; [exact Hnd |].
    intros i Hi. destruct (Hkeys i Hi) as [[] | (doc & Hdoc & Hid & Htruthy & Henc)].
    exists model, doc. rewrite <- Hdocs in Hdoc. apply filter_In in Hdoc as [Hdoc Hc].
    auto 10. }
  destruct Hemb as [Hnd Hkeys].
  assert (Hindexed :
            List.filter (fun doc => PyStr.truthy (d_content doc)) (d1 :: ds)
            = List.filter (fun d => completed d && PyStr.truthy (d_content d))
                          (documents db)).
  { rewrite <- Hdocs. clear. induction (documents db) as [|d l IH]; simpl; [reflexivity |].
    destruct (completed d); simpl; [| exact IH].
    destruct (PyStr.truthy (d_content d)); [f_equal |]; exact IH. }
  set (indexed := List.filter (fun doc => PyStr.truthy (d_content doc)) (d1 :: ds)) in *.
  destruct (map (fun doc => default "" (d_content doc)) indexed) as [|c cs] eqn:Hcorpus.
  { intros [= <-]. simpl. repeat split; try (intros [? ?]; discriminate); assumption. }
  destruct (fit_transform (c :: cs)) as [[vectorizer matrix] |]; [| discriminate].
  intros [= <-]. simpl. repeat split; try eauto; try assumption.
  intros _. rewrite Hindexed. reflexivity.
Qed.

Lemma NoDup_map_filter {A B} (f : A -> B) (g : A -> bool) (l : list A) :
  NoDup (map f l) -> NoDup (map f (List.filter g l)).
Proof.
  induction l as [|a l IH]; simpl; intros Hnd; [constructor |].
  apply NoDup_cons in Hnd as [Ha Hnd]. destruct (g a); simpl; [| auto].
  apply NoDup_cons. split; [| auto].
  intros Hin. apply Ha. apply list_elem_of_In, in_map_iff in Hin as [b [Hb Hin]].
  apply list_elem_of_In, in_map_iff. exists b. split; [exact Hb |].
  apply filter_In in Hin. tauto.
Qed.

(** X7.  When the embedding dictionary has one entry per document, every
    result of [_semantic_search] scores the cosine similarity between the
    query's embedding and the stored embedding of its document, and that
    score is above 0.1.  With unique document ids there are at most twice
    [limit] results. *)
Theorem semantic_search_scores
        (e : t) (db : Db) (query : string) (filters : option Filters) (limit : Z) :
  NoDup (map fst (document_embeddings e)) ->
  (forall r, In r (_semantic_search e db query filters limit) ->
             0.1 < score r
             /\ exists model query_embedding embedding,
                 embedding_model e = Some model
                 /\ encode model query = Some query_embedding
                 /\ In (d_id (document r), embedding) (document_embeddings e)
                 /\ score r = cosine_similarity query_embedding embedding)
  /\ ((0 <= limit)%Z -> NoDup (map d_id (documents db)) ->
      (length (_semantic_search e db query filters limit) <= Z.to_nat (limit * 2))%nat).
Proof.
  intros Hnd. unfold _semantic_search.
  destruct (embedding_model e) as [model |]; [| split; [intros r [] | simpl; lia]].
  destruct (document_embeddings e) as [|p ps] eqn:HE; [split; [intros r [] | simpl; lia] |].
  set (E := p :: ps) in *. clearbody E. clear p ps.
  destruct (encode model query) as [qe |] eqn:Hqe; [| split; [intros r [] | simpl; lia]].
  set (sims0 := map (fun p => (fst p, cosine_similarity qe (snd p))) E).
  set (sims := sorted_desc snd sims0).
  assert (Hperm : Permutation sims sims0) by apply FusionFacts.sorted_desc_perm.
  assert (Hkeys : NoDup (map fst sims)).
  { rewrite Hperm. subst sims0. rewrite map_map. simpl. exact Hnd. }
  set (sel := List.filter (fun p : Z * Q => if Qlt_le_dec 0.1 (snd p) then true else false)
                          (py_slice_to (limit * 2) sims)).
  assert (Hsel : forall i, In i (map fst sel) ->
                           exists emb, In (i, emb) E
                                       /\ 0.1 < cosine_similarity qe emb
                                       /\ In (i, cosine_similarity qe emb) sims).
  { intros i Hi. apply in_map_iff in Hi as [[i' q] [Hi Hp]]. simpl in Hi. subst i'.
    apply filter_In in Hp as [Hp Hq]. simpl in Hq.
    destruct (Qlt_le_dec 0.1 q) as [Hlt |]; [| discriminate].
    apply ResultFacts.py_slice_to_sub in Hp.
    pose proof (Permutation_in _ Hperm Hp) as Hp0.
    apply in_map_iff in Hp0 as [[i0 emb] [[= -> <-] Hemb]]. eauto. }
  destruct (map fst sel) as [|i0 ids] eqn:Htop; [split; [intros r [] | simpl; lia] |].
  rewrite <- Htop in *. clear i0 ids Htop.
  split.
  - intros r Hr. apply (Permutation_in _ (FusionFacts.sorted_desc_perm score _)) in Hr.
    apply in_map_iff in Hr as [d [<- Hd]]. simpl.
    apply filter_In in Hd as [_ Hb]. apply andb_true_iff in Hb as [Hin _].
    apply existsb_exists in Hin as [i [Hi Heq]]. apply Z.eqb_eq in Heq. subst i.
    destruct (Hsel _ Hi) as (emb & Hemb & Hlt & Hsim).
    rewrite (dict_of_unique sims Hkeys).
    rewrite (dict_get_unique _ _ 0 sims Hkeys Hsim).
    split; [exact Hlt |]. exists model, qe, emb.
    repeat split; try reflexivity; assumption.
  - intros Hlimit Hids.
    rewrite (Permutation_length (FusionFacts.sorted_desc_perm score _)), length_map.
    set (docs := List.filter _ (documents db)).
    assert (Hlen : (length (map d_id docs) <= length (map fst sel))%nat).
    { apply NoDup_incl_length.
      - apply NoDup_ListNoDup. subst docs. apply NoDup_map_filter, Hids.
      - intros i Hi. apply in_map_iff in Hi as [d [<- Hd]].
        subst docs. apply filter_In in Hd as [_ Hb]. apply andb_true_iff in Hb as [Hin _].
        apply existsb_exists in Hin as [i [Hi Heq]]. apply Z.eqb_eq in Heq. subst i.
        exact Hi. }
    rewrite !length_map in Hlen.
    assert (Hsel_len : (length sel <= Z.to_nat (limit * 2))%nat).
    { subst sel. etransitivity; [apply filter_length_le |].
      apply ResultFacts.py_slice_to_length. lia. }
    lia.
Qed.

End WithExternal.

Lemma semantic_search_scores_witness :
  NoDup (map fst (SearchEngine.document_embeddings Example2.engine_with_model))
  /\ Forall (fun r => 0.1 < score r)
            (_semantic_search (H := Example.external) Example2.engine_with_model
                              Example.db_later "usability" None 20)
  /\ _semantic_search (H := Example.external) Example2.engine_with_model
                      Example.db_later "usability" None 20 <> [].
Proof.
  assert (Hnd : NoDup (map fst (SearchEngine.document_embeddings
                                  Example2.engine_with_model))).
  { refine (bool_decide_unpack _ _). vm_compute. exact I. }
  split; [exact Hnd | split].
  - apply Forall_forall. intros r Hr. apply list_elem_of_In in Hr.
    apply (proj1 (semantic_search_scores
                    (H := Example.external) Example2.engine_with_model
                    Example.db_later "usability" None 20 Hnd) r Hr).
  - vm_compute. discriminate.
Defined.

Lemma build_search_index_invariants_witness :
  SearchEngine.build_search_index (H := Example.external) None Example.db_at_build
  = Some Example.engine
  /\ SearchEngine.doc_ids Example.engine
     = map d_id (List.filter (fun d => completed d && PyStr.truthy (d_content d))
                             (documents Example.db_at_build)).
Proof.
  assert (Hbuild : SearchEngine.build_search_index (H := Example.external)
                                                   None Example.db_at_build
                   = Some Example.engine) by reflexivity.
  split; [exact Hbuild |].
  destruct (proj1 (build_search_index_invariants (H := Example.external)
                                                 None Example.db_at_build)
                  Example.engine Hbuild)
    as (_ & _ & Hids & _).
  apply Hids. simpl. eauto.
Defined.

End SemanticFacts.

(** ** The concept retriever *)

Module ConceptSearchFacts.
Import SearchEngine Spec Grouping Ranking ConceptSearchParts.

Lemma sum_Q_bounds (l : list Q) :
  Forall (fun q => 0 <= q /\ q <= 1) l -> 0 <= sum_Q l /\ sum_Q l <= Qnat (length l).
Proof.
  unfold sum_Q. induction 1 as [|q l [H0 H1] _ [IH0 IH1]]; simpl.
  - change (Qnat 0) with 0. split; lra.
  - assert (Hs : Qnat (S (length l)) == 1 + Qnat (length l)).
    { unfold Qnat. rewrite Nat2Z.inj_succ, <- Z.add_1_l, inject_Z_plus. reflexivity. }
    rewrite Hs. split; lra.
Qed.

Lemma Qnat_pos (n : nat) : (0 < n)%nat -> 0 < Qnat n.
Proof. intros Hn. unfold Qnat. change 0 with (inject_Z 0). rewrite <- Zlt_Qlt. lia. Qed.

Section WithExternal.
Context `{External}.

(** Each result of [_concept_search] stands for one stored document and
    its links to the matched concepts. *)
Lemma concept_search_row (db : Db) (query : string) (filters : option Filters)
      (limit : Z) (r : SearchResult) :
  In r (_concept_search db query filters limit) ->
  matched_links db query (document r) <> []
  /\ matched_concepts r = Some (Z.of_nat (length (matched_links db query (document r))))
  /\ score r
     = (Qnat (length (matched_links db query (document r)))
        * (sum_Q (map dc_relevance_score (matched_links db query (document r)))
           / Qnat (length (matched_links db query (document r)))))
       / Qnat (length (matched_concepts_of db query)).
Proof.
  unfold _concept_search, matched_links.
  fold (matched_concepts_of db query).
  destruct (matched_concepts_of db query) as [|c cs] eqn:Hm; [intros [] |].
  rewrite <- Hm. clear c cs Hm.
  intros Hr. apply (Permutation_in _ (FusionFacts.sorted_desc_perm score _)) in Hr.
  apply in_map_iff in Hr as [[[d n] avg] [<- Hrow]]. simpl.
  apply ResultFacts.sql_limit_sub in Hrow.
  apply (Permutation_in _ (FusionFacts.sorted_desc_perm _ _)) in Hrow.
  apply in_flat_map in Hrow as [d0 [Hd0 Hrow]].
  rewrite length_map.
  destruct (List.filter _ (document_concepts db)) as [|l ls] eqn:Hlinks; [destruct Hrow |].
  destruct (completed d0 && passes db filters d0); [| destruct Hrow].
  destruct Hrow as [[= <- <- <-] | []].
  rewrite Hlinks. split; [discriminate | split; reflexivity].
Qed.

(** X8.  The concept score of a returned document is the total relevance
    of its links to the concepts matching the query, divided by the number
    of matching concepts.  When every stored relevance lies in [0, 1] and
    no document is linked twice to one concept, the score lies in [0, 1].
    A query that matches no concept gives no result. *)
Theorem concept_search_score
        (db : Db) (query : string) (filters : option Filters) (limit : Z) :
  (forall r, In r (_concept_search db query filters limit) ->
             score r
             == sum_Q (map dc_relevance_score (matched_links db query (document r)))
                / Qnat (length (matched_concepts_of db query))
             /\ (Forall (fun l => 0 <= dc_relevance_score l /\ dc_relevance_score l <= 1)
                        (document_concepts db) ->
                 NoDup (map (fun l => (dc_document_id l, dc_concept_id l))
                            (document_concepts db)) ->
                 0 <= score r /\ score r <= 1))
  /\ (matched_concepts_of db query = [] -> _concept_search db query filters limit = []).
Proof.
  split.
  2:{ intros Hnone. unfold _concept_search. fold (matched_concepts_of db query).
      rewrite Hnone. reflexivity. }
  intros r Hr. destruct (concept_search_row db query filters limit r Hr) as (Hne & _ & ->).
  set (links := matched_links db query (document r)) in *.
  set (m := length (matched_concepts_of db query)).
  assert (Hn : 0 < Qnat (length links)).
  { apply Qnat_pos. destruct links; [congruence | simpl; lia]. }
  assert (Hm : 0 < Qnat m).
  { apply Qnat_pos. subst m. destruct links as [|l ls] eqn:El; [congruence |].
    assert (Hl : In l links) by (rewrite El; left; reflexivity).
    unfold links, matched_links in Hl. apply filter_In in Hl as [_ Hl].
    apply andb_true_iff in Hl as [_ Hl]. apply existsb_exists in Hl as [i [Hi _]].
    destruct (matched_concepts_of db query); [destruct Hi | simpl; lia]. }
  assert (Hscore : Qnat (length links)
                   * (sum_Q (map dc_relevance_score links) / Qnat (length links))
                   / Qnat m
                   == sum_Q (map dc_relevance_score links) / Qnat m).
  { field. split; lra. }
  split; [exact Hscore |].
  intros Hrel Hpk. rewrite Hscore.
  assert (Hlinks_rel : Forall (fun q => 0 <= q /\ q <= 1) (map dc_relevance_score links)).
  { apply Forall_forall. intros q Hq. apply list_elem_of_In, in_map_iff in Hq as [l [<- Hl]].
    subst links. unfold matched_links in Hl. apply filter_In in Hl as [Hl _].
    rewrite Forall_forall in Hrel. apply Hrel, list_elem_of_In, Hl. }
  destruct (sum_Q_bounds _ Hlinks_rel) as [Hs0 Hs1]. rewrite length_map in Hs1.
  assert (Hlen : (length links <= m)%nat).
  { subst m. rewrite <- (length_map c_id (matched_concepts_of db query)).
    rewrite <- (length_map dc_concept_id links).
    apply NoDup_incl_length.
    - apply NoDup_ListNoDup.
      apply (RelationFacts.NoDup_map_on
               dc_concept_id (fun l => (dc_document_id l, dc_concept_id l))).
      + intros x y Hx Hy Heq. subst links. unfold matched_links in Hx, Hy.
        apply filter_In in Hx as [_ Hx], Hy as [_ Hy].
        apply andb_true_iff in Hx as [Hx _], Hy as [Hy _].
        apply Z.eqb_eq in Hx, Hy. congruence.
      + subst links. unfold matched_links. apply SemanticFacts.NoDup_map_filter, Hpk.
    - intros i Hi. apply in_map_iff in Hi as [l [<- Hl]].
      subst links. unfold matched_links in Hl. apply filter_In in Hl as [_ Hl].
      apply andb_true_iff in Hl as [_ Hl]. apply existsb_exists in Hl as [i [Hi Heq]].
      apply Z.eqb_eq in Heq. subst i. exact Hi. }
  apply RelevanceFacts.Qnat_le in Hlen.
  split.
  - apply Qle_shift_div_l; [exact Hm | lra].
  - apply Qle_shift_div_r; [exact Hm | lra].
Qed.

End WithExternal.

Lemma concept_search_score_witness :
  Forall (fun l => 0 <= dc_relevance_score l /\ dc_relevance_score l <= 1)
         (document_concepts Example2.db_concepts)
  /\ NoDup (map (fun l => (dc_document_id l, dc_concept_id l))
                (document_concepts Example2.db_concepts))
  /\ Forall (fun r => 0 <= score r /\ score r <= 1)
            (_concept_search (H := Example.external) Example2.db_concepts "usability" None 20)
  /\ length (_concept_search (H := Example.external) Example2.db_concepts
                             "usability" None 20) = 2%nat.
Proof.
  assert (Hrel : Forall (fun l => 0 <= dc_relevance_score l /\ dc_relevance_score l <= 1)
                        (document_concepts Example2.db_concepts)).
  { repeat constructor; simpl; lra. }
  assert (Hpk : NoDup (map (fun l => (dc_document_id l, dc_concept_id l))
                           (document_concepts Example2.db_concepts))).
  { refine (bool_decide_unpack _ _). vm_compute. exact I. }
  split; [exact Hrel | split; [exact Hpk | split; [| reflexivity]]].
  apply Forall_forall. intros r Hr. apply list_elem_of_In in Hr.
  exact (proj2 (proj1 (concept_search_score
                         (H := Example.external) Example2.db_concepts "usability" None 20)
                      r Hr) Hrel Hpk).
Defined.

End ConceptSearchFacts.

(** ** Concept similarity and the relations found from it *)

Module SimilarityFacts.
Import ConceptAnalyzer Spec.

Lemma py_min_le_1 (a : Q) : py_min a 1 <= 1.
Proof. unfold py_min. destruct (Qlt_le_dec 1 a); lra. Qed.

Lemma py_min_nonneg (a : Q) : 0 <= a -> 0 <= py_min a 1.
Proof. unfold py_min. destruct (Qlt_le_dec 1 a); lra. Qed.

Lemma Qnat_nonneg (n : nat) : 0 <= Qnat n.
Proof. unfold Qnat. change 0 with (inject_Z 0). rewrite <- Zle_Qle. lia. Qed.

Lemma Qnat_div_nonneg (n m : nat) : 0 <= Qnat n / Qnat m.
Proof.
  unfold Qdiv. apply Qmult_le_0_compat; [apply Qnat_nonneg |].
  apply Qinv_le_0_compat, Qnat_nonneg.
Qed.

Lemma concept_similarity_sym (db : Db) (c1 c2 : Concept) :
  _calculate_concept_similarity db c1 c2 = _calculate_concept_similarity db c2 c1.
Proof.
  unfold _calculate_concept_similarity. cbv zeta.
  rewrite (String.eqb_sym (c_category c1) (c_category c2)).
  rewrite (andb_comm (negb (bool_decide (name_words (c_name c1) = ∅)))).
  rewrite (comm_L (∩) (name_words (c_name c1)) (name_words (c_name c2))).
  rewrite (comm_L (∪) (name_words (c_name c1)) (name_words (c_name c2))).
  rewrite (comm_L (∩) (document_id_set db c1) (document_id_set db c2)).
  rewrite (Nat.max_comm (length (concept_documents db (c_id c1)))).
  reflexivity.
Qed.

Lemma concept_similarity_range (db : Db) (c1 c2 : Concept) :
  0 <= _calculate_concept_similarity db c1 c2
  /\ _calculate_concept_similarity db c1 c2 <= 1.
Proof.
  unfold _calculate_concept_similarity. cbv zeta.
  split; [| apply py_min_le_1].
  apply py_min_nonneg.
  pose proof (Qnat_div_nonneg (size (name_words (c_name c1) ∩ name_words (c_name c2)))
                              (size (name_words (c_name c1) ∪ name_words (c_name c2))))
    as HJ.
  pose proof (Qnat_div_nonneg
                (size (document_id_set db c1 ∩ document_id_set db c2))
                (Nat.max (length (concept_documents db (c_id c1)))
                         (length (concept_documents db (c_id c2))))) as HD.
  destruct (negb (bool_decide (name_words (c_name c1) = ∅))
            && negb (bool_decide (name_words (c_name c2) = ∅)));
    destruct (String.eqb (c_category c1) (c_category c2));
    destruct (negb (bool_decide (document_id_set db c1 ∩ document_id_set db c2 = ∅)));
    lra.
Qed.

(** X9.  Concept similarity does not depend on the order of the two
    concepts and lies between 0 and 1; the relation type does not depend
    on the order either. *)
Theorem concept_similarity_symmetric_bounded
        (db : Db) (c1 c2 : Concept) (similarity : Q) :
  _calculate_concept_similarity db c1 c2 = _calculate_concept_similarity db c2 c1
  /\ 0 <= _calculate_concept_similarity db c1 c2
  /\ _calculate_concept_similarity db c1 c2 <= 1
  /\ _determine_relation_type c1 c2 similarity = _determine_relation_type c2 c1 similarity.
Proof.
  split; [apply concept_similarity_sym |].
  split; [apply concept_similarity_range |].
  split; [apply concept_similarity_range |].
  unfold _determine_relation_type.
  rewrite (String.eqb_sym (c_category c1) (c_category c2)).
  rewrite (andb_comm (PyStr.contains "design" (c_name c1))).
  reflexivity.
Qed.

(** X10.  Every relation that [find_concept_relations] proposes starts
    at the concept asked about and ends at another stored concept; its
    strength is their similarity, above the threshold and at most 1; its
    type is the one [_determine_relation_type] gives; and no stored
    relation joins the two concepts yet.  An unknown concept id gives no
    relation. *)
Theorem find_concept_relations_sound
        (db : Db) (concept_id : Z) (threshold : Q) :
  (forall r, In r (find_concept_relations db concept_id threshold) ->
             exists concept other,
               get_concept db concept_id = Some concept
               /\ In other (concepts db)
               /\ c_id other <> concept_id
               /\ concept1_id r = concept_id
               /\ concept2_id r = c_id other
               /\ strength r = _calculate_concept_similarity db concept other
               /\ relation_type r = _determine_relation_type concept other (strength r)
               /\ threshold < strength r /\ strength r <= 1
               /\ ~ related (concept_relations db) concept_id (c_id other))
  /\ (get_concept db concept_id = None ->
      find_concept_relations db concept_id threshold = []).
Proof.
  split.
  2:{ intros Hnone. unfold find_concept_relations. rewrite Hnone. reflexivity. }
  intros r Hr. unfold find_concept_relations in Hr.
  destruct (get_concept db concept_id) as [concept |] eqn:Hget; [| destruct Hr].
  apply RelationFacts.get_concept_id in Hget as Hid. destruct Hid as [Hid _].
  apply in_flat_map in Hr as [other [Hother Hr]].
  apply filter_In in Hother as [Hother Hne].
  apply negb_true_iff, Z.eqb_neq in Hne.
  exists concept, other.
  unfold relation_for in Hr.
  destruct (Qlt_le_dec threshold (_calculate_concept_similarity db concept other))
    as [Hlt |]; [| destruct Hr].
  destruct (relation_exists db (c_id concept) (c_id other)) eqn:Hex; [destruct Hr |].
  destruct Hr as [<- | []]. simpl. rewrite Hid in *.
  repeat split; try assumption; try reflexivity.
  - apply concept_similarity_range.
  - intros [r' [Hr' Hj]]. exact (RelationFacts.relation_exists_false _ _ _ Hex r' Hr' Hj).
Qed.

Lemma find_concept_relations_sound_witness :
  In (Example.relation 1 2)
     (map (fun r => Example.relation (concept1_id r) (concept2_id r))
          (find_concept_relations Example.db 1 0.3))
  /\ Forall (fun r => concept1_id r = 1%Z /\ 0.3 < strength r /\ strength r <= 1)
            (find_concept_relations Example.db 1 0.3).
Proof.
  split; [vm_compute; left; reflexivity |].
  apply Forall_forall. intros r Hr. apply list_elem_of_In in Hr.
  destruct (proj1 (find_concept_relations_sound Example.db 1 0.3) r Hr)
    as (concept & other & _ & _ & _ & H1 & _ & _ & _ & Hlt & Hle & _).
  auto.
Defined.

End SimilarityFacts.

(** ** Deduplication of extracted sightings *)

Module DeduplicationFacts.
Import ConceptAnalyzer Deduplication.

Lemma name_dict_set_keys (name : string) (c : ConceptData) (d : list (string * ConceptData)) :
  forall n, In n (map fst (name_dict_set name c d)) <-> n = name \/ In n (map fst d).
Proof.
  induction d as [|[n0 k0] d IH]; intros n; simpl; [intuition |].
  destruct (String.eqb_spec n0 name) as [-> | Hne]; simpl; [intuition |].
  rewrite IH. intuition.
Qed.

Lemma name_dict_set_NoDup (name : string) (c : ConceptData) (d : list (string * ConceptData)) :
  NoDup (map fst d) -> NoDup (map fst (name_dict_set name c d)).
Proof.
  induction d as [|[n0 k0] d IH]; simpl; intros Hnd.
  - apply NoDup_singleton.
  - apply NoDup_cons in Hnd as [Hn0 Hnd].
    destruct (String.eqb_spec n0 name) as [-> | Hne]; simpl.
    + apply NoDup_cons. auto.
    + apply NoDup_cons. split; [| auto].
      intros Hin. apply list_elem_of_In, name_dict_set_keys in Hin as [-> | Hin];
        [congruence |]. apply Hn0, list_elem_of_In, Hin.
Qed.

Lemma name_dict_set_In (name : string) (c : ConceptData) (d : list (string * ConceptData))
      (n : string) (k : ConceptData) :
  NoDup (map fst d) ->
  In (n, k) (name_dict_set name c d)
  <-> (n = name /\ k = c) \/ (n <> name /\ In (n, k) d).
Proof.
  induction d as [|[n0 k0] d IH]; simpl; intros Hnd.
  - split; [intros [[= <- <-] | []]; auto | intros [[-> ->] | [_ []]]; auto].
  - apply NoDup_cons in Hnd as [Hn0 Hnd]. specialize (IH Hnd).
    assert (Hkey : forall k', In (n0, k') d -> False).
    { intros k' Hin. apply Hn0, list_elem_of_In, in_map_iff. exists (n0, k'). auto. }
    destruct (String.eqb_spec n0 name) as [-> | Hne]; simpl.
    + split.
      * intros [[= <- <-] | Hin]; [auto |].
        right. split; [| auto]. intros ->. exact (Hkey _ Hin).
      * intros [[-> ->] | [Hn [[= -> _] | Hin]]]; [auto | congruence | auto].
    + rewrite IH. split.
      * intros [[= <- <-] | [[-> ->] | [Hn Hin]]]; auto.
      * intros [[-> ->] | [Hn [[= <- <-] | Hin]]]; auto.
Qed.

Lemma name_dict_get_In (name : string) (d : list (string * ConceptData)) (k : ConceptData) :
  NoDup (map fst d) ->
  name_dict_get name d = Some k <-> In (name, k) d.
Proof.
  unfold name_dict_get. induction d as [|[n0 k0] d IH]; simpl; intros Hnd.
  - split; [discriminate | intros []].
  - apply NoDup_cons in Hnd as [Hn0 Hnd]. specialize (IH Hnd).
    destruct (String.eqb_spec n0 name) as [-> | Hne]; simpl.
    + split; [intros [= ->]; auto |].
      intros [[= ->] | Hin]; [reflexivity |].
      exfalso. apply Hn0, list_elem_of_In, in_map_iff. exists (name, k). auto.
    + rewrite IH. split; [auto | intros [[= -> _] | Hin]; [congruence | auto]].
Qed.

Lemma name_dict_get_None (name : string) (d : list (string * ConceptData)) :
  name_dict_get name d = None -> forall k, ~ In (name, k) d.
Proof.
  unfold name_dict_get. induction d as [|[n0 k0] d IH]; simpl; intros Hget k; [tauto |].
  destruct (String.eqb_spec n0 name) as [-> | Hne]; simpl in Hget; [discriminate |].
  intros [[= -> _] | Hin]; [congruence | exact (IH Hget k Hin)].
Qed.

Lemma dedup_step_keeps (d : list (string * ConceptData)) (seen : list ConceptData)
      (c : ConceptData) :
  deduplicated d seen -> deduplicated (dedup_step d c) (seen ++ [c]).
Proof.
  intros (Hnd & Hsound & Hcomplete). unfold dedup_step. cbv zeta.
  assert (Hacc : acceptable c
                 = negb ((String.length (normalized c) <? 3)%nat
                         || str_in (normalized c) common_terms)) by reflexivity.
  destruct ((String.length (normalized c) <? 3)%nat || str_in (normalized c) common_terms).
  { (* skipped *)
    split; [exact Hnd | split].
    - intros n k Hin. destruct (Hsound n k Hin) as (Hn & Hk & Ha).
      rewrite in_app_iff. auto.
    - intros c0 Hc0 Ha0. apply in_app_or in Hc0 as [Hc0 | [<- | []]]; [auto |].
      simpl in Hacc. congruence. }
  simpl in Hacc.
  assert (Hreplace :
            (forall kept, In (normalized c, kept) d ->
                          cd_confidence kept <= cd_confidence c) ->
            deduplicated (name_dict_set (normalized c) c d) (seen ++ [c])).
  { intros Hbetter. split; [apply name_dict_set_NoDup, Hnd | split].
    - intros n k Hin. apply (name_dict_set_In _ _ _ _ _ Hnd) in Hin
        as [[-> ->] | [Hn Hin]].
      + rewrite in_app_iff. simpl. auto.
      + destruct (Hsound n k Hin) as (Hn' & Hk & Ha). rewrite in_app_iff. auto.
    - intros c0 Hc0 Ha0. apply in_app_or in Hc0 as [Hc0 | [<- | []]].
      + destruct (Hcomplete c0 Hc0 Ha0) as [k [Hk Hle]].
        destruct (String.eqb_spec (normalized c0) (normalized c)) as [Heq | Hne].
        * exists c. split; [rewrite Heq; apply (name_dict_set_In _ _ _ _ _ Hnd); auto |].
          rewrite Heq in Hk. apply Qle_trans with (cd_confidence k); auto.
        * exists k. split; [apply (name_dict_set_In _ _ _ _ _ Hnd); auto | exact Hle].
      + exists c. split; [apply (name_dict_set_In _ _ _ _ _ Hnd); auto | apply Qle_refl]. }
  destruct (name_dict_get (normalized c) d) as [kept |] eqn:Hget.
  - apply (name_dict_get_In _ _ _ Hnd) in Hget.
    destruct (Qlt_le_dec (cd_confidence kept) (cd_confidence c)) as [Hlt | Hle].
    + apply Hreplace. intros kept' Hin'.
      apply (name_dict_get_In _ _ _ Hnd) in Hget, Hin'.
      assert (kept' = kept) as -> by congruence. apply Qlt_le_weak, Hlt.
    + split; [exact Hnd | split].
      * intros n k Hin. destruct (Hsound n k Hin) as (Hn & Hk & Ha).
        rewrite in_app_iff. auto.
      * intros c0 Hc0 Ha0. apply in_app_or in Hc0 as [Hc0 | [<- | []]]; [auto |].
        exists kept. auto.
  - apply Hreplace. intros kept Hin. exfalso. exact (name_dict_get_None _ _ Hget kept Hin).
Qed.

Lemma dedup_fold (cs : list ConceptData) (d : list (string * ConceptData))
      (seen : list ConceptData) :
  deduplicated d seen -> deduplicated (fold_left dedup_step cs d) (seen ++ cs).
Proof.
  revert d seen. induction cs as [|c cs IH]; intros d seen Hd; simpl.
  - rewrite app_nil_r. exact Hd.
  - replace (seen ++ c :: cs) with ((seen ++ [c]) ++ cs)
      by (rewrite <- app_assoc; reflexivity).
    apply IH, dedup_step_keeps, Hd.
Qed.

(** X11.  [_deduplicate_concepts] keeps sightings of the input only; no
    two kept sightings have the same name once stripped and lower-cased;
    every kept name has at least three characters and is none of the six
    common terms; and for every acceptable sighting of the input a
    sighting of the same name and at least its confidence is kept. *)
Theorem deduplicate_concepts_spec (concepts : list ConceptData) :
  NoDup (map normalized (_deduplicate_concepts concepts))
  /\ (forall k, In k (_deduplicate_concepts concepts) ->
                In k concepts
                /\ (3 <= String.length (normalized k))%nat
                /\ ~ In (normalized k) common_terms)
  /\ (forall c, In c concepts -> acceptable c = true ->
                exists k, In k (_deduplicate_concepts concepts)
                          /\ normalized k = normalized c
                          /\ cd_confidence c <= cd_confidence k).
Proof.
  assert (H0 : deduplicated [] []).
  { split; [constructor | split; [intros n k [] | intros c []]]. }
  pose proof (dedup_fold concepts [] [] H0) as (Hnd & Hsound & Hcomplete).
  simpl in Hsound, Hcomplete.
  unfold _deduplicate_concepts. cbv zeta.
  set (d := fold_left dedup_step concepts []) in *.
  assert (Hkeys : map normalized (map snd d) = map fst d).
  { rewrite map_map. apply map_ext_in. intros [n k] Hin.
    simpl. symmetry. apply (Hsound n k Hin). }
  split; [rewrite Hkeys; exact Hnd | split].
  - intros k Hk. apply in_map_iff in Hk as [[n k'] [Hk Hin]]. simpl in Hk. subst k'.
    destruct (Hsound n k Hin) as (_ & Hseen & Ha). split; [exact Hseen |].
    unfold acceptable in Ha. apply negb_true_iff, orb_false_iff in Ha as [Hlen Hcommon].
    apply Nat.ltb_ge in Hlen. split; [exact Hlen |].
    intros Hin'. unfold str_in in Hcommon.
    assert (existsb (String.eqb (normalized k)) common_terms = true); [| congruence].
    apply existsb_exists. exists (normalized k). split; [exact Hin' | apply String.eqb_refl].
  - intros c Hc Ha. destruct (Hcomplete c Hc Ha) as [k [Hk Hle]].
    exists k. split; [apply in_map_iff; exists (normalized c, k); auto |].
    split; [| exact Hle]. symmetry. apply (Hsound _ _ Hk).
Qed.

Lemma deduplicate_concepts_spec_witness :
  In Example2.sighting_usability Example2.sightings
  /\ acceptable Example2.sighting_usability = true
  /\ exists k, In k (_deduplicate_concepts Example2.sightings)
               /\ normalized k = normalized Example2.sighting_usability
               /\ cd_confidence Example2.sighting_usability <= cd_confidence k.
Proof.
  assert (Hin : In Example2.sighting_usability Example2.sightings) by (left; reflexivity).
  split; [exact Hin | split; [reflexivity |]].
  exact (proj2 (proj2 (deduplicate_concepts_spec Example2.sightings))
               Example2.sighting_usability Hin eq_refl).
Defined.

(** The sighting with the higher confidence takes the place of the first
    one; the common term is dropped. *)
Example deduplicate_concepts_example :
  map cd_name (_deduplicate_concepts Example2.sightings) = [" Usability"; "mental model"].
Proof. vm_compute. reflexivity. Qed.

End DeduplicationFacts.

(** ** The registry under [save_concepts_to_db] *)

Module RegistryInvariantFacts.
Import ConceptAnalyzer RegistryInvariant.

Lemma next_concept_id_fresh (db : Db) (c : Concept) :
  In c (concepts db) -> (c_id c < next_concept_id db)%Z.
Proof.
  unfold next_concept_id. induction (concepts db) as [|a l IH]; simpl; [tauto |].
  intros [<- | Hin]; [lia | specialize (IH Hin); lia].
Qed.

Lemma concept_by_name_None (db : Db) (name : string) (c : Concept) :
  concept_by_name db name = None -> In c (concepts db) -> c_name c <> name.
Proof.
  unfold concept_by_name. intros Hnone Hin Heq.
  apply (find_none _ _ Hnone) in Hin. simpl in Hin.
  rewrite Heq, String.eqb_refl in Hin. discriminate.
Qed.

Lemma increment_frequency_id (i : Z) (c : Concept) : c_id (increment_frequency i c) = c_id c.
Proof. unfold increment_frequency. destruct (Z.eqb (c_id c) i); reflexivity. Qed.

Lemma increment_frequency_le (i : Z) (c : Concept) :
  (c_frequency c <= c_frequency (increment_frequency i c))%Z.
Proof. unfold increment_frequency. destruct (Z.eqb (c_id c) i); simpl; lia. Qed.

Lemma extends_refl (db : Db) : extends db db.
Proof. split; [intros c Hc; exists c; repeat split; auto; lia | auto]. Qed.

Lemma extends_trans (db1 db2 db3 : Db) : extends db1 db2 -> extends db2 db3 -> extends db1 db3.
Proof.
  intros [Hc12 Hl12] [Hc23 Hl23]. split; [| auto].
  intros c Hc. destruct (Hc12 c Hc) as (c2 & Hc2 & Hid2 & Hn2 & Hf2).
  destruct (Hc23 c2 Hc2) as (c3 & Hc3 & Hid3 & Hn3 & Hf3).
  exists c3. repeat split; [assumption | congruence | congruence | lia].
Qed.

Lemma stored_extends (db db' : Db) (doc : Z) (cd : ConceptData) (i : Z) :
  extends db db' -> stored db doc cd i -> stored db' doc cd i.
Proof.
  intros [Hc Hl] [(c & Hin & Hid & Hname) Hlink]. split.
  - destruct (Hc c Hin) as (c' & Hc' & Hid' & Hn' & _).
    exists c'. repeat split; [assumption | congruence | congruence].
  - apply in_map_iff in Hlink as [l [Hk Hlin]]. apply in_map_iff. exists l. auto.
Qed.

(** Finding or creating the concept. *)
Lemma upsert_keeps (db : Db) (cd : ConceptData) :
  registry_ok db ->
  registry_ok (fst (upsert db cd))
  /\ extends db (fst (upsert db cd))
  /\ documents (fst (upsert db cd)) = documents db
  /\ document_concepts (fst (upsert db cd)) = document_concepts db
  /\ concept_relations (fst (upsert db cd)) = concept_relations db
  /\ exists c, In c (concepts (fst (upsert db cd)))
               /\ c_id c = snd (upsert db cd) /\ c_name c = cd_name cd.
Proof.
  intros (Hids & Hnames & Hlinks). unfold upsert.
  destruct (concept_by_name db (cd_name cd)) as [c |] eqn:Hfind; simpl.
  - assert (Hmap_id : map c_id (map (increment_frequency (c_id c)) (concepts db))
                      = map c_id (concepts db)).
    { rewrite map_map. apply map_ext. intros a. apply increment_frequency_id. }
    assert (Hmap_name : map c_name (map (increment_frequency (c_id c)) (concepts db))
                        = map c_name (concepts db)).
    { rewrite map_map. apply map_ext. intros a. apply RegistryFacts.increment_frequency_name. }
    split; [unfold registry_ok; simpl; rewrite Hmap_id, Hmap_name; auto |].
    split.
    { split; [| auto]. simpl. intros a Ha.
      exists (increment_frequency (c_id c) a).
      split; [apply in_map, Ha |].
      split; [apply increment_frequency_id |].
      split; [apply RegistryFacts.increment_frequency_name | apply increment_frequency_le]. }
    repeat split.
    apply find_some in Hfind as [Hin Hname]. apply String.eqb_eq in Hname.
    exists (increment_frequency (c_id c) c).
    split; [apply in_map, Hin |].
    split; [apply increment_frequency_id |].
    rewrite RegistryFacts.increment_frequency_name. exact Hname.
  - split.
    { unfold registry_ok. simpl. rewrite !map_app. simpl.
      split; [| split; [| exact Hlinks]].
      - apply NoDup_app. split; [exact Hids | split; [| apply NoDup_singleton]].
        intros i Hi Hi'. apply list_elem_of_In in Hi, Hi'. destruct Hi' as [<- | []].
        apply in_map_iff in Hi as [a [Ha Hin]].
        pose proof (next_concept_id_fresh db a Hin). lia.
      - apply NoDup_app. split; [exact Hnames | split; [| apply NoDup_singleton]].
        intros n Hn Hn'. apply list_elem_of_In in Hn, Hn'. destruct Hn' as [<- | []].
        apply in_map_iff in Hn as [a [Ha Hin]].
        exact (concept_by_name_None db _ a Hfind Hin Ha). }
    split.
    { split; [| auto]. simpl. intros a Ha. exists a.
      rewrite in_app_iff. repeat split; auto; lia. }
    repeat split.
    eexists. split; [apply in_app_iff; right; left; reflexivity |]. simpl. auto.
Qed.

(** Linking the concept to the document. *)
Lemma link_document_keeps (db : Db) (doc cid : Z) (cd : ConceptData) :
  registry_ok db ->
  registry_ok (link_document db doc cid cd)
  /\ extends db (link_document db doc cid cd)
  /\ documents (link_document db doc cid cd) = documents db
  /\ concepts (link_document db doc cid cd) = concepts db
  /\ concept_relations (link_document db doc cid cd) = concept_relations db
  /\ In (doc, cid) (map link_key (document_concepts (link_document db doc cid cd))).
Proof.
  intros (Hids & Hnames & Hlinks). unfold link_document.
  destruct (link_exists db doc cid) eqn:Hex.
  - split; [split; auto |]. split; [apply extends_refl |]. repeat split.
    unfold link_exists in Hex. apply existsb_exists in Hex as [l [Hl Hb]].
    apply andb_true_iff in Hb as [Hd Hc]. apply Z.eqb_eq in Hd, Hc.
    apply in_map_iff. exists l. unfold link_key. split; [congruence | exact Hl].
  - split.
    { unfold registry_ok. simpl. rewrite map_app. simpl.
      split; [exact Hids | split; [exact Hnames |]].
      apply NoDup_app. split; [exact Hlinks | split; [| apply NoDup_singleton]].
      intros k Hk Hk'. apply list_elem_of_In in Hk, Hk'. destruct Hk' as [<- | []].
      apply in_map_iff in Hk as [l [Hkey Hl]]. unfold link_key in Hkey.
      injection Hkey as Hd Hc.
      assert (link_exists db doc cid = true); [| congruence].
      unfold link_exists. apply existsb_exists. exists l.
      rewrite Hd, Hc, !Z.eqb_refl. auto. }
    split.
    { split; [intros c Hc; exists c; repeat split; auto; lia |].
      simpl. intros l Hl. apply in_app_iff. auto. }
    repeat split. simpl. rewrite map_app. apply in_app_iff. right. left. reflexivity.
Qed.

Lemma save_fold (cds : list ConceptData) (doc : Z) (db : Db) (saved : list Z)
      (done : list ConceptData) :
  registry_ok db ->
  Forall2 (stored db doc) done saved ->
  let result :=
    fold_left
      (fun '(db, saved_concepts) concept_data =>
         let '(db, cid) := upsert db concept_data in
         (link_document db doc cid concept_data, saved_concepts ++ [cid]))
      cds (db, saved) in
  registry_ok (fst result)
  /\ extends db (fst result)
  /\ documents (fst result) = documents db
  /\ concept_relations (fst result) = concept_relations db
  /\ Forall2 (stored (fst result) doc) (done ++ cds) (snd result).
Proof.
  revert db saved done. induction cds as [|cd cds IH]; intros db saved done Hok Hdone; simpl.
  - rewrite app_nil_r. repeat split; try apply Hok; try apply extends_refl; auto.
  - destruct (upsert_keeps db cd Hok) as (Hok1 & Hext1 & Hdocs1 & Hlinks1 & Hrels1 & Hc1).
    destruct (upsert db cd) as [db1 cid] eqn:Hup. simpl in *.
    destruct (link_document_keeps db1 doc cid cd Hok1)
      as (Hok2 & Hext2 & Hdocs2 & Hconcepts2 & Hrels2 & Hlink2).
    set (db2 := link_document db1 doc cid cd) in *.
    assert (Hext : extends db db2) by (eapply extends_trans; eassumption).
    assert (Hdone2 : Forall2 (stored db2 doc) (done ++ [cd]) (saved ++ [cid])).
    { apply Forall2_app.
      - eapply Forall2_impl; [exact Hdone |]. intros a b. apply stored_extends, Hext.
      - constructor; [| constructor]. split; [| exact Hlink2].
        destruct Hc1 as (c & Hc & Hid & Hname). exists c. rewrite Hconcepts2. auto. }
    specialize (IH db2 (saved ++ [cid]) (done ++ [cd]) Hok2 Hdone2).
    cbv zeta in IH. destruct IH as (Hok' & Hext' & Hdocs' & Hrels' & Hstored').
    rewrite <- app_assoc in Hstored'. simpl in Hstored'.
    repeat split; try apply Hok'; try assumption.
    + apply (extends_trans _ _ _ Hext Hext').
    + apply (extends_trans _ _ _ Hext Hext').
    + congruence.
    + congruence.
Qed.

(** X12.  [save_concepts_to_db] keeps the keys of the registry unique
    (concept ids, concept names, document-concept pairs), removes no
    concept and no link, lowers no frequency, leaves documents and
    relations alone, and returns one id per sighting: that of a stored
    concept of the sighting's name, linked to the document. *)
Theorem save_concepts_keeps_registry
        (db : Db) (concepts : list ConceptData) (document_id : Z) :
  registry_ok db ->
  registry_ok (fst (save_concepts_to_db db concepts document_id))
  /\ extends db (fst (save_concepts_to_db db concepts document_id))
  /\ documents (fst (save_concepts_to_db db concepts document_id)) = documents db
  /\ concept_relations (fst (save_concepts_to_db db concepts document_id))
     = concept_relations db
  /\ Forall2 (stored (fst (save_concepts_to_db db concepts document_id)) document_id)
             concepts (snd (save_concepts_to_db db concepts document_id)).
Proof.
  intros Hok. unfold save_concepts_to_db.
  apply (save_fold concepts document_id db [] [] Hok). constructor.
Qed.

Lemma save_concepts_keeps_registry_witness :
  registry_ok Example.db_ui
  /\ registry_ok (fst (save_concepts_to_db
                         Example.db_ui [Example.sighting_ui; Example.sighting_UI] 7)).
Proof.
  assert (Hok : registry_ok Example.db_ui).
  { unfold registry_ok. refine (bool_decide_unpack _ _). vm_compute. exact I. }
  split; [exact Hok |].
  apply (save_concepts_keeps_registry
           Example.db_ui [Example.sighting_ui; Example.sighting_UI] 7 Hok).
Defined.

End RegistryInvariantFacts.

(** ** The concept graph *)

Module ConceptGraphFacts.
Import ConceptGraph.

Lemma category_ids (db : Db) (category : string) (i : Z) :
  i ∈ (list_to_set
         (map n_id (List.filter (fun node => String.eqb (n_category node) category)
                                (map node_of (concepts db)))) : gset Z)
  <-> in_category db category i.
Proof.
  rewrite elem_of_list_to_set, list_elem_of_In, in_map_iff. split.
  - intros (n & Hid & Hn). apply filter_In in Hn as [Hn Hcat].
    apply in_map_iff in Hn as (c & <- & Hc). apply String.eqb_eq in Hcat.
    exists c. auto.
  - intros (c & Hc & Hid & Hcat). exists (node_of c). split; [exact Hid |].
    apply filter_In. split; [apply in_map, Hc |]. apply String.eqb_eq, Hcat.
Qed.

(** X13.  The graph endpoint returns exactly: one node per concept (of
    the category asked for, when one is given), of size
    [min(2 * frequency, 20)]; and one edge per stored relation whose
    strength is at least [min_strength] and, under a category filter, whose
    two ends are both ids of concepts of that category.  So a filtered
    graph has no edge to a node that is not returned. *)
Theorem concept_graph_contents (db : Db) (min_strength : Q) (category : option string) :
  let graph := get_concept_graph db min_strength category in
  (forall n, In n (nodes graph)
             <-> exists c, In c (concepts db) /\ n = node_of c
                           /\ (PyStr.truthy category = true
                               -> c_category c = default "" category))
  /\ (forall e, In e (edges graph)
                <-> exists r, In r (concept_relations db) /\ e = edge_of r
                              /\ min_strength <= strength r
                              /\ (PyStr.truthy category = true
                                  -> in_category db (default "" category) (concept1_id r)
                                     /\ in_category db (default "" category)
                                                    (concept2_id r)))
  /\ (forall n, In n (nodes graph)
                -> (n_size n <= 20)%Z
                   /\ ((n_frequency n <= 10)%Z -> n_size n = (2 * n_frequency n)%Z)
                   /\ ((10 <= n_frequency n)%Z -> n_size n = 20%Z))
  /\ (forall e, In e (edges graph)
                -> PyStr.truthy category = true
                -> In (e_source e) (map n_id (nodes graph))
                   /\ In (e_target e) (map n_id (nodes graph))).
Proof.
  unfold get_concept_graph, build_concept_graph. cbv zeta.
  destruct (PyStr.truthy category) eqn:Hcat; cbn [nodes edges].
  - set (cat := default "" category).
    assert (Hnodes : forall n,
               In n (List.filter (fun node => String.eqb (n_category node) cat)
                                 (map node_of (concepts db)))
               <-> exists c, In c (concepts db) /\ n = node_of c
                             /\ (true = true -> c_category c = cat)).
    { intros n. rewrite filter_In, in_map_iff. split.
      - intros [(c & <- & Hc) Heq]. apply String.eqb_eq in Heq. exists c. auto.
      - intros (c & Hc & -> & Heq). split; [exists c; auto |].
        apply String.eqb_eq. simpl. auto. }
    split; [exact Hnodes |].
    split; [| split].
    + intros e. rewrite filter_In, in_map_iff, andb_true_iff, !bool_decide_eq_true.
      rewrite !category_ids. split.
      * intros [(r & <- & Hr) Hends]. apply filter_In in Hr as [Hr Hs].
        apply Qle_bool_iff in Hs. exists r. simpl in Hends. auto.
      * intros (r & Hr & -> & Hs & Hends). split; [| simpl; auto].
        exists r. split; [reflexivity |]. apply filter_In. split; [exact Hr |].
        apply Qle_bool_iff, Hs.
    + intros n Hn. apply Hnodes in Hn as (c & _ & -> & _). simpl. lia.
    + intros e He _. apply filter_In in He as [_ Hends].
      apply andb_true_iff in Hends as [Hs Ht].
      apply bool_decide_eq_true in Hs, Ht.
      rewrite elem_of_list_to_set, list_elem_of_In in Hs, Ht. auto.
  - split; [| split; [| split]].
    + intros n. rewrite in_map_iff. split.
      * intros (c & <- & Hc). exists c. repeat split; auto. discriminate.
      * intros (c & Hc & -> & _). exists c. auto.
    + intros e. rewrite in_map_iff. split.
      * intros (r & <- & Hr). apply filter_In in Hr as [Hr Hs].
        apply Qle_bool_iff in Hs. exists r. repeat split; auto; discriminate.
      * intros (r & Hr & -> & Hs & _). exists r. split; [reflexivity |].
        apply filter_In. split; [exact Hr |]. apply Qle_bool_iff, Hs.
    + intros n Hn. apply in_map_iff in Hn as (c & <- & _). simpl. lia.
    + intros e _ Hfalse. discriminate.
Qed.

End ConceptGraphFacts.

(** ** Query suggestions *)

Module SuggestionFacts.
Import Ranking Suggestions.

Lemma py_slice_to_take {A} (n : Z) (l : list A) :
  exists k, py_slice_to n l = take k l /\ ((0 <= n)%Z -> k = Z.to_nat n).
Proof.
  unfold py_slice_to. destruct (Z.leb_spec 0 n).
  - exists (Z.to_nat n). auto.
  - eexists. split; [reflexivity | lia].
Qed.

Section WithExternal.

Context `{External}.
Variable ilike_prefix : string -> string -> bool.

(** What a call of the engine's function returns. *)
Lemma suggest_shape (db : Db) (partial_query : string) (limit : Z) :
  exists cs ds,
    suggest_query_completions ilike_prefix db partial_query limit
    = map concept_suggestion cs ++ map title_suggestion ds
    /\ (forall c, In c cs -> In c (concepts db)
                             /\ ilike_prefix (c_name c) partial_query = true)
    /\ descending by_frequency cs
    /\ (forall d, In d ds -> In d (documents db)
                             /\ SearchEngine.completed d = true
                             /\ ilike (d_title d) partial_query = true)
    /\ (length ds <= 5)%nat
    /\ ((0 <= limit)%Z -> (length cs + length ds <= Z.to_nat limit)%nat)
    /\ ((0 <= limit)%Z
        -> (Z.to_nat limit <= length (matching_concepts ilike_prefix db partial_query))%nat
        -> ds = []).
Proof.
  unfold suggest_query_completions. cbv zeta.
  destruct (String.length partial_query <? 2)%nat.
  { exists [], []. split; [reflexivity |].
    split; [intros c [] |]. split; [apply SSorted_nil |].
    split; [intros d [] |]. simpl. repeat split; auto; lia. }
  rewrite app_nil_l.
  set (cs := sql_limit limit _). set (ds := sql_limit 5 _).
  destruct (py_slice_to_take limit (map concept_suggestion cs ++ map title_suggestion ds))
    as (k & -> & Hk).
  rewrite take_app, length_map, !firstn_map.
  exists (take k cs), (take (k - length cs) ds).
  split; [reflexivity |].
  assert (Hcs : forall c, In c cs -> In c (concepts db)
                                     /\ ilike_prefix (c_name c) partial_query = true).
  { intros c Hc. apply ResultFacts.sql_limit_sub in Hc.
    apply (Permutation_in _ (FusionFacts.sorted_desc_perm _ _)) in Hc.
    apply filter_In in Hc. exact Hc. }
  assert (Hds : forall d, In d ds -> In d (documents db)
                                     /\ SearchEngine.completed d = true
                                     /\ ilike (d_title d) partial_query = true).
  { intros d Hd. apply ResultFacts.sql_limit_sub in Hd.
    apply filter_In in Hd as [Hd Hb]. apply andb_true_iff in Hb. tauto. }
  assert (Hlen_ds : (length ds <= 5)%nat).
  { apply (ResultFacts.sql_limit_length 5 (matching_documents db partial_query)). lia. }
  split; [intros c Hc; apply Hcs, (RankingFacts.In_take_sub _ _ _ Hc) |].
  split.
  { apply RankingFacts.descending_take. unfold cs, sql_limit.
    destruct (limit <? 0)%Z; [| apply RankingFacts.descending_take];
      apply RankingFacts.sorted_desc_descending. }
  split; [intros d Hd; apply Hds, (RankingFacts.In_take_sub _ _ _ Hd) |].
  split; [rewrite length_take; lia |].
  split.
  - intros Hlimit. rewrite !length_take. specialize (Hk Hlimit). lia.
  - intros Hlimit Hmany. specialize (Hk Hlimit).
    assert (Hlen_cs : length cs = Z.to_nat limit).
    { unfold cs, sql_limit. destruct (Z.ltb_spec limit 0); [lia |].
      rewrite length_take, (Permutation_length (FusionFacts.sorted_desc_perm _ _)). lia. }
    rewrite Hk, Hlen_cs, Nat.sub_diag. apply take_0.
Qed.

(** X14.  The suggestions endpoint answers a text shorter than two
    characters (after stripping) with no suggestion and without building
    the engine.  Otherwise a 200 answer lists first concepts whose name
    matches the text as a prefix, by descending frequency, then at most
    five completed documents whose title contains it; with a non-negative
    limit it has at most [limit] entries, and no title at all once [limit]
    concepts match.  The answer is 500 exactly when the engine was absent
    and could not be built, although no suggestion reads the index. *)
Theorem suggestions_contents (loaded_model : option Model) (db : Db)
        (search_engine : option SearchEngine.t) (q : option string) (limit : option Z) :
  let partial_query := PyStr.strip (default "" q) in
  let n := default 10%Z limit in
  match get_search_suggestions ilike_prefix loaded_model db search_engine q limit with
  | (Suggestions200 suggestions, _, events) =>
      (exists cs ds,
          suggestions = map concept_suggestion cs ++ map title_suggestion ds
          /\ (forall c, In c cs -> In c (concepts db)
                                   /\ ilike_prefix (c_name c) partial_query = true)
          /\ descending by_frequency cs
          /\ (forall d, In d ds -> In d (documents db)
                                   /\ SearchEngine.completed d = true
                                   /\ ilike (d_title d) partial_query = true)
          /\ (length ds <= 5)%nat
          /\ ((0 <= n)%Z -> (length suggestions <= Z.to_nat n)%nat)
          /\ ((0 <= n)%Z
              -> (Z.to_nat n
                  <= length (matching_concepts ilike_prefix db partial_query))%nat
              -> ds = []))
      /\ ((String.length partial_query < 2)%nat -> suggestions = [] /\ events = [])
  | (SuggestionsError500, engine_after, _) =>
      (2 <= String.length partial_query)%nat
      /\ search_engine = None
      /\ SearchEngine.build_search_index loaded_model db = None
      /\ engine_after = None
  end.
Proof.
  cbv zeta. unfold get_search_suggestions. cbv zeta.
  set (partial_query := PyStr.strip (default "" q)).
  destruct (Nat.ltb_spec (String.length partial_query) 2) as [Hshort | Hlong].
  - split; [| auto].
    exists [], []. split; [reflexivity |].
    split; [intros c [] |]. split; [apply SSorted_nil |].
    split; [intros d [] |]. simpl. repeat split; auto; lia.
  - unfold SearchApi.get_search_engine.
    destruct search_engine as [e |].
    + split; [| lia].
      destruct (suggest_shape db partial_query (default 10%Z limit))
        as (cs & ds & -> & Hcs & Hdesc & Hds & Hfive & Hbound & Hstarved).
      exists cs, ds. repeat split; try assumption; try apply Hcs; try apply Hds; auto.
      intros Hn. rewrite length_app, !length_map. auto.
    + destruct (SearchEngine.build_search_index loaded_model db) as [e |] eqn:Hbuild.
      * split; [| lia].
        destruct (suggest_shape db partial_query (default 10%Z limit))
          as (cs & ds & -> & Hcs & Hdesc & Hds & Hfive & Hbound & Hstarved).
        exists cs, ds. repeat split; try assumption; try apply Hcs; try apply Hds; auto.
        intros Hn. rewrite length_app, !length_map. auto.
      * auto.
Qed.

End WithExternal.

End SuggestionFacts.

(** ** Similar documents *)

Module SimilarApiFacts.
Import Ranking SearchEngine SimilarApi.

Lemma descending_filter {A} (key : A -> Q) (f : A -> bool) (l : list A) :
  descending key l -> descending key (List.filter f l).
Proof.
  unfold descending. induction 1 as [|a l Hs IH Ha]; simpl; [constructor |].
  destruct (f a); [| exact IH]. constructor; [exact IH |].
  apply Forall_forall. intros b Hb. apply list_elem_of_In, filter_In in Hb as [Hb _].
  rewrite Forall_forall in Ha. apply Ha, list_elem_of_In, Hb.
Qed.

Lemma descending_map {A B} (key : B -> Q) (g : A -> B) (l : list A) :
  descending (fun a => key (g a)) l -> descending key (map g l).
Proof.
  unfold descending. induction 1 as [|a l Hs IH Ha]; simpl; constructor; [exact IH |].
  apply Forall_forall. intros b Hb. apply list_elem_of_In, in_map_iff in Hb as (a' & <- & Ha').
  rewrite Forall_forall in Ha. apply Ha, list_elem_of_In, Ha'.
Qed.

Section WithExternal.

Context `{External}.

(** In semantic mode only the semantic retriever can be called, and its
    results are what is returned. *)
Lemma semantic_mode (e : t) (db : Db) (query : string) (filters : option Filters)
      (limit : Z) :
  (forall r, In r (fst (search_documents e db query "semantic" filters limit))
             -> r = Semantic)
  /\ (forall r, In r (snd (search_documents e db query "semantic" filters limit))
                -> In r (_semantic_search e db query filters limit))
  /\ descending score (snd (search_documents e db query "semantic" filters limit))
  /\ ((0 <= limit)%Z
      -> (length (snd (search_documents e db query "semantic" filters limit))
          <= Z.to_nat limit)%nat).
Proof.
  unfold search_documents.
  destruct (PyStr.is_empty (PyStr.strip query)).
  { simpl. repeat split; try tauto; [constructor | lia]. }
  change (str_in "semantic" ["keyword"; "hybrid"]) with false.
  change (str_in "semantic" ["semantic"; "hybrid"]) with true.
  change (str_in "semantic" ["concept"; "hybrid"]) with false.
  cbv iota beta. rewrite andb_true_l.
  destruct (bool_decide (is_Some (embedding_model e))); cbn [fst snd app].
  - rewrite ResultFacts.merge_other_mode by discriminate.
    split; [intros r [<- | []]; reflexivity |].
    split; [intros r; apply ResultFacts.py_slice_to_sub |].
    split; [apply ResultFacts.descending_py_slice, ResultFacts.semantic_search_descending |].
    apply ResultFacts.py_slice_to_length.
  - rewrite ResultFacts.merge_other_mode by discriminate.
    assert (Hnil : forall n, @py_slice_to SearchResult n [] = []).
    { intros n. unfold py_slice_to. destruct (0 <=? n)%Z; apply take_nil. }
    rewrite Hnil. simpl. repeat split; try tauto; [constructor | lia].
Qed.

(** X15.  The similar-documents endpoint answers 200 only for an
    existing document with content; the list never contains that document,
    holds only stored documents of at least 50 words, is in descending
    order of score, has at most [limit] entries for a non-negative
    [limit], and comes from the semantic retriever alone.  A missing or
    zero [document_id], or a document without content, gives 400 before
    any engine work; a document that does not exist gives 500, as does an
    engine that cannot be built. *)
Theorem similar_documents_answer (loaded_model : option Model) (db : Db)
        (search_engine : option SearchEngine.t) (document_id limit : option Z) :
  match find_similar_documents loaded_model db search_engine document_id limit with
  | (Ok200 i similar, _, events) =>
      document_id = Some i
      /\ (exists d, get_document db i = Some d /\ PyStr.truthy (d_content d) = true)
      /\ (forall d s, In (d, s) similar
                      -> d_id d <> i
                         /\ In d (documents db)
                         /\ exists w, d_word_count d = Some w /\ (50 <= w)%Z)
      /\ descending snd similar
      /\ ((0 <= default 5%Z limit)%Z
          -> (length similar <= Z.to_nat (default 5%Z limit))%nat)
      /\ (forall r, In (SearchApi.Called r) events -> r = Semantic)
  | (BadRequest400, engine_after, events) =>
      (SearchApi.nonzero document_id = None
       \/ exists i d, document_id = Some i /\ get_document db i = Some d
                      /\ PyStr.truthy (d_content d) = false)
      /\ engine_after = search_engine /\ events = []
  | (InternalError500, engine_after, _) =>
      engine_after = search_engine
      /\ exists i, document_id = Some i /\ i <> 0%Z
                   /\ (get_document db i = None
                       \/ (search_engine = None
                           /\ build_search_index loaded_model db = None))
  end.
Proof.
  unfold find_similar_documents. cbv zeta.
  destruct document_id as [i |]; cbn [SearchApi.nonzero]; [| auto].
  destruct (Z.eqb_spec i 0) as [Hzero | Hnonzero]; [auto |].
  destruct (get_document db i) as [d |] eqn:Hget; [| split; [reflexivity | eauto]].
  destruct (PyStr.truthy (d_content d)) eqn:Hcontent; cbn [negb].
  2:{ split; [right; exists i, d; auto | auto]. }
  set (query := if PyStr.is_empty _ then _ else _). clearbody query.
  assert (Hanswer : forall e calls results,
             search_documents e db query "semantic" (Some similarity_filters)
                              (default 5%Z limit + 1) = (calls, results) ->
             let similar :=
               py_slice_to (default 5%Z limit)
                 (map (fun result => (document result, score result))
                      (List.filter
                         (fun result => negb (Z.eqb (d_id (document result)) i))
                         results)) in
             (forall d s, In (d, s) similar
                          -> d_id d <> i
                             /\ In d (documents db)
                             /\ exists w, d_word_count d = Some w /\ (50 <= w)%Z)
             /\ descending snd similar
             /\ ((0 <= default 5%Z limit)%Z
                 -> (length similar <= Z.to_nat (default 5%Z limit))%nat)
             /\ (forall r, In r calls -> r = Semantic)).
  { intros e calls results Hsearch.
    destruct (semantic_mode e db query (Some similarity_filters) (default 5%Z limit + 1))
      as (Hcalls & Hresults & Hdesc & _).
    rewrite Hsearch in Hcalls, Hresults, Hdesc.
    simpl in Hcalls, Hresults, Hdesc. cbv zeta.
    split.
    { intros d' s Hin. apply ResultFacts.py_slice_to_sub, in_map_iff in Hin
        as (r & Hpair & Hr).
      injection Hpair as <- <-. apply filter_In in Hr as [Hr Hother].
      apply negb_true_iff, Z.eqb_neq in Hother. split; [exact Hother |].
      apply Hresults, RetrieverFacts.semantic_search_inv in Hr as (Hstore & Hpass & _).
      split; [exact Hstore |].
      unfold passes, _apply_filters, similarity_filters in Hpass. simpl in Hpass.
      destruct (d_word_count (document r)) as [w |]; [| discriminate].
      rewrite andb_true_r in Hpass. exists w. split; [reflexivity |].
      apply Z.leb_le. exact Hpass. }
    split.
    { apply ResultFacts.descending_py_slice.
      apply (descending_map snd (fun result => (document result, score result))).
      simpl. apply descending_filter, Hdesc. }
    split; [apply ResultFacts.py_slice_to_length | exact Hcalls]. }
  unfold SearchApi.get_search_engine.
  destruct search_engine as [e |].
  - destruct (search_documents e db query "semantic" (Some similarity_filters)
                               (default 5%Z limit + 1)) as [calls results] eqn:Hsearch.
    destruct (Hanswer e calls results Hsearch) as (Hsim & Hdesc & Hlen & Hcalls).
    split; [reflexivity |]. split; [eauto |].
    split; [exact Hsim |]. split; [exact Hdesc |]. split; [exact Hlen |].
    intros r Hr. simpl in Hr. apply in_map_iff in Hr as (r' & Heq & Hr').
    injection Heq as <-. auto.
  - destruct (build_search_index loaded_model db) as [e |] eqn:Hbuild.
    + destruct (search_documents e db query "semantic" (Some similarity_filters)
                                 (default 5%Z limit + 1)) as [calls results] eqn:Hsearch.
      destruct (Hanswer e calls results Hsearch) as (Hsim & Hdesc & Hlen & Hcalls).
      split; [reflexivity |]. split; [eauto |].
      split; [exact Hsim |]. split; [exact Hdesc |]. split; [exact Hlen |].
      intros r Hr. simpl in Hr. destruct Hr as [Hr | Hr]; [discriminate |].
      apply in_map_iff in Hr as (r' & Heq & Hr'). injection Heq as <-. auto.
    + split; [reflexivity |]. exists i. auto.
Qed.

End WithExternal.

End SimilarApiFacts.

(** ** What the merge endpoint keeps *)

Module MergeInvariantFacts.
Import ConceptsApi RegistryInvariant MergeInvariant.

Lemma set_frequency_id (p f : Z) (c : Concept) : c_id (set_frequency p f c) = c_id c.
Proof. unfold set_frequency. destruct (Z.eqb (c_id c) p); reflexivity. Qed.

Lemma set_frequency_name (p f : Z) (c : Concept) : c_name (set_frequency p f c) = c_name c.
Proof. unfold set_frequency. destruct (Z.eqb (c_id c) p); reflexivity. Qed.

Lemma set_frequency_absent (p f : Z) (cs : list Concept) :
  (forall c, In c cs -> c_id c <> p) -> map (set_frequency p f) cs = cs.
Proof.
  induction cs as [|c cs IH]; intros Hall; simpl; [reflexivity |].
  rewrite IH by (intros a Ha; apply Hall; right; exact Ha). f_equal.
  unfold set_frequency. destruct (Z.eqb_spec (c_id c) p) as [Heq | _]; [| reflexivity].
  exfalso. apply (Hall c); [left; reflexivity | exact Heq].
Qed.

Lemma delete_concept_absent (s : Z) (cs : list Concept) :
  (forall c, In c cs -> c_id c <> s) -> delete_concept s cs = cs.
Proof.
  unfold delete_concept. induction cs as [|c cs IH]; intros Hall; simpl; [reflexivity |].
  destruct (Z.eqb_spec (c_id c) s) as [Heq | _]; simpl.
  - exfalso. apply (Hall c); [left; reflexivity | exact Heq].
  - f_equal. apply IH. intros a Ha. apply Hall. right. exact Ha.
Qed.

Lemma NoDup_ids_tail (c : Concept) (cs : list Concept) :
  NoDup (map c_id (c :: cs)) ->
  NoDup (map c_id cs) /\ (forall a, In a cs -> c_id a <> c_id c).
Proof.
  simpl. intros Hnd. apply NoDup_cons in Hnd as [Hnotin Hnd]. split; [exact Hnd |].
  intros a Ha Heq. apply Hnotin. rewrite <- Heq. apply list_elem_of_In, in_map, Ha.
Qed.

Lemma total_set_frequency (p f : Z) (cp : Concept) (cs : list Concept) :
  NoDup (map c_id cs) ->
  List.find (fun c => Z.eqb (c_id c) p) cs = Some cp ->
  total_frequency (map (set_frequency p f) cs)
  = (total_frequency cs - c_frequency cp + f)%Z.
Proof.
  unfold total_frequency.
  induction cs as [|c cs IH]; intros Hnd Hfind; [discriminate |].
  apply NoDup_ids_tail in Hnd as [Hnd Hfresh]. simpl in Hfind |- *.
  destruct (Z.eqb_spec (c_id c) p) as [Heq | Hne].
  - injection Hfind as <-.
    rewrite set_frequency_absent by (intros a Ha; rewrite <- Heq; apply Hfresh, Ha).
    unfold set_frequency. rewrite <- Heq, Z.eqb_refl. simpl. lia.
  - rewrite (IH Hnd Hfind). unfold set_frequency at 1.
    destruct (Z.eqb_spec (c_id c) p); [contradiction |]. lia.
Qed.

Lemma total_delete_concept (s : Z) (cs0 : Concept) (cs : list Concept) :
  NoDup (map c_id cs) ->
  List.find (fun c => Z.eqb (c_id c) s) cs = Some cs0 ->
  total_frequency (delete_concept s cs) = (total_frequency cs - c_frequency cs0)%Z.
Proof.
  unfold total_frequency.
  induction cs as [|c cs IH]; intros Hnd Hfind; [discriminate |].
  apply NoDup_ids_tail in Hnd as [Hnd Hfresh]. simpl in Hfind.
  destruct (Z.eqb_spec (c_id c) s) as [Heq | Hne].
  - injection Hfind as <-.
    change (delete_concept s (c :: cs))
      with (if negb (Z.eqb (c_id c) s) then c :: delete_concept s cs
            else delete_concept s cs).
    rewrite Heq, Z.eqb_refl. cbn [negb].
    rewrite delete_concept_absent by (intros a Ha; rewrite <- Heq; apply Hfresh, Ha).
    simpl. lia.
  - change (delete_concept s (c :: cs))
      with (if negb (Z.eqb (c_id c) s) then c :: delete_concept s cs
            else delete_concept s cs).
    destruct (Z.eqb_spec (c_id c) s); [contradiction |]. cbn [negb].
    simpl. rewrite (IH Hnd Hfind). lia.
Qed.

(** The transfer loop adds links of the primary concept only, and only
    when the pair is not there yet. *)
Lemma transfer_document_keys (p d : Z) (links : list DocumentConcept) :
  NoDup (map link_key links) -> NoDup (map link_key (transfer_document p links d)).
Proof.
  intros Hnd. unfold transfer_document.
  destruct (existsb _ links) eqn:Hex; [exact Hnd |].
  rewrite map_app. apply NoDup_app. split; [exact Hnd | split; [| apply NoDup_singleton]].
  intros k Hk Hk'. apply list_elem_of_In in Hk, Hk'. destruct Hk' as [<- | []].
  apply in_map_iff in Hk as (l & Hkey & Hl). unfold link_key in Hkey. simpl in Hkey.
  injection Hkey as Hd Hc.
  assert (existsb (fun l => Z.eqb (dc_document_id l) d && Z.eqb (dc_concept_id l) p)
                  links = true); [| congruence].
  apply existsb_exists. exists l. rewrite Hd, Hc, !Z.eqb_refl. auto.
Qed.

Lemma transfer_documents_keys (p : Z) (ds : list Z) (links : list DocumentConcept) :
  NoDup (map link_key links) ->
  NoDup (map link_key (fold_left (transfer_document p) ds links)).
Proof.
  revert links. induction ds as [|d ds IH]; intros links Hnd; simpl; [exact Hnd |].
  apply IH, transfer_document_keys, Hnd.
Qed.

Lemma transfer_documents_others (p : Z) (ds : list Z) (links : list DocumentConcept)
      (l : DocumentConcept) :
  dc_concept_id l <> p ->
  (In l (fold_left (transfer_document p) ds links) <-> In l links).
Proof.
  intros Hother. revert links. induction ds as [|d ds IH]; intros links; simpl; [tauto |].
  rewrite IH. unfold transfer_document. destruct (existsb _ links); [tauto |].
  rewrite in_app_iff. simpl. split; [| tauto].
  intros [Hin | [<- | []]]; [exact Hin |]. simpl in Hother. contradiction.
Qed.

Lemma repoint_self (p : Z) (r : ConceptRelation) : repoint p p r = r.
Proof.
  unfold repoint. destruct r as [a b ty st]. simpl.
  destruct (Z.eqb_spec a p) as [-> | _]; [reflexivity |].
  destruct (Z.eqb_spec b p) as [-> | _]; reflexivity.
Qed.

(** X16.  Whatever the request, the merge endpoint keeps the keys of the
    registry unique (concept ids, concept names, document-concept pairs)
    and leaves the documents alone; unless it answers 200 it changes
    nothing.  On a 200 answer for two different ids the sum of all
    frequencies is what it was, and the concepts other than the two, and
    their links, are exactly as before. *)
Theorem merge_keeps_registry (db : Db) (primary_id secondary_id : option Z) :
  registry_ok db ->
  let response := fst (merge_concepts db primary_id secondary_id) in
  let db' := snd (merge_concepts db primary_id secondary_id) in
  registry_ok db'
  /\ documents db' = documents db
  /\ ((forall merged, response <> Ok200 merged) -> db' = db)
  /\ (forall merged, response = Ok200 merged -> primary_id <> secondary_id
                     -> total_frequency (concepts db') = total_frequency (concepts db))
  /\ (forall c, named_by primary_id c = false -> named_by secondary_id c = false
                -> (In c (concepts db') <-> In c (concepts db)))
  /\ (forall l, links_of primary_id l = false -> links_of secondary_id l = false
                -> (In l (document_concepts db') <-> In l (document_concepts db))).
Proof.
  intros Hok. cbv zeta. unfold merge_concepts.
  destruct (missing primary_id || missing secondary_id) eqn:Hmissing.
  { simpl. repeat split; try apply Hok; try tauto; try (intros; discriminate). }
  destruct primary_id as [p |]; [| discriminate].
  destruct secondary_id as [s |]; [| simpl in Hmissing; rewrite orb_true_r in Hmissing;
                                     discriminate].
  change (default 0%Z (Some p)) with p. change (default 0%Z (Some s)) with s.
  unfold merge_session, bind, get_or_404, ret, raise.
  destruct (get_concept db p) as [cp |] eqn:Hgp;
    [| simpl; repeat split; try apply Hok; try tauto; try (intros; discriminate)].
  destruct (get_concept db s) as [cs |] eqn:Hgs;
    [| simpl; repeat split; try apply Hok; try tauto; try (intros; discriminate)].
  cbn [fst snd documents concepts document_concepts concept_relations].
  destruct Hok as (Hids & Hnames & Hlinks).
  set (f := (c_frequency cp + c_frequency cs)%Z).
  assert (Hmap_id : map c_id (map (set_frequency p f) (concepts db))
                    = map c_id (concepts db)).
  { rewrite map_map. apply map_ext, set_frequency_id. }
  assert (Hmap_name : map c_name (map (set_frequency p f) (concepts db))
                      = map c_name (concepts db)).
  { rewrite map_map. apply map_ext, set_frequency_name. }
  split.
  { unfold registry_ok, delete_concept, delete_links.
    cbn [concepts document_concepts].
    split; [apply SemanticFacts.NoDup_map_filter; rewrite Hmap_id; exact Hids |].
    split; [apply SemanticFacts.NoDup_map_filter; rewrite Hmap_name; exact Hnames |].
    apply SemanticFacts.NoDup_map_filter, transfer_documents_keys, Hlinks. }
  split; [reflexivity |].
  split; [intros Hnot; exfalso; eapply Hnot; reflexivity |].
  split.
  { intros merged _ Hdiff.
    assert (Hps : p <> s) by congruence.
    unfold get_concept in Hgp, Hgs.
    rewrite (total_delete_concept s cs).
    - rewrite (total_set_frequency p f cp _ Hids Hgp). unfold f. lia.
    - rewrite Hmap_id. exact Hids.
    - rewrite MergeFacts.find_set_frequency, Hgs. simpl. f_equal.
      apply find_some in Hgs as [_ Heq]. apply Z.eqb_eq in Heq.
      unfold set_frequency. destruct (Z.eqb_spec (c_id cs) p); [congruence | reflexivity]. }
  split.
  - intros c Hp Hs. simpl in Hp, Hs. unfold delete_concept.
    rewrite filter_In, Hs, in_map_iff. cbn [negb]. split.
    + intros [(a & Ha & Hin) _].
      assert (Hida : c_id a = c_id c) by (rewrite <- Ha; symmetry; apply set_frequency_id).
      unfold set_frequency in Ha. rewrite Hida, Hp in Ha. subst a. exact Hin.
    + intros Hin. split; [| reflexivity]. exists c. split; [| exact Hin].
      unfold set_frequency. rewrite Hp. reflexivity.
  - intros l Hp Hs. simpl in Hp, Hs. unfold delete_links.
    rewrite filter_In, Hs. cbn [negb].
    rewrite transfer_documents_others by (apply Z.eqb_neq, Hp). tauto.
Qed.

Lemma merge_keeps_registry_witness :
  registry_ok Example.db
  /\ registry_ok (snd (merge_concepts Example.db (Some 1%Z) (Some 2%Z)))
  /\ total_frequency (concepts (snd (merge_concepts Example.db (Some 1%Z) (Some 2%Z))))
     = total_frequency (concepts Example.db).
Proof.
  assert (Hok : registry_ok Example.db).
  { unfold registry_ok. refine (bool_decide_unpack _ _). vm_compute. exact I. }
  split; [exact Hok |].
  destruct (merge_keeps_registry Example.db (Some 1%Z) (Some 2%Z) Hok)
    as (Hkeys & _ & _ & Htotal & _).
  split; [exact Hkeys |].
  apply (Htotal (set_frequency 1 2 Example.concept_a)); [reflexivity | discriminate].
Defined.

(** X17.  Merging an existing concept with itself is answered 200 with
    the frequency doubled in the answer, while the database loses the
    concept and all its document links; relations are not touched, so
    those that mention the concept stay, and every other concept row is as
    before. *)
Theorem merge_with_itself_deletes (db : Db) (p : Z) (c : Concept) :
  p <> 0%Z ->
  get_concept db p = Some c ->
  exists merged db',
    merge_concepts db (Some p) (Some p) = (Ok200 merged, db')
    /\ c_frequency merged = (2 * c_frequency c)%Z
    /\ c_id merged = p /\ c_name merged = c_name c
    /\ get_concept db' p = None
    /\ concept_documents db' p = []
    /\ concept_relations db' = concept_relations db
    /\ documents db' = documents db
    /\ (forall a, In a (concepts db') <-> In a (concepts db) /\ c_id a <> p)
    /\ (forall l, In l (document_concepts db')
                  <-> In l (document_concepts db) /\ dc_concept_id l <> p).
Proof.
  intros Hp Hget. unfold merge_concepts, merge_session, bind, get_or_404, ret.
  assert (Hm : missing (Some p) || missing (Some p) = false).
  { simpl. apply Z.eqb_neq in Hp. rewrite Hp. reflexivity. }
  rewrite Hm. change (default 0%Z (Some p)) with p. rewrite Hget.
  eexists _, _. split; [reflexivity |].
  apply RelationFacts.get_concept_id in Hget as [Hid Hin].
  cbn [documents concepts document_concepts concept_relations].
  split; [unfold set_frequency; rewrite Hid, Z.eqb_refl; simpl; lia |].
  split; [rewrite set_frequency_id; exact Hid |].
  split; [apply set_frequency_name |].
  split.
  { unfold get_concept. cbn [concepts].
    rewrite MergeFacts.find_delete_concept, Z.eqb_refl. reflexivity. }
  split; [apply MergeFacts.delete_links_self |].
  split.
  { rewrite <- (map_id (concept_relations db)) at 2. apply map_ext, repoint_self. }
  split; [reflexivity |].
  split.
  - intros a. unfold delete_concept. rewrite filter_In, negb_true_iff, Z.eqb_neq, in_map_iff.
    split.
    + intros [(b & Hb & Hinb) Hne]. split; [| exact Hne].
      assert (Hidb : c_id b = c_id a) by (rewrite <- Hb; symmetry; apply set_frequency_id).
      unfold set_frequency in Hb.
      destruct (Z.eqb_spec (c_id b) p); [congruence |]. subst b. exact Hinb.
    + intros [Hina Hne]. split; [| exact Hne]. exists a. split; [| exact Hina].
      unfold set_frequency. destruct (Z.eqb_spec (c_id a) p); [contradiction | reflexivity].
  - intros l. unfold delete_links. rewrite filter_In, negb_true_iff, Z.eqb_neq.
    split.
    + intros [Hl Hne]. split; [| exact Hne].
      apply (transfer_documents_others p) in Hl; assumption.
    + intros [Hl Hne]. split; [| exact Hne].
      apply (transfer_documents_others p); assumption.
Qed.

Lemma merge_with_itself_deletes_witness :
  get_concept Example.db 1 = Some Example.concept_a
  /\ exists merged db',
      merge_concepts Example.db (Some 1%Z) (Some 1%Z) = (Ok200 merged, db')
      /\ get_concept db' 1 = None.
Proof.
  split; [reflexivity |].
  destruct (merge_with_itself_deletes Example.db 1%Z Example.concept_a)
    as (merged & db' & Hmerge & _ & _ & _ & Hgone & _); [lia | reflexivity |].
  exists merged, db'. auto.
Defined.

End MergeInvariantFacts.

(** ** Accepted file names *)

Module DocumentProcessorFacts.
Import DocumentProcessor.

Lemma str_in_In (x : string) (l : list string) : str_in x l = true <-> In x l.
Proof.
  unfold str_in. rewrite existsb_exists. split.
  - intros (y & Hy & Heq). apply String.eqb_eq in Heq. subst y. exact Hy.
  - intros Hx. exists x. split; [exact Hx | apply String.eqb_refl].
Qed.

Lemma after_last_dot_split (filename ext : string) :
  after_last_dot filename = Some ext ->
  exists stem, filename = String.append stem (String "." ext).
Proof.
  revert ext. induction filename as [|c rest IH]; intros ext; simpl; [discriminate |].
  destruct (after_last_dot rest) as [ext' |].
  - intros [= <-]. destruct (IH ext' eq_refl) as [stem ->].
    exists (String c stem). reflexivity.
  - destruct (Ascii.eqb_spec c ".") as [-> | _]; [| discriminate].
    intros [= <-]. exists EmptyString. reflexivity.
Qed.

Lemma after_last_dot_app (stem ext : string) :
  after_last_dot ext = None ->
  after_last_dot (String.append stem (String "." ext)) = Some ext.
Proof.
  intros Hnone. induction stem as [|c stem IH]; simpl.
  - rewrite Hnone. reflexivity.
  - rewrite IH. reflexivity.
Qed.

Lemma contains_dot_app (stem ext : string) :
  PyStr.contains "." (String.append stem (String "." ext)) = true.
Proof.
  induction stem as [|c stem IH]; simpl.
  - destruct ext; reflexivity.
  - rewrite IH. apply orb_true_r.
Qed.

Lemma lower_keeps_dots (s : string) :
  after_last_dot (PyStr.lower s) = None -> after_last_dot s = None.
Proof.
  induction s as [|c s IH]; simpl; [reflexivity |].
  destruct (after_last_dot (PyStr.lower s)); [discriminate |].
  rewrite IH by reflexivity.
  destruct (Ascii.eqb_spec c ".") as [-> | _]; [| reflexivity].
  discriminate.
Qed.

Lemma allowed_without_dot (ext : string) :
  In ext allowed_extensions -> after_last_dot ext = None.
Proof.
  unfold allowed_extensions. simpl.
  intros [<- | [<- | [<- | [<- | [<- | [<- | [<- | [<- | []]]]]]]]]; reflexivity.
Qed.

(** X18.  A file name is accepted exactly when it ends with a dot
    followed by one of the eight extensions, in any letter case; only the
    text after the last dot counts, and nothing is asked of the text before
    it. *)
Theorem is_allowed_file_spec (filename : string) :
  is_allowed_file filename = true
  <-> exists stem ext,
        filename = String.append stem (String "." ext)
        /\ In (PyStr.lower ext) allowed_extensions.
Proof.
  unfold is_allowed_file. rewrite andb_true_iff. split.
  - intros [_ Hext]. destruct (after_last_dot filename) as [ext |] eqn:Hlast;
      [| discriminate].
    destruct (after_last_dot_split filename ext Hlast) as [stem ->].
    exists stem, ext. split; [reflexivity | apply str_in_In, Hext].
  - intros (stem & ext & -> & Hallowed). split; [apply contains_dot_app |].
    rewrite after_last_dot_app by apply lower_keeps_dots, allowed_without_dot, Hallowed.
    apply str_in_In, Hallowed.
Qed.

End DocumentProcessorFacts.
